(** * Instance_Detection: feature extraction and indexing pipeline

    A shallow embedding of [src/extraction.py]: configuration and model
    selection ([main]), mask composition ([FeatureExtractor]), the sharded
    per-worker pass, the gather-and-sort reconciliation of [run_extraction]
    and the rank-0 persistence step, followed by the properties of the
    pipeline that are checked against that embedding. *)

From Stdlib Require Import ZArith Lia Ascii Permutation Sorted SpecFloat.
From stdpp Require Import base option list strings gmap pretty.

Local Open Scope string_scope.
Local Open Scope list_scope.
Local Open Scope nat_scope.

(* ===================================================================== *)
(** * Part I: the embedding                                               *)
(* ===================================================================== *)

(** ** Python exceptions and fallible computations *)

(** The exception classes that the modelled code paths can raise. *)
Inductive PyError : Type :=
  | KeyError (key : string)
  | IndexError
  | TypeError (what : string)
  | ValueError (what : string)
  | RuntimeError (what : string)
  | OSError (what : string).

Inductive result (A : Type) : Type :=
  | Ok (a : A)
  | Raise (e : PyError).
Arguments Ok {A} a.
Arguments Raise {A} e.

Definition rbind {A B : Type} (m : result A) (k : A -> result B) : result B :=
  match m with
  | Ok a => k a
  | Raise e => Raise e
  end.

#[global] Instance result_bind : MBind result := fun A B k m => rbind m k.
#[global] Instance result_ret : MRet result := fun A a => Ok a.

Definition is_ok {A : Type} (m : result A) : bool :=
  match m with Ok _ => true | Raise _ => false end.

(** [for x in xs: body x], stopping at the first exception. *)
Fixpoint for_each {A : Type} (body : A -> result unit) (xs : list A) : result unit :=
  match xs with
  | [] => Ok tt
  | x :: rest => body x ;; for_each body rest
  end.

(** A comprehension [[f x for x in xs]] whose body may raise. *)
Fixpoint map_result {A B : Type} (f : A -> result B) (xs : list A) : result (list B) :=
  match xs with
  | [] => Ok []
  | x :: rest => y ← f x; ys ← map_result f rest; Ok (y :: ys)
  end.

(** Python's [xs[i]] on a list, a tensor's first axis or a numpy array's rows. *)
Definition py_index {A : Type} (xs : list A) (i : nat) : result A :=
  match xs !! i with
  | Some x => Ok x
  | None => Raise IndexError
  end.

(** ** Configuration (dataclasses of extraction.py, lines 33-93) *)

Record ModelConfig : Type := {
  name : option string;
  type_model : option string;
  pretrained_path : option string;
  model_config_path : option string
}.

Record FaissConfig : Type := {
  index_type : string;
  dimension : Z;
  use_gpu : bool;
  device : Z;
  metric : string;
  nlist : option Z;
  M : option Z;
  nbits : option Z;
  nprobe : option Z
}.

Record DataConfig : Type := {
  data_dir : string;
  batch_size : Z;
  num_workers : Z;
  target_size : option (Z * Z)
}.

Record Config : Type := {
  models : gmap string ModelConfig;
  faiss : FaissConfig;
  data : DataConfig;
  output_dir : string;
  distributed : bool;
  world_size : nat;
  seed : Z
}.

(** [ModelConfig] built from the keyword arguments of one entry of the JSON object [models]
    (load_config, line 112).  A JSON [null] is [None]; the dataclass gives
    every field the default [None], and an unknown keyword is a [TypeError]. *)
Definition ModelConfig_fields : list string :=
  ["name"; "type_model"; "pretrained_path"; "model_config_path"].

Definition ModelConfig_init (kwargs : gmap string (option string)) : result ModelConfig :=
  if forallb (fun k => bool_decide (k ∈ ModelConfig_fields)) (map fst (map_to_list kwargs))
  then Ok {| name := default None (kwargs !! "name");
             type_model := default None (kwargs !! "type_model");
             pretrained_path := default None (kwargs !! "pretrained_path");
             model_config_path := default None (kwargs !! "model_config_path") |}
  else Raise (TypeError "unexpected keyword argument").

(** [d[k]] on a dict. *)
Definition dict_get {A : Type} (d : gmap string A) (k : string) : result A :=
  match d !! k with
  | Some v => Ok v
  | None => Raise (KeyError k)
  end.

(** Python's [x != "None"] for [x : Optional[str]]: [None] differs from
    every string. *)
Definition py_ne_str (x : option string) (s : string) : bool :=
  match x with
  | Some x' => negb (String.eqb x' s)
  | None => true
  end.

(** main, line 567:
    [model_type = "CLIP" if config.models['CLIP'].name != "None" else "DINOV2"]. *)
Definition select_model_type (config : Config) : result string :=
  clip ← dict_get (models config) "CLIP";
  Ok (if py_ne_str (name clip) "None" then "CLIP" else "DINOV2").

(** ModelFactory.create_model (lines 53-62): which model class is built. *)
Inductive ModelClass : Type := CLIPModel | DinoV2Model.

Definition create_model (model_type : string) (config : ModelConfig)
  : result (ModelClass * option string) :=
  if String.eqb model_type "CLIP" then Ok (CLIPModel, name config)
  else if String.eqb model_type "DINOV2" then Ok (DinoV2Model, name config)
  else Raise (ValueError ("Unsupported model type: " +:+ model_type)).

(** ** Tensors

    A tensor is its shape and its elements in row-major order, as torch
    lays a contiguous tensor out.  Elements are IEEE binary32 values
    ([torch.float32]) given by the standard library's [spec_float] at
    precision 24 and exponent bound 128. *)

Definition float32 : Type := spec_float.

Definition f32_mul (x y : float32) : float32 := SFmul 24 128 x y.
Definition f32_ltb (x y : float32) : bool := SFltb x y.
Definition f32_zero : float32 := S754_zero false.
Definition f32_one : float32 := S754_finite false 8388608 (-23).
(** 0.5, the default [threshold] of [_prepare_binary_mask]. *)
Definition f32_half : float32 := S754_finite false 8388608 (-24).
(** The binary32 value nearest to the decimal [m * 10^-1], for the literals
    of the examples. *)
Definition f32_of_Z (z : Z) : float32 := binary_normalize 24 128 z 0 false.
Definition f32_tenths (m : Z) : float32 :=
  SFdiv 24 128 (f32_of_Z m) (f32_of_Z 10).

Record Tensor (A : Type) : Type := mkTensor {
  shape : list nat;
  elems : list A
}.
Arguments mkTensor {A} shape elems.
Arguments shape {A} t.
Arguments elems {A} t.

Definition numel (s : list nat) : nat := foldr Nat.mul 1 s.

Definition tensor_wf {A : Type} (t : Tensor A) : Prop :=
  length (elems t) = numel (shape t).

(** [t.dim()] and [t.size(i)]. *)
Definition dim {A : Type} (t : Tensor A) : nat := length (shape t).
Definition size {A : Type} (t : Tensor A) (i : nat) : result nat :=
  py_index (shape t) i.

(** Row-major offset of a multi-index. *)
Fixpoint ravel (s idx : list nat) : nat :=
  match s, idx with
  | _ :: s', i :: idx' => i * numel s' + ravel s' idx'
  | _, _ => 0
  end.

Definition valid_index (s idx : list nat) : Prop := Forall2 (fun i n => i < n) idx s.

(** [t[i0, i1, ...]] as an element read. *)
Definition tget {A : Type} (t : Tensor A) (idx : list nat) : option A :=
  elems t !! ravel (shape t) idx.

Definition tmap {A B : Type} (f : A -> B) (t : Tensor A) : Tensor B :=
  mkTensor (shape t) (map f (elems t)).

(** [torch.zeros(shape)]. *)
Definition zeros (s : list nat) : Tensor float32 :=
  mkTensor s (replicate (numel s) f32_zero).

(** Cut a flat block into [k] consecutive rows of [inner] elements. *)
Fixpoint chunks {A : Type} (k inner : nat) (d : list A) : list (list A) :=
  match k with
  | O => []
  | S k' => take inner d :: chunks k' inner (drop inner d)
  end.

(** Broadcast the elements of a tensor of shape [src] to shape [dst] of the
    same rank, every axis of [src] being either equal to that of [dst] or of
    size one (then repeated). *)
Fixpoint bcast_data {A : Type} (src dst : list nat) (d : list A) : list A :=
  match src, dst with
  | s :: src', n :: dst' =>
      if s =? n
      then concat (map (bcast_data src' dst') (chunks s (numel src') d))
      else concat (replicate n (bcast_data src' dst' d))
  | _, _ => d
  end.

(** An axis of the source either has the size of the target's or size one. *)
Definition bcast_compat (src dst : list nat) : Prop :=
  Forall2 (fun a n => a = n \/ a = 1) src dst.

#[global] Instance bcast_compat_dec (src dst : list nat) : Decision (bcast_compat src dst).
Proof. unfold bcast_compat. apply _. Defined.

(** The multi-index of the source element that a target element is read
    from: axes of size one are read at 0. *)
Definition clip_index (src idx : list nat) : list nat :=
  zip_with (fun a i => if a =? 1 then 0 else i) src idx.

(** Torch's broadcasting rule on two shapes of the same rank. *)
Fixpoint broadcast_shapes (s1 s2 : list nat) : option (list nat) :=
  match s1, s2 with
  | [], [] => Some []
  | a :: s1', b :: s2' =>
      rest ← broadcast_shapes s1' s2';
      if a =? b then Some (a :: rest)
      else if a =? 1 then Some (b :: rest)
      else if b =? 1 then Some (a :: rest)
      else None
  | _, _ => None
  end.

(** Shapes of different rank are aligned on the right: the shorter one gets
    leading axes of size one. *)
Definition pad_shape (n : nat) (s : list nat) : list nat :=
  replicate (n - length s) 1 ++ s.

(** [a * b] on tensors, with broadcasting; a [RuntimeError] when the shapes
    are not broadcastable. *)
Definition tensor_mul (a b : Tensor float32) : result (Tensor float32) :=
  let n := Nat.max (dim a) (dim b) in
  let sa := pad_shape n (shape a) in
  let sb := pad_shape n (shape b) in
  match broadcast_shapes sa sb with
  | Some s =>
      Ok (mkTensor s (zip_with f32_mul (bcast_data sa s (elems a)) (bcast_data sb s (elems b))))
  | None =>
      Raise (RuntimeError "The size of tensor a must match the size of tensor b")
  end.

(** [t.unsqueeze(1)]: a new axis of size one at position 1; position 1 does
    not exist for a tensor of rank 0. *)
Definition unsqueeze1 {A : Type} (t : Tensor A) : result (Tensor A) :=
  match shape t with
  | [] => Raise IndexError
  | n :: rest => Ok (mkTensor (n :: 1 :: rest) (elems t))
  end.

(** [t.expand(-1, c, -1, -1)]: only for a tensor of rank 4, whose axis 1 is
    of size [c] already or of size one. *)
Definition expand_channels {A : Type} (t : Tensor A) (c : nat) : result (Tensor A) :=
  match shape t with
  | [b; c0; h; w] =>
      if (c0 =? c) || (c0 =? 1)
      then Ok (mkTensor [b; c; h; w] (bcast_data [b; c0; h; w] [b; c; h; w] (elems t)))
      else Raise (RuntimeError "The expanded size of the tensor must match the existing size")
  | _ => Raise (RuntimeError "expand: the number of sizes must match the tensor's rank")
  end.

(** [t[i]]: the [i]-th slice along axis 0. *)
Definition tensor_index {A : Type} (t : Tensor A) (i : nat) : result (Tensor A) :=
  match shape t with
  | [] => Raise IndexError
  | n :: rest =>
      if i <? n
      then Ok (mkTensor rest (take (numel rest) (drop (i * numel rest) (elems t))))
      else Raise IndexError
  end.

(** [t[i] = v]: overwrite the [i]-th slice along axis 0 by [v] broadcast to
    the slice's shape ([v] of the slice's rank). *)
Definition tensor_setitem {A : Type} (t : Tensor A) (i : nat) (v : Tensor A)
  : result (Tensor A) :=
  match shape t with
  | [] => Raise IndexError
  | n :: rest =>
      if i <? n then
        if bool_decide (bcast_compat (shape v) rest)
        then
          let k := numel rest in
          Ok (mkTensor (shape t)
                (take (i * k) (elems t) ++ bcast_data (shape v) rest (elems v)
                   ++ drop (i * k + k) (elems t)))
        else Raise (RuntimeError "The expanded size of the tensor must match the existing size")
      else Raise IndexError
  end.

(** ** Samples and metadata bundles *)

(** A feature vector: one row of the encoder's (B, D) output. *)
Definition Vector : Type := list float32.

(** The [id] entry of a metadata dict is a 1-D integer tensor while batches
    are accumulated and gathered ([torch.cat], lines 443 and 474) and a plain
    list after [.tolist()] (line 488). *)
Inductive IdColumn : Type :=
  | IdTensor (ids : list Z)
  | IdList (ids : list Z).

Definition id_values (c : IdColumn) : list Z :=
  match c with IdTensor v => v | IdList v => v end.

(** The metadata dict of a batch, of a worker or of the whole run: one
    column per key. *)
Record Metadata : Type := {
  md_id : IdColumn;
  md_object_name : list string;
  md_data_dir : list string;
  md_image_path : list string;
  md_mask_path : list string;
  md_dataset_type : list string
}.

(** Modelled from the spec: [ObjectDataset] (module [datasets]) is not under
    src/; by the spec a dataset item is an image tensor with the five metadata
    fields and a numeric id. *)
Record Sample : Type := {
  s_image : Tensor float32;
  s_id : Z;
  s_object_name : string;
  s_data_dir : string;
  s_image_path : string;
  s_mask_path : string;
  s_dataset_type : string
}.

(** [torch.stack] of the images of a batch along a new axis 0. *)
Definition stack_images (imgs : list (Tensor float32)) : result (Tensor float32) :=
  match imgs with
  | [] => Raise (RuntimeError "stack expects a non-empty TensorList")
  | t :: _ =>
      if forallb (fun u => bool_decide (shape u = shape t)) imgs
      then Ok (mkTensor (length imgs :: shape t) (concat (map elems imgs)))
      else Raise (RuntimeError "stack expects each tensor to be equal size")
  end.

(** The DataLoader's default collate on a list of dataset items: images are
    stacked, integer ids become one tensor, strings stay lists. *)
Definition collate (batch : list Sample) : result (Tensor float32 * Metadata) :=
  images ← stack_images (map s_image batch);
  Ok (images,
      {| md_id := IdTensor (map s_id batch);
         md_object_name := map s_object_name batch;
         md_data_dir := map s_data_dir batch;
         md_image_path := map s_image_path batch;
         md_mask_path := map s_mask_path batch;
         md_dataset_type := map s_dataset_type batch |}).

(** A decoded single-channel ('L' mode) image: 8-bit pixels, row by row. *)
Record GrayImage : Type := {
  gi_height : nat;
  gi_width : nat;
  gi_pixels : list Z
}.

(** [transforms.ToTensor()] on an 'L' image: shape (1, H, W), pixels scaled
    to [0, 1]. *)
Definition ToTensor (img : GrayImage) : Tensor float32 :=
  mkTensor [1; gi_height img; gi_width img]
    (map (fun p => SFdiv 24 128 (f32_of_Z p) (f32_of_Z 255)) (gi_pixels img)).

(** [os.path.join(a, b)] on POSIX paths. *)
Definition path_join (a b : string) : string :=
  match b with
  | String "/"%char _ => b
  | _ =>
      match a with
      | "" => b
      | _ =>
          if String.eqb (String.substring (String.length a - 1) 1 a) "/"
          then a +:+ b
          else a +:+ "/" +:+ b
      end
  end.

(** One element of [(mask > threshold).float()]: the comparison is strict,
    [True] becomes 1.0 and [False] 0.0. *)
Definition binarize (threshold x : float32) : float32 :=
  if f32_ltb threshold x then f32_one else f32_zero.

(** ** FeatureExtractor (lines 198-310) and process_batch (lines 312-354) *)

Section FeatureExtractor.

Variable config : Config.

(** What the class reaches outside of extraction.py: the file system
    ([os.makedirs], torchvision's [save_image]) and the wrapped encoder
    ([self.base_model.extract_features(...)] followed by
    [.cpu().detach().numpy()]). *)
Variable os_makedirs : string -> result unit.
Variable save_image : Tensor float32 -> string -> result unit.
Variable base_model_extract_features : Tensor float32 -> result (list Vector).

(** Lines 235-262. *)
Definition save_sample_images (original_images masked_images : Tensor float32)
    (num_samples : nat) : result unit :=
  n0 ← size original_images 0;
  let num_samples := Nat.min num_samples n0 in
  let save_dir := path_join (output_dir config) "sample_images" in
  let original_dir := path_join save_dir "original" in
  let masked_dir := path_join save_dir "masked" in
  os_makedirs original_dir;;
  os_makedirs masked_dir;;
  for_each (fun i =>
      o ← tensor_index original_images i;
      save_image o (path_join original_dir ("original_" +:+ pretty i +:+ ".png"));;
      m ← tensor_index masked_images i;
      save_image m (path_join masked_dir ("masked_" +:+ pretty i +:+ ".png")))
    (seq 0 num_samples).

(** Lines 265-277: [(mask > threshold).float()]. *)
Definition _prepare_binary_mask (mask : Tensor float32) (threshold : float32)
  : Tensor float32 :=
  tmap (binarize threshold) mask.

(** Lines 297-302 of [extract_features]: the masked images fed to the
    encoder. *)
Definition masked_images_of (images masks : Tensor float32) : result (Tensor float32) :=
  let binary_masks := _prepare_binary_mask masks f32_half in
  binary_masks ← (if dim binary_masks <? 4 then unsqueeze1 binary_masks
                  else Ok binary_masks);
  c ← size images 1;
  binary_masks ← expand_channels binary_masks c;
  tensor_mul images binary_masks.

(** Lines 280-310. *)
Definition extract_features (images masks : Tensor float32) : result (list Vector) :=
  masked_images ← masked_images_of images masks;
  save_sample_images images masked_images 5;;
  features ← base_model_extract_features masked_images;
  Ok features.

(** Decoding of a mask file: [Image.open(path).convert('L')] and
    [ImageProcessor.preprocess_image] (module [datasets], not under src/). *)
Variable image_open_L : string -> result GrayImage.
Variable preprocess_image : GrayImage -> Z -> result GrayImage.

(** The body of the loop of lines 344-352 for the [i]-th mask path. *)
Definition load_mask_into (masks : Tensor float32) (i : nat) (path : string)
  : result (Tensor float32) :=
  mask ← image_open_L path;
  target ← match target_size (data config) with
           | Some (t0, _) => Ok t0
           | None => Raise (TypeError "'NoneType' object is not subscriptable")
           end;
  mask ← preprocess_image mask target;
  tensor_setitem masks i (ToTensor mask).

Fixpoint load_masks (masks : Tensor float32) (i : nat) (mask_list : list string)
  : result (Tensor float32) :=
  match mask_list with
  | [] => Ok masks
  | path :: rest =>
      masks ← load_mask_into masks i path;
      load_masks masks (S i) rest
  end.

(** Lines 312-354. *)
Definition process_batch (batch : Tensor float32 * Metadata)
  : result (list Vector * Metadata) :=
  let '(images, metadata) := batch in
  let mask_list := md_mask_path metadata in
  batch_size ← size images 0;
  h ← size images 2;
  w ← size images 3;
  masks ← load_masks (zeros [batch_size; 1; h; w]) 0 mask_list;
  features ← extract_features images masks;
  Ok (features, metadata).

End FeatureExtractor.

(** ** Sharding: DistributedSampler and DataLoader (lines 398-407)

    [DistributedSampler(dataset, shuffle=False)] and the DataLoader's batch
    sampler are torch's; their iteration is transcribed here for the
    arguments of lines 398-407 ([shuffle=False], [drop_last=False]). *)

(** [math.ceil(a / b)] on non-negative integers, [b] positive. *)
Definition ceil_div (a b : nat) : nat := (a + b - 1) / b.

(** [l[start::step]]: the element at [start] and every [step]-th one after
    it ([step] positive). *)
Fixpoint stride_from {A : Type} (skip step : nat) (l : list A) : list A :=
  match l with
  | [] => []
  | x :: rest =>
      match skip with
      | O => x :: stride_from (step - 1) step rest
      | S k => stride_from k step rest
      end
  end.

(** [l[start:stop:step]]. *)
Definition py_slice_step {A : Type} (l : list A) (start stop step : nat) : list A :=
  stride_from start step (take stop l).

(** [DistributedSampler.__init__]: every replica draws [num_samples]
    indices out of a list of [total_size]. *)
Definition sampler_num_samples (dataset_size num_replicas : nat) : nat :=
  ceil_div dataset_size num_replicas.
Definition sampler_total_size (dataset_size num_replicas : nat) : nat :=
  sampler_num_samples dataset_size num_replicas * num_replicas.

(** [DistributedSampler.__iter__] up to the subsampling: the indices
    [0 .. dataset_size-1], padded from their own start to [total_size]. *)
Definition sampler_padded_indices (dataset_size num_replicas : nat) : list nat :=
  let indices := seq 0 dataset_size in
  let padding_size := sampler_total_size dataset_size num_replicas - length indices in
  if padding_size <=? length indices
  then indices ++ take padding_size indices
  else indices ++ take padding_size
                    (concat (replicate (ceil_div padding_size (length indices)) indices)).

(** The indices replica [rank] iterates over:
    [indices[rank:total_size:num_replicas]]. *)
Definition DistributedSampler (dataset_size num_replicas rank : nat) : list nat :=
  py_slice_step (sampler_padded_indices dataset_size num_replicas)
    rank (sampler_total_size dataset_size num_replicas) num_replicas.

(** Without a sampler the DataLoader reads the dataset in order. *)
Definition SequentialSampler (dataset_size : nat) : list nat := seq 0 dataset_size.

(** The DataLoader's batch sampler with [drop_last=False]: indices are
    collected into [batch] until it holds [batch_size] of them; a last,
    shorter batch is kept. *)
Fixpoint batch_sampler {A : Type} (batch_size : nat) (batch : list A) (indices : list A)
  : list (list A) :=
  match indices with
  | [] => match batch with [] => [] | _ => [batch] end
  | i :: rest =>
      let batch := batch ++ [i] in
      if length batch =? batch_size
      then batch :: batch_sampler batch_size [] rest
      else batch_sampler batch_size batch rest
  end.

(** ** Accumulation, reconciliation and persistence (lines 426-542) *)

(** [torch.cat((a, b), dim=0)] on two id columns: both must be tensors. *)
Definition torch_cat (a b : IdColumn) : result IdColumn :=
  match a, b with
  | IdTensor x, IdTensor y => Ok (IdTensor (x ++ y))
  | _, _ => Raise (TypeError "expected Tensor as element of argument 'tensors'")
  end.

(** A metadata dict is either [{}] ([None] here) or holds all six columns.
    Lines 439-448: the per-worker accumulation of one more batch. *)
Definition accumulate_metadata (all_metadata : option Metadata) (metadata : Metadata)
  : result (option Metadata) :=
  match all_metadata with
  | None => Ok (Some metadata)
  | Some am =>
      ids ← torch_cat (md_id am) (md_id metadata);
      Ok (Some {| md_id := ids;
                  md_object_name := md_object_name am ++ md_object_name metadata;
                  md_data_dir := md_data_dir am ++ md_data_dir metadata;
                  md_image_path := md_image_path am ++ md_image_path metadata;
                  md_mask_path := md_mask_path am ++ md_mask_path metadata;
                  md_dataset_type := md_dataset_type am ++ md_dataset_type metadata |})
  end.

(** Lines 464-467: every row of every batch of every worker, in that order. *)
Definition flatten_features (gathered_features : list (list (list Vector))) : list Vector :=
  foldl (fun flat proc_features =>
           foldl (fun flat feat_matrix => flat ++ feat_matrix) flat proc_features)
        [] gathered_features.

(** Lines 470-479, one iteration: [flat_metadata] after [proc_metadata] has
    been merged in.  The id tensor is [torch.cat((proc, flat))]; the other
    columns are [flat.extend(proc)]. *)
Definition merge_proc_metadata (flat_metadata proc_metadata : option Metadata)
  : result (option Metadata) :=
  match flat_metadata with
  | None => Ok proc_metadata
  | Some fm =>
      match proc_metadata with
      | None => Raise (KeyError "id")
      | Some pm =>
          ids ← torch_cat (md_id pm) (md_id fm);
          Ok (Some {| md_id := ids;
                      md_object_name := md_object_name fm ++ md_object_name pm;
                      md_data_dir := md_data_dir fm ++ md_data_dir pm;
                      md_image_path := md_image_path fm ++ md_image_path pm;
                      md_mask_path := md_mask_path fm ++ md_mask_path pm;
                      md_dataset_type := md_dataset_type fm ++ md_dataset_type pm |})
      end
  end.

(** Lines 469-479. *)
Fixpoint flatten_metadata_from (flat_metadata : option Metadata)
    (gathered_metadata : list (option Metadata)) : result (option Metadata) :=
  match gathered_metadata with
  | [] => Ok flat_metadata
  | proc_metadata :: rest =>
      flat_metadata ← merge_proc_metadata flat_metadata proc_metadata;
      flatten_metadata_from flat_metadata rest
  end.

Definition flatten_metadata (gathered_metadata : list (option Metadata))
  : result (option Metadata) :=
  flatten_metadata_from None gathered_metadata.

(** Python's [sorted(xs, key=key)]: a stable sort, here by insertion from
    the right, an element going before the ones of equal key after it. *)
Fixpoint insert_by {A : Type} (key : A -> Z) (x : A) (l : list A) : list A :=
  match l with
  | [] => [x]
  | y :: rest => if (key y <? key x)%Z then y :: insert_by key x rest else x :: y :: rest
  end.

Definition py_sorted {A : Type} (key : A -> Z) (l : list A) : list A :=
  foldr (insert_by key) [] l.

(** [list(enumerate(xs))]. *)
Definition enumerate {A : Type} (xs : list A) : list (nat * A) :=
  zip (seq 0 (length xs)) xs.

(** Lines 481-483: the permutation that sorts the id column. *)
Definition sorted_indices_of (ids : list Z) : list nat :=
  let index_pairs := enumerate ids in
  let sorted_index_pairs := py_sorted snd index_pairs in
  map fst sorted_index_pairs.

(** [xs[indices]] (numpy and torch) and [[xs[i] for i in indices]]. *)
Definition take_indices {A : Type} (xs : list A) (indices : list nat) : result (list A) :=
  map_result (py_index xs) indices.

(** Lines 481-496: canonicalize and apply. *)
Definition canonicalize (flat_features : list Vector) (flat_metadata : option Metadata)
  : result (list Vector * Metadata) :=
  fm ← match flat_metadata with
       | Some fm => Ok fm
       | None => Raise (KeyError "id")
       end;
  let sorted_indices := sorted_indices_of (id_values (md_id fm)) in
  sorted_features ← take_indices flat_features sorted_indices;
  ids ← take_indices (id_values (md_id fm)) sorted_indices;
  object_name ← take_indices (md_object_name fm) sorted_indices;
  data_dir ← take_indices (md_data_dir fm) sorted_indices;
  image_path ← take_indices (md_image_path fm) sorted_indices;
  mask_path ← take_indices (md_mask_path fm) sorted_indices;
  dataset_type ← take_indices (md_dataset_type fm) sorted_indices;
  Ok (sorted_features,
      {| md_id := IdList ids;
         md_object_name := object_name;
         md_data_dir := data_dir;
         md_image_path := image_path;
         md_mask_path := mask_path;
         md_dataset_type := dataset_type |}).

(** Lines 462-496: what every worker computes from the gathered logs. *)
Definition reconcile (gathered : list (list (list Vector) * option Metadata))
  : result (list Vector * Metadata) :=
  let flat_features := flatten_features (map fst gathered) in
  flat_metadata ← flatten_metadata (map snd gathered);
  canonicalize flat_features flat_metadata.

(** [np.vstack(all_features)] (line 501) on the list of per-batch matrices. *)
Definition np_vstack (all_features : list (list Vector)) : result (list Vector) :=
  match all_features with
  | [] => Raise (ValueError "need at least one array to concatenate")
  | _ => Ok (concat all_features)
  end.

(** Modelled from the spec: [FaissIndexStrategy] (module [faisss]) is not
    under src/; by the spec the index is bulk-loaded with the entire feature
    matrix in one call, which is fatal when a row's dimension is not the
    configured one, and then persisted.  The index is kept as its rows, in
    insertion order. *)
Definition faiss_add (dimension : Z) (vectors : list Vector) : result (list Vector) :=
  if forallb (fun v => (Z.of_nat (length v) =? dimension)%Z) vectors
  then Ok vectors
  else Raise (ValueError "IndexDimensionMismatch").

(** [json.dump(all_metadata, f)]: a dict of lists of integers and strings is
    serializable, a [torch.Tensor] value is not. *)
Definition json_dump (all_metadata : option Metadata) : result (option Metadata) :=
  match all_metadata with
  | None => Ok None
  | Some m =>
      match md_id m with
      | IdList _ => Ok (Some m)
      | IdTensor _ => Raise (TypeError "Object of type Tensor is not JSON serializable")
      end
  end.

(** [len(all_metadata)]: the number of keys of the dict. *)
Definition dict_len (all_metadata : option Metadata) : nat :=
  match all_metadata with None => 0 | Some _ => 6 end.

(** The lines of processing_summary.txt that do not depend on the clock. *)
Record Summary : Type := {
  sum_model_type : string;
  sum_total_features : nat;
  sum_images_processed : nat;
  sum_batch_size : Z;
  sum_num_workers : Z;
  sum_distributed : bool;
  sum_gpus : option nat;
  sum_config : Config
}.

(** metadata.json: opened for writing, then either fully dumped or left
    incomplete by an exception of [json.dump]. *)
Inductive MetadataFile : Type :=
  | MetadataJson (m : option Metadata)
  | MetadataIncomplete.

(** The three output artifacts that [run_extraction] writes at rank 0:
    index, metadata sidecar and processing summary.  The other files a run
    leaves behind are not among them: the sample images every rank hands to
    [save_image] on each batch (lines 247-258) and the log file every
    process opens in [setup_logging] (line 369). *)
Record Artifacts : Type := {
  index_file : option (list Vector);
  metadata_file : option MetadataFile;
  summary_file : option Summary
}.

Definition no_artifacts : Artifacts :=
  {| index_file := None; metadata_file := None; summary_file := None |}.

Section RunExtraction.

Variable config : Config.
Variable dataset : list Sample.
Variable os_makedirs : string -> result unit.
Variable save_image : Tensor float32 -> string -> result unit.
Variable base_model_extract_features : Tensor float32 -> result (list Vector).
Variable image_open_L : string -> result GrayImage.
Variable preprocess_image : GrayImage -> Z -> result GrayImage.

(** The indices the DataLoader of worker [rank] draws (lines 398-407). *)
Definition shard_indices (rank : nat) : list nat :=
  if distributed config
  then DistributedSampler (length dataset) (world_size config) rank
  else SequentialSampler (length dataset).

(** One iteration of the loop of lines 430-453 on a batch of indices. *)
Definition shard_step (batch_indices : list nat)
    (all_features : list (list Vector)) (all_metadata : option Metadata)
  : result (list (list Vector) * option Metadata) :=
  samples ← map_result (py_index dataset) batch_indices;
  batch ← collate samples;
  '(features, metadata) ← process_batch config os_makedirs save_image
                             base_model_extract_features image_open_L
                             preprocess_image batch;
  let all_features := all_features ++ [features] in
  all_metadata ← accumulate_metadata all_metadata metadata;
  Ok (all_features, all_metadata).

Fixpoint shard_loop (batches : list (list nat))
    (all_features : list (list Vector)) (all_metadata : option Metadata)
  : result (list (list Vector) * option Metadata) :=
  match batches with
  | [] => Ok (all_features, all_metadata)
  | batch_indices :: rest =>
      '(all_features, all_metadata) ← shard_step batch_indices all_features all_metadata;
      shard_loop rest all_features all_metadata
  end.

(** Lines 398-453: the local pass of worker [rank]. *)
Definition shard_pass (rank : nat) : result (list (list Vector) * option Metadata) :=
  if (batch_size (data config) <=? 0)%Z
  then Raise (ValueError "batch_size should be a positive integer value")
  else shard_loop (batch_sampler (Z.to_nat (batch_size (data config))) []
                     (shard_indices rank)) [] None.

(** Lines 454-501: the result set of the run as worker [rank] holds it
    after the gather ([dist.all_gather_object] returns the logs of all
    workers in rank order) or, in single-process mode, after [np.vstack]. *)
Definition global_result_set (rank : nat) : result (list Vector * option Metadata) :=
  '(all_features, all_metadata) ← shard_pass rank;
  if distributed config then
    gathered ← map_result shard_pass (seq 0 (world_size config));
    '(sorted_features, sorted_metadata) ← reconcile gathered;
    Ok (sorted_features, Some sorted_metadata)
  else
    all_features ← np_vstack all_features;
    Ok (all_features, all_metadata).

(** Lines 503-542: what rank 0 writes, file after file. *)
Definition persist (model_type : string) (all_features : list Vector)
    (all_metadata : option Metadata) : Artifacts * result unit :=
  match faiss_add (dimension (faiss config)) all_features with
  | Raise e => (no_artifacts, Raise e)
  | Ok index =>
      match json_dump all_metadata with
      | Raise e =>
          ({| index_file := Some index;
              metadata_file := Some MetadataIncomplete;
              summary_file := None |}, Raise e)
      | Ok doc =>
          ({| index_file := Some index;
              metadata_file := Some (MetadataJson doc);
              summary_file :=
                Some {| sum_model_type := model_type;
                        sum_total_features := length all_features;
                        sum_images_processed := dict_len all_metadata;
                        sum_batch_size := batch_size (data config);
                        sum_num_workers := num_workers (data config);
                        sum_distributed := distributed config;
                        sum_gpus := if distributed config
                                    then Some (world_size config) else None;
                        sum_config := config |} |}, Ok tt)
      end
  end.

(** Lines 359-551, for the process of rank [rank]. *)
Definition run_extraction (rank : nat) (model_type : string) : Artifacts * result unit :=
  let prepared :=
    (if distributed config && negb (rank <? world_size config)
     then Raise (RuntimeError "invalid rank for the process group")
     else Ok tt);;
    model_config ← dict_get (models config) model_type;
    create_model model_type model_config;;
    global_result_set rank in
  match prepared with
  | Raise e => (no_artifacts, Raise e)
  | Ok (all_features, all_metadata) =>
      if rank =? 0 then persist model_type all_features all_metadata
      else (no_artifacts, Ok tt)
  end.

(** Lines 557-591: the ranks [main] starts and what each of them returns. *)
Definition main : result (list (Artifacts * result unit)) :=
  model_type ← select_model_type config;
  if distributed config
  then Ok (map (fun rank => run_extraction rank model_type) (seq 0 (world_size config)))
  else Ok [run_extraction 0 model_type].

End RunExtraction.

(** ** The encoders of src/model/model_init.py *)

(** An element of the [images] argument of [extract_features], of type
    [List[Union[torch.Tensor, Image.Image]]]. *)
Inductive ImageInput (PIL : Type) : Type :=
  | TensorInput (t : Tensor float32)
  | PILInput (img : PIL).
Arguments TensorInput {PIL} t.
Arguments PILInput {PIL} img.

(** The [images] argument itself: a Python list, as the signature has it,
    or one batch tensor, as [FeatureExtractor.extract_features] passes it
    (extraction.py, line 308). *)
Inductive ImagesArg (PIL : Type) : Type :=
  | ImageList (images : list (ImageInput PIL))
  | ImageBatch (batch : Tensor float32).
Arguments ImageList {PIL} images.
Arguments ImageBatch {PIL} batch.

(** [len(images)], which the first log line of both classes evaluates. *)
Definition py_len {PIL : Type} (images : ImagesArg PIL) : result nat :=
  match images with
  | ImageList images => Ok (length images)
  | ImageBatch batch =>
      match shape batch with
      | [] => Raise (TypeError "len() of a 0-d tensor")
      | n :: _ => Ok n
      end
  end.

Section CLIPModel.

Variable PIL : Type.
(** [self.preprocess] and [self.model.encode_image], both open_clip's. *)
Variable clip_preprocess : ImageInput PIL -> result (Tensor float32).
Variable encode_image : Tensor float32 -> result (list Vector).

(** [torch.stack(images)]: the argument must be a list (or tuple), and
    every element of it a tensor. *)
Definition torch_stack (images : ImagesArg PIL) : result (Tensor float32) :=
  match images with
  | ImageBatch _ =>
      Raise (TypeError "stack(): argument 'tensors' must be tuple of Tensors, not Tensor")
  | ImageList images =>
      tensors ← map_result
                  (fun x => match x with
                            | TensorInput t => Ok t
                            | PILInput _ =>
                                Raise (TypeError
                                         "expected Tensor as element of argument 'tensors'")
                            end) images;
      stack_images tensors
  end.

(** [images[0]]. *)
Definition first_image (images : ImagesArg PIL) : result (ImageInput PIL) :=
  match images with
  | ImageList images => py_index images 0
  | ImageBatch batch => t ← tensor_index batch 0; Ok (TensorInput t)
  end.

(** [[self.preprocess(image) for image in images]]: iterating a tensor
    yields its slices along axis 0. *)
Definition preprocess_all (images : ImagesArg PIL) : result (ImagesArg PIL) :=
  items ← match images with
          | ImageList images => Ok images
          | ImageBatch batch =>
              n ← size batch 0;
              slices ← map_result (tensor_index batch) (seq 0 n);
              Ok (map TensorInput slices)
          end;
  tensors ← map_result clip_preprocess items;
  Ok (ImageList (map TensorInput tensors)).

(** CLIPModel.extract_features (lines 60-72). *)
Definition CLIPModel_extract_features (images : ImagesArg PIL) : result (list Vector) :=
  py_len images;;
  first ← first_image images;
  images ← match first with
           | PILInput _ => preprocess_all images
           | TensorInput _ => Ok images
           end;
  stacked_images ← torch_stack images;
  encode_image stacked_images.

End CLIPModel.

(** The exceptions of the encoder classes: Python's [AttributeError] beside
    the ones of the pipeline. *)
Inductive EncoderError : Type :=
  | AttributeError (attribute : string)
  | Raised (e : PyError).

Inductive outcome (A : Type) : Type :=
  | Returned (a : A)
  | Failed (e : EncoderError).
Arguments Returned {A} a.
Arguments Failed {A} e.

Definition lift {A : Type} (m : result A) : outcome A :=
  match m with Ok a => Returned a | Raise e => Failed (Raised e) end.

(** The objects bound to the attributes of a [DinoV2Model] instance. *)
Inductive DinoAttr (HFModel HFProcessor : Type) : Type :=
  | ModelAttr (m : HFModel)
  | ProcessorAttr (p : HFProcessor).
Arguments ModelAttr {HFModel HFProcessor} m.
Arguments ProcessorAttr {HFModel HFProcessor} p.

Section DinoV2Model.

Variables HFModel HFProcessor PIL : Type.
(** transformers' [AutoModel.from_pretrained] and
    [AutoImageProcessor.from_pretrained]. *)
Variable AutoModel_from_pretrained : option string -> result HFModel.
Variable AutoImageProcessor_from_pretrained : option string -> result HFProcessor.
(** [processor(images=images, return_tensors='pt')['pixel_values']] and
    [model(pixel_values=...).last_hidden_state], one list of token vectors
    per image. *)
Variable processor_call : HFProcessor -> ImagesArg PIL -> result (Tensor float32).
Variable model_call : HFModel -> Tensor float32 -> result (list (list Vector)).

(** [self.<attribute>] on an instance, whose attributes are the ones
    [__init__] assigned. *)
Definition getattr (self : gmap string (DinoAttr HFModel HFProcessor))
    (attribute : string) : outcome (DinoAttr HFModel HFProcessor) :=
  match self !! attribute with
  | Some v => Returned v
  | None => Failed (AttributeError attribute)
  end.

(** DinoV2Model.__init__ (lines 35-40). *)
Definition DinoV2Model_init (model_name : option string)
  : result (gmap string (DinoAttr HFModel HFProcessor)) :=
  model ← AutoModel_from_pretrained model_name;
  processor ← AutoImageProcessor_from_pretrained model_name;
  Ok (<["processor" := ProcessorAttr processor]> (<["model" := ModelAttr model]> ∅)).

(** DinoV2Model.extract_features (lines 42-50); line 44 reads the attribute
    [procesor]. *)
Definition DinoV2Model_extract_features
    (self : gmap string (DinoAttr HFModel HFProcessor)) (images : ImagesArg PIL)
  : outcome (list Vector) :=
  match py_len images with
  | Raise e => Failed (Raised e)
  | Ok _ =>
      match getattr self "procesor" with
      | Failed e => Failed e
      | Returned (ModelAttr _) => Failed (Raised (TypeError "object is not callable"))
      | Returned (ProcessorAttr processor) =>
          match processor_call processor images with
          | Raise e => Failed (Raised e)
          | Ok pixel_values =>
              match getattr self "model" with
              | Failed e => Failed e
              | Returned (ProcessorAttr _) =>
                  Failed (Raised (TypeError "unexpected keyword argument 'pixel_values'"))
              | Returned (ModelAttr model) =>
                  lift (last_hidden_state ← model_call model pixel_values;
                        map_result (fun tokens => py_index tokens 0) last_hidden_state)
              end
          end
      end
  end.

End DinoV2Model.

(** ** Logging (setup_logging, lines 122-158) *)

(** The handlers [setup_logging] installs: a file handler on the log file
    and a console handler. *)
Inductive Handler : Type :=
  | FileHandler (log_file : string)
  | StreamHandler.

(** [f"Rank{rank}" if rank is not None else "Main"]. *)
Definition logger_name (rank : option nat) : string :=
  match rank with
  | Some r => "Rank" +:+ pretty r
  | None => "Main"
  end.

Section Logging.

(** [Path.mkdir(parents=True, exist_ok=True)] and the opening of the log
    file by [logging.FileHandler]. *)
Variable mkdir : string -> result unit.
Variable open_log : string -> result unit.

(** The registry is the [logging] module's: the loggers created so far, by
    name, with their handlers; [logging.getLogger] creates a logger without
    handlers when the name is new.  [timestamp] is the formatted clock
    reading. *)
Definition setup_logging (output_dir : string) (rank : option nat) (timestamp : string)
    (registry : gmap string (list Handler))
  : result (gmap string (list Handler) * (string * string)) :=
  let log_dir := path_join output_dir "logs" in
  mkdir log_dir;;
  let rank_suffix := match rank with
                     | Some r => "_rank" +:+ pretty r
                     | None => ""
                     end in
  let log_file :=
    path_join log_dir ("process_log_" +:+ timestamp +:+ rank_suffix +:+ ".txt") in
  let logger := logger_name rank in
  let handlers := default [] (registry !! logger) in
  match handlers with
  | [] =>
      open_log log_file;;
      Ok (<[logger := [FileHandler log_file; StreamHandler]]> registry, (logger, log_file))
  | _ :: _ => Ok (<[logger := handlers]> registry, (logger, log_file))
  end.

End Logging.

(** ** Captions of GroundingDino.predict (model_init.py, line 127)

    A caption is its list of characters; the string methods are Python's on
    ASCII text. *)

(** [c.isspace()] on an ASCII character: tab, line feed, vertical tab, form
    feed, carriage return, the four separators 28-31 and the space. *)
Definition py_isspace (c : ascii) : bool :=
  let n := nat_of_ascii c in
  ((9 <=? n) && (n <=? 13)) || ((28 <=? n) && (n <=? 32)).

(** One character of [s.lower()]: the letters A-Z move to a-z. *)
Definition lower_char (c : ascii) : ascii :=
  let n := nat_of_ascii c in
  if (65 <=? n) && (n <=? 90) then ascii_of_nat (n + 32) else c.

Definition py_lower (s : list ascii) : list ascii := map lower_char s.

Fixpoint py_lstrip (s : list ascii) : list ascii :=
  match s with
  | c :: rest => if py_isspace c then py_lstrip rest else s
  | [] => []
  end.

Definition py_rstrip (s : list ascii) : list ascii :=
  reverse (py_lstrip (reverse s)).

Definition py_strip (s : list ascii) : list ascii := py_rstrip (py_lstrip s).

(** [s.endswith(".")]. *)
Definition endswith_period (s : list ascii) : bool :=
  match reverse s with
  | c :: _ => bool_decide (c = "."%char)
  | [] => false
  end.

(** Line 127, for one caption:
    [cap.lower().strip() + "." if not cap.endswith(".") else cap.lower().strip()]. *)
Definition normalize_caption (cap : list ascii) : list ascii :=
  if negb (endswith_period cap)
  then py_strip (py_lower cap) ++ ["."%char]
  else py_strip (py_lower cap).

(** ** Views of the gathered logs

    The notions the properties of reconciliation are stated with. *)

(** The five string-valued keys of a metadata dict. *)
Inductive StrField : Type :=
  | ObjectName | DataDir | ImagePath | MaskPath | DatasetType.

Definition md_col (f : StrField) (m : Metadata) : list string :=
  match f with
  | ObjectName => md_object_name m
  | DataDir => md_data_dir m
  | ImagePath => md_image_path m
  | MaskPath => md_mask_path m
  | DatasetType => md_dataset_type m
  end.

(** Columns of a dict that may be [{}]. *)
Definition log_ids (w : option Metadata) : list Z :=
  match w with Some m => id_values (md_id m) | None => [] end.
Definition log_col (f : StrField) (w : option Metadata) : list string :=
  match w with Some m => md_col f m | None => [] end.

(** The gathered logs read in worker-rank order. *)
Definition gathered_rows (gathered : list (list (list Vector) * option Metadata))
  : list Vector := concat (map (fun w => concat (fst w)) gathered).
Definition gathered_ids (gathered : list (list (list Vector) * option Metadata))
  : list Z := concat (map (fun w => log_ids (snd w)) gathered).
Definition gathered_col (f : StrField)
    (gathered : list (list (list Vector) * option Metadata)) : list string :=
  concat (map (fun w => log_col f (snd w)) gathered).

(** The order [sorted(..., key=key)] sorts by. *)
Definition key_le {A : Type} (key : A -> Z) (a b : A) : Prop := (key a <= key b)%Z.

(** A worker's log as the shard loop leaves it when it drained at least one
    batch: a populated dict whose id column is a tensor, with as many
    feature rows and as many entries in every column as ids. *)
Definition log_wf (w : list (list Vector) * option Metadata) : Prop :=
  exists m ids,
    snd w = Some m /\ md_id m = IdTensor ids /\
    length (concat (fst w)) = length ids /\
    forall f, length (md_col f m) = length ids.

(** The ids of the samples at the given dataset indices. *)
Definition ids_at (dataset : list Sample) (indices : list nat) : list Z :=
  omap (fun i => s_id <$> dataset !! i) indices.

(** The state of the shard loop after the batches drawn so far, whose
    samples have the ids [ids]. *)
Definition acc_wf (acc : list (list Vector) * option Metadata) (ids : list Z) : Prop :=
  log_ids (snd acc) = ids /\
  length (concat (fst acc)) = length ids /\
  (forall f, length (log_col f (snd acc)) = length ids) /\
  (snd acc = None \/ exists m v, snd acc = Some m /\ md_id m = IdTensor v).

(** The decoded image that lines 346-347 obtain from a mask path:
    [Image.open(path).convert('L')] resized by [preprocess_image] to
    [target_size[0]]. *)
Definition decoded_mask (config : Config)
    (image_open_L : string -> result GrayImage)
    (preprocess_image : GrayImage -> Z -> result GrayImage)
    (path : string) (g : GrayImage) : Prop :=
  exists raw target rest,
    image_open_L path = Ok raw /\
    target_size (data config) = Some (target, rest) /\
    preprocess_image raw target = Ok g.

(** A decoded image of height [H] and width [W]. *)
Definition gray_fits (H W : nat) (g : GrayImage) : Prop :=
  gi_height g = H /\ gi_width g = W /\ length (gi_pixels g) = H * W.

(** The string-valued field [f] of a dataset item. *)
Definition sample_field (f : StrField) (s : Sample) : string :=
  match f with
  | ObjectName => s_object_name s
  | DataDir => s_data_dir s
  | ImagePath => s_image_path s
  | MaskPath => s_mask_path s
  | DatasetType => s_dataset_type s
  end.

(** The field [f] of the samples at the given dataset indices. *)
Definition fields_at (f : StrField) (dataset : list Sample) (indices : list nat)
  : list string :=
  omap (fun i => sample_field f <$> dataset !! i) indices.

(** The order of the rows after canonicalization: by id, rows of equal id
    by their position in the gathered order. *)
Definition row_order (p q : nat * Z) : Prop :=
  (snd p < snd q)%Z \/ (snd p = snd q /\ fst p < fst q).

(** ** Concrete worlds for the examples

    A one-pixel world: every sample is a 1x1x1 image whose pixel is its id,
    every mask file decodes to one white pixel, and the encoder stub returns
    the first pixel of each masked image of the batch as a feature vector
    of dimension one, so that the vector produced for the sample of id [k]
    is [[k]]. *)

Definition ex_sample (i : Z) : Sample :=
  {| s_image := mkTensor [1; 1; 1] [f32_of_Z i];
     s_id := i;
     s_object_name := "obj" +:+ pretty i;
     s_data_dir := "data";
     s_image_path := "img" +:+ pretty i;
     s_mask_path := "mask" +:+ pretty i;
     s_dataset_type := "train" |}.

Definition ex_model_config (n : option string) : ModelConfig :=
  {| name := n; type_model := None; pretrained_path := None; model_config_path := None |}.

Definition ex_config (dist : bool) (workers : nat) (bs : Z) : Config :=
  {| models := {[ "CLIP" := ex_model_config (Some "ViT-B-32") ]};
     faiss := {| index_type := "Flat"; dimension := 1; use_gpu := false; device := 0;
                 metric := "l2"; nlist := None; M := None; nbits := None; nprobe := None |};
     data := {| data_dir := "data"; batch_size := bs; num_workers := 0;
                target_size := Some (1, 1)%Z |};
     output_dir := "out";
     distributed := dist;
     world_size := workers;
     seed := 42 |}.

Definition ex_makedirs (_ : string) : result unit := Ok tt.
Definition ex_save_image (_ : Tensor float32) (_ : string) : result unit := Ok tt.
Definition ex_save_image_fails (_ : Tensor float32) (_ : string) : result unit :=
  Raise (OSError "No space left on device").
Definition ex_encoder (t : Tensor float32) : result (list Vector) :=
  match shape t with
  | [] => Raise (RuntimeError "expected a batch of images")
  | n :: rest =>
      Ok (map (fun i => [default f32_zero (elems t !! (i * numel rest))]) (seq 0 n))
  end.
Definition ex_image_open (_ : string) : result GrayImage :=
  Ok {| gi_height := 1; gi_width := 1; gi_pixels := [255%Z] |}.
Definition ex_preprocess (g : GrayImage) (_ : Z) : result GrayImage := Ok g.

Definition ex_global_result_set (dist : bool) (workers : nat) (bs : Z)
    (ids : list Z) (rank : nat) : result (list Vector * option Metadata) :=
  global_result_set (ex_config dist workers bs) (map ex_sample ids)
    ex_makedirs ex_save_image ex_encoder ex_image_open ex_preprocess rank.

Definition ex_run (dist : bool) (workers : nat) (bs : Z) (ids : list Z) (rank : nat)
  : Artifacts * result unit :=
  run_extraction (ex_config dist workers bs) (map ex_sample ids)
    ex_makedirs ex_save_image ex_encoder ex_image_open ex_preprocess rank "CLIP".

(** The feature vector the one-pixel world produces for the sample of id [k]. *)
Definition ex_vector (k : Z) : Vector := [f32_of_Z k].

(** The log of a worker that drained one batch holding the samples of the
    given ids. *)
Definition ex_worker_log (ids : list Z) : list (list Vector) * option Metadata :=
  ([map ex_vector ids],
   Some {| md_id := IdTensor ids;
           md_object_name := map (fun i => "obj" +:+ pretty i) ids;
           md_data_dir := map (fun _ => "data") ids;
           md_image_path := map (fun i => "img" +:+ pretty i) ids;
           md_mask_path := map (fun i => "mask" +:+ pretty i) ids;
           md_dataset_type := map (fun _ => "train") ids |}).

(** Image and mask batches of the one-pixel world: [n] images of shape
    (1, 1, 1) with pixels 1, 2, ..., and [n] white masks. *)
Definition ex_images (n : nat) : Tensor float32 :=
  mkTensor [n; 1; 1; 1] (map (fun i => f32_of_Z (Z.of_nat (S i))) (seq 0 n)).
Definition ex_masks (n : nat) : Tensor float32 :=
  mkTensor [n; 1; 1; 1] (replicate n f32_one).

(** A mask file that cannot be opened among readable ones. *)
Definition ex_image_open_missing (path : string) : result GrayImage :=
  if String.eqb path "mask2" then Raise (OSError "No such file or directory")
  else ex_image_open path.

(** A configuration whose CLIP entry carries the name "None" and that has
    no DINOV2 entry. *)
Definition ex_config_no_dinov2 (dist : bool) (workers : nat) : Config :=
  {| models := {[ "CLIP" := ex_model_config (Some "None") ]};
     faiss := faiss (ex_config dist workers 1);
     data := data (ex_config dist workers 1);
     output_dir := "out";
     distributed := dist;
     world_size := workers;
     seed := 42 |}.

(** The CLIP class wired as line 308 of extraction.py calls it: the batch
    tensor itself is the [images] argument. *)
Definition ex_clip_encoder (batch : Tensor float32) : result (list Vector) :=
  CLIPModel_extract_features unit (fun _ => Raise (TypeError "not an image"))
    ex_encoder (ImageBatch batch).

(** Loaders of the encoder classes that return placeholders. *)
Definition ex_from_pretrained (_ : option string) : result unit := Ok tt.

(* ===================================================================== *)
(** * Part II: properties                                                 *)
(* ===================================================================== *)

(** ** Model selection *)

Lemma py_ne_str_false (x : option string) (s : string) :
  py_ne_str x s = false <-> x = Some s.
Proof.
  destruct x as [x'|]; simpl.
  - destruct (String.eqb_spec x' s) as [->|Hne]; simpl; split; try done.
    intros [= ->]. done.
  - split; done.
Qed.

(** C10: [main] picks "DINOV2" exactly when the configured CLIP model name
    is the string "None" and "CLIP" in every other case; in particular a
    name that is absent from the JSON entry, or null there, is the value
    [None], which differs from that string, and gives "CLIP". *)
Theorem main_model_type_selection (config : Config) (clip : ModelConfig)
    (Hclip : models config !! "CLIP" = Some clip) :
  (select_model_type config = Ok "DINOV2" <-> name clip = Some "None") /\
  (name clip <> Some "None" -> select_model_type config = Ok "CLIP") /\
  (forall kwargs : gmap string (option string),
      ModelConfig_init kwargs = Ok clip ->
      kwargs !! "name" = None \/ kwargs !! "name" = Some None ->
      select_model_type config = Ok "CLIP").
Proof.
  assert (Hsel : select_model_type config =
                 Ok (if py_ne_str (name clip) "None" then "CLIP" else "DINOV2")).
  { unfold select_model_type, dict_get. rewrite Hclip. reflexivity. }
  assert (Hne : name clip <> Some "None" -> select_model_type config = Ok "CLIP").
  { intros Hn. rewrite Hsel.
    destruct (py_ne_str (name clip) "None") eqn:E; [done|].
    apply py_ne_str_false in E. done. }
  split; [|split].
  - rewrite Hsel. split.
    + destruct (py_ne_str (name clip) "None") eqn:E; [discriminate|].
      intros _. by apply py_ne_str_false.
    + intros Hn. apply py_ne_str_false in Hn. by rewrite Hn.
  - exact Hne.
  - intros kwargs Hinit Habsent. apply Hne.
    unfold ModelConfig_init in Hinit.
    destruct (forallb _ _); [|discriminate].
    injection Hinit as <-. simpl.
    destruct Habsent as [-> | ->]; simpl; discriminate.
Qed.

Lemma main_model_type_selection_witness :
  select_model_type (ex_config false 1 1) = Ok "CLIP".
Proof.
  apply (main_model_type_selection (ex_config false 1 1)
           (ex_model_config (Some "ViT-B-32"))).
  - reflexivity.
  - discriminate.
Defined.

(** ** Tensors: row-major layout and broadcasting *)

Section TensorFacts.
Context {A : Type}.
Implicit Types (d : list A) (src dst idx : list nat).

Lemma chunks_length k inner d : length (chunks k inner d) = k.
Proof. revert d. induction k as [|k IH]; intros d; simpl; [done|]. by rewrite IH. Qed.

Lemma chunks_lookup k inner d i :
  i < k -> chunks k inner d !! i = Some (take inner (drop (i * inner) d)).
Proof.
  revert d i. induction k as [|k IH]; intros d i Hi; [lia|].
  destruct i as [|i]; simpl.
  - done.
  - rewrite IH by lia. by rewrite drop_drop.
Qed.

Lemma chunks_Forall_length k inner d :
  length d = k * inner -> Forall (fun c => length c = inner) (chunks k inner d).
Proof.
  revert d. induction k as [|k IH]; intros d Hd; simpl; constructor.
  - rewrite length_take. lia.
  - apply IH. rewrite length_drop. lia.
Qed.

Lemma concat_chunks k inner d :
  length d = k * inner -> concat (chunks k inner d) = d.
Proof.
  revert d. induction k as [|k IH]; intros d Hd; simpl.
  - destruct d; [done|]. simpl in Hd. lia.
  - rewrite IH by (rewrite length_drop; lia). apply take_drop.
Qed.

Lemma lookup_concat_uniform (ls : list (list A)) m i j :
  Forall (fun l => length l = m) ls -> j < m ->
  concat ls !! (i * m + j) = ls !! i ≫= (.!! j).
Proof.
  intros Hall Hj. revert i. induction Hall as [|l ls Hl _ IH]; intros i; simpl.
  - done.
  - destruct i as [|i]; simpl.
    + rewrite lookup_app_l by lia. done.
    + rewrite lookup_app_r by lia. replace (m + i * m + j - length l) with (i * m + j) by lia.
      apply IH.
Qed.

Lemma ravel_lt s idx : valid_index s idx -> ravel s idx < numel s.
Proof.
  unfold valid_index. intros H. induction H as [|i n idx s Hi _ IH]; simpl; [lia|].
  fold (numel s). nia.
Qed.


Lemma length_concat_uniform (ls : list (list A)) m :
  Forall (fun l => length l = m) ls -> length (concat ls) = length ls * m.
Proof.
  induction 1 as [|l ls Hl _ IH]; simpl; [done|]. rewrite length_app. lia.
Qed.

Lemma clip_index_valid src dst idx :
  bcast_compat src dst -> valid_index dst idx -> valid_index src (clip_index src idx).
Proof.
  unfold bcast_compat, valid_index, clip_index. intros Hc. revert idx.
  induction Hc as [|a n src dst Ha _ IH]; intros idx Hv.
  - inversion Hv; subst. constructor.
  - inversion Hv as [|i ? idx' ? Hi Hv']; subst. simpl. constructor.
    + destruct (Nat.eqb_spec a 1); lia.
    + by apply IH.
Qed.

Lemma bcast_data_length src dst d :
  bcast_compat src dst -> length d = numel src ->
  length (bcast_data src dst d) = numel dst.
Proof.
  unfold bcast_compat. intros Hc. revert d.
  induction Hc as [|a n src dst Ha _ IH]; intros d Hd; simpl in *; [done|].
  fold (numel src) in *. fold (numel dst).
  destruct (Nat.eqb_spec a n) as [->|Hne].
  - rewrite (length_concat_uniform _ (numel dst)).
    + by rewrite length_map, chunks_length.
    + apply Forall_fmap. eapply Forall_impl; [by apply chunks_Forall_length|].
      simpl. intros c Hc'. by apply IH.
  - destruct Ha as [?| ->]; [done|].
    rewrite (length_concat_uniform _ (numel dst)).
    + by rewrite length_replicate.
    + apply Forall_replicate. apply IH. lia.
Qed.

Lemma bcast_data_lookup src dst d idx :
  bcast_compat src dst -> length d = numel src -> valid_index dst idx ->
  bcast_data src dst d !! ravel dst idx = d !! ravel src (clip_index src idx).
Proof.
  intros Hc. revert d idx.
  induction Hc as [|a n src dst Ha Hc IH]; intros d idx Hd Hv.
  - inversion Hv; subst. done.
  - inversion Hv as [|i ? idx' ? Hi Hv']; subst. simpl in Hd |- *.
    fold (numel src) in *. fold (numel dst).
    pose proof (ravel_lt _ _ Hv') as Hr.
    pose proof (ravel_lt _ _ (clip_index_valid _ _ _ Hc Hv')) as Hq.
    fold (clip_index src idx').
    destruct (Nat.eqb_spec a n) as [->|Hne].
    + rewrite (lookup_concat_uniform _ (numel dst)); [|
        apply Forall_fmap; eapply Forall_impl; [by apply chunks_Forall_length|];
        simpl; intros c Hc'; by apply bcast_data_length |done].
      rewrite list_lookup_fmap, chunks_lookup by done. simpl.
      rewrite IH; [| rewrite length_take, length_drop; nia | done].
      rewrite lookup_take_lt by done. rewrite lookup_drop.
      destruct (Nat.eqb_spec n 1) as [->|?]; [|done].
      by replace i with 0 by lia.
    + destruct Ha as [?| ->]; [done|]. simpl.
      rewrite (lookup_concat_uniform _ (numel dst)); [|
        apply Forall_replicate; apply bcast_data_length; [done|lia] | done].
      rewrite lookup_replicate_2 by done. simpl.
      apply IH; [lia|done].
Qed.

Lemma bcast_data_id sh d : length d = numel sh -> bcast_data sh sh d = d.
Proof.
  revert d. induction sh as [|n sh IH]; intros d Hd; simpl in *; [done|].
  fold (numel sh) in *. rewrite Nat.eqb_refl.
  rewrite <- (concat_chunks n (numel sh) d) at 2 by done.
  f_equal. pose proof (chunks_Forall_length n (numel sh) d Hd) as Hall.
  induction Hall as [|c cs Hc' _ IHcs]; simpl; [done|].
  by rewrite IH, IHcs.
Qed.
End TensorFacts.


(** ** Mask composition *)

Lemma broadcast_shapes_refl sh : broadcast_shapes sh sh = Some sh.
Proof. induction sh as [|n sh IH]; simpl; [done|]. rewrite IH. simpl. by rewrite Nat.eqb_refl. Qed.

(** Lines 297-302 on a mask batch of rank 4, then of rank 3: in both cases
    the product of the images with the binarized mask expanded over the
    channels. *)
Lemma masked_images_of_rank4 (images masks : Tensor float32) B B' C H W H' W' :
  shape images = [B; C; H; W] -> shape masks = [B'; 1; H'; W'] ->
  masked_images_of images masks =
    tensor_mul images
      (mkTensor [B'; C; H'; W']
         (bcast_data [B'; 1; H'; W'] [B'; C; H'; W']
            (map (binarize f32_half) (elems masks)))).
Proof.
  intros Hi Hm. unfold masked_images_of, _prepare_binary_mask, dim, tmap, size, py_index.
  simpl. rewrite Hm, Hi. simpl.
  unfold expand_channels. simpl.
  rewrite orb_true_r. reflexivity.
Qed.

Lemma masked_images_of_rank3 (images masks : Tensor float32) B B' C H W H' W' :
  shape images = [B; C; H; W] -> shape masks = [B'; H'; W'] ->
  masked_images_of images masks =
    tensor_mul images
      (mkTensor [B'; C; H'; W']
         (bcast_data [B'; 1; H'; W'] [B'; C; H'; W']
            (map (binarize f32_half) (elems masks)))).
Proof.
  intros Hi Hm. unfold masked_images_of, _prepare_binary_mask, dim, tmap, size, py_index.
  simpl. rewrite Hm, Hi. simpl.
  unfold unsqueeze1. simpl.
  unfold expand_channels. simpl.
  rewrite orb_true_r. reflexivity.
Qed.

Lemma mask_offset_unsqueeze B H W b h w :
  ravel [B; 1; H; W] [b; 0; h; w] = ravel [B; H; W] [b; h; w].
Proof. simpl. lia. Qed.

Lemma valid_index4 B C H W b c h w :
  b < B -> c < C -> h < H -> w < W -> valid_index [B; C; H; W] [b; c; h; w].
Proof. intros. repeat constructor; done. Qed.

Lemma masked_pixel (images : Tensor float32) (mask_elems : list float32) B C H W b c h w :
  tensor_wf images -> shape images = [B; C; H; W] ->
  length mask_elems = numel [B; H; W] ->
  b < B -> c < C -> h < H -> w < W ->
  exists out x m,
    tensor_mul images
      (mkTensor [B; C; H; W]
         (bcast_data [B; 1; H; W] [B; C; H; W] (map (binarize f32_half) mask_elems))) = Ok out /\
    shape out = [B; C; H; W] /\
    tget images [b; c; h; w] = Some x /\
    mask_elems !! ravel [B; H; W] [b; h; w] = Some m /\
    tget out [b; c; h; w] = Some (f32_mul x (binarize f32_half m)).
Proof.
  intros Hwf Hi Hm Hb Hc Hh Hw.
  assert (Hv : valid_index [B; C; H; W] [b; c; h; w]) by by apply valid_index4.
  assert (Hcompat : bcast_compat [B; 1; H; W] [B; C; H; W]).
  { unfold bcast_compat. constructor; [by left|]. constructor; [by right|].
    constructor; [by left|]. constructor; [by left|]. constructor. }
  assert (Hm4 : length (map (binarize f32_half) mask_elems) = numel [B; 1; H; W]).
  { rewrite length_map, Hm. simpl. lia. }
  pose proof (ravel_lt _ _ Hv) as Hlt.
  destruct (lookup_lt_is_Some_2 (elems images) (ravel [B; C; H; W] [b; c; h; w])) as [x Hx].
  { unfold tensor_wf in Hwf. rewrite Hwf, Hi. done. }
  assert (Hv3 : valid_index [B; H; W] [b; h; w]) by (repeat constructor; done).
  destruct (lookup_lt_is_Some_2 mask_elems (ravel [B; H; W] [b; h; w])) as [m Hmm].
  { rewrite Hm. by apply ravel_lt. }
  unfold tensor_mul, dim. rewrite Hi. cbn [shape elems length Nat.max].
  change (pad_shape 4 [B; C; H; W]) with [B; C; H; W].
  rewrite broadcast_shapes_refl.
  eexists _, x, m. split; [reflexivity|]. split; [reflexivity|].
  split; [unfold tget; by rewrite Hi|]. split; [done|].
  unfold tget. cbn [shape elems].
  rewrite lookup_zip_with.
  rewrite (bcast_data_id _ (elems images)) by (unfold tensor_wf in Hwf; by rewrite Hwf, Hi).
  rewrite (bcast_data_id [B; C; H; W]) by (by apply bcast_data_length).
  rewrite Hx. cbn [mbind option_bind].
  rewrite bcast_data_lookup by done.
  assert (Hclip : ravel [B; 1; H; W] (clip_index [B; 1; H; W] [b; c; h; w])
                  = ravel [B; H; W] [b; h; w]).
  { unfold clip_index. cbn [zip_with]. rewrite <- mask_offset_unsqueeze.
    destruct (Nat.eqb_spec B 1), (Nat.eqb_spec H 1), (Nat.eqb_spec W 1);
      cbn [Nat.eqb]; repeat f_equal; lia. }
  rewrite Hclip, list_lookup_fmap, Hmm. reflexivity.
Qed.

Lemma broadcast_shapes_batch (a b : nat) (sh : list nat) :
  broadcast_shapes (a :: sh) (b :: sh) =
    if a =? b then Some (a :: sh)
    else if a =? 1 then Some (b :: sh)
    else if b =? 1 then Some (a :: sh)
    else None.
Proof.
  change (broadcast_shapes (a :: sh) (b :: sh)) with
    (rest ← broadcast_shapes sh sh;
     if a =? b then Some (a :: rest)
     else if a =? 1 then Some (b :: rest)
     else if b =? 1 then Some (a :: rest)
     else None).
  by rewrite broadcast_shapes_refl.
Qed.

(** C5: binarization is elementwise and strict (an element becomes 1
    exactly when it is greater than the threshold, 0 otherwise), so that
    [0.2, 0.6, 0.5, 0.9] at threshold 0.5 gives [0, 1, 0, 1]; and for images
    of shape (B, C, H, W) with masks of shape (B, 1, H, W) or (B, H, W) the
    masked images have the shape of the images, their element at
    (b, c, h, w) being the image's element times the binarized mask element
    at (b, h, w), whatever the channel c. *)
Theorem mask_binarize_and_compose (images masks : Tensor float32) (B C H W : nat)
    (Hwf_images : tensor_wf images) (Hwf_masks : tensor_wf masks)
    (Himages : shape images = [B; C; H; W])
    (Hmasks : shape masks = [B; 1; H; W] \/ shape masks = [B; H; W]) :
  (forall (mask : Tensor float32) (threshold : float32),
      shape (_prepare_binary_mask mask threshold) = shape mask /\
      forall i x, elems mask !! i = Some x ->
        elems (_prepare_binary_mask mask threshold) !! i
        = Some (if f32_ltb threshold x then f32_one else f32_zero)) /\
  elems (_prepare_binary_mask (mkTensor [4] (map f32_tenths [2; 6; 5; 9]%Z)) f32_half)
    = [f32_zero; f32_one; f32_zero; f32_one] /\
  exists out,
    masked_images_of images masks = Ok out /\
    shape out = shape images /\
    forall b c h w, b < B -> c < C -> h < H -> w < W ->
      exists x m,
        tget images [b; c; h; w] = Some x /\
        elems masks !! ravel [B; H; W] [b; h; w] = Some m /\
        tget out [b; c; h; w]
        = Some (f32_mul x (if f32_ltb f32_half m then f32_one else f32_zero)).
Proof.
  split; [|split].
  - intros mask threshold. split; [reflexivity|].
    intros i x Hx. unfold _prepare_binary_mask, tmap. cbn [elems].
    by rewrite list_lookup_fmap, Hx.
  - vm_compute. reflexivity.
  - assert (Hlen : length (elems masks) = numel [B; H; W]).
    { unfold tensor_wf in Hwf_masks. rewrite Hwf_masks.
      destruct Hmasks as [-> | ->]; simpl; lia. }
    assert (Heq : masked_images_of images masks =
                  tensor_mul images
                    (mkTensor [B; C; H; W]
                       (bcast_data [B; 1; H; W] [B; C; H; W]
                          (map (binarize f32_half) (elems masks))))).
    { destruct Hmasks as [Hm | Hm].
      - by apply (masked_images_of_rank4 _ _ B B C H W).
      - by apply (masked_images_of_rank3 _ _ B B C H W). }
    rewrite Heq.
    assert (Hout : exists out,
               tensor_mul images
                 (mkTensor [B; C; H; W]
                    (bcast_data [B; 1; H; W] [B; C; H; W]
                       (map (binarize f32_half) (elems masks)))) = Ok out /\
               shape out = [B; C; H; W]).
    { unfold tensor_mul, dim. rewrite Himages. cbn [shape elems length Nat.max].
      change (pad_shape 4 [B; C; H; W]) with [B; C; H; W].
      rewrite broadcast_shapes_refl. eexists. split; reflexivity. }
    destruct Hout as (out & Hout & Hshape).
    exists out. split; [done|]. split; [by rewrite Himages|].
    intros b c h w Hb Hc Hh Hw.
    destruct (masked_pixel images (elems masks) B C H W b c h w)
      as (out' & x & m & Hout' & _ & Hx & Hm & Hget); try done.
    rewrite Hout in Hout'. injection Hout' as <-.
    exists x, m. done.
Qed.

Lemma mask_binarize_and_compose_witness :
  exists out,
    masked_images_of (ex_images 2) (ex_masks 2) = Ok out /\
    shape out = shape (ex_images 2).
Proof.
  destruct (mask_binarize_and_compose (ex_images 2) (ex_masks 2) 2 1 1 1)
    as (_ & _ & out & Hout & Hshape & _).
  - reflexivity.
  - reflexivity.
  - reflexivity.
  - left. reflexivity.
  - exists out. split; assumption.
Defined.

Lemma clip_index_batch (B C H W b c h w : nat) :
  c < C -> h < H -> w < W ->
  clip_index [B; C; H; W] [b; c; h; w] = [if B =? 1 then 0 else b; c; h; w].
Proof.
  intros Hc Hh Hw. unfold clip_index. cbn [zip_with].
  destruct (Nat.eqb_spec C 1), (Nat.eqb_spec H 1), (Nat.eqb_spec W 1);
    repeat f_equal; lia.
Qed.

(** One element of the product of lines 300-302 when the batch sizes [B]
    of the images and [B'] of the masks broadcast to [Bo]: an operand whose
    batch size is 1 is read at its only slice. *)
Lemma masked_pixel_broadcast (images : Tensor float32) (mask_elems : list float32)
    B B' Bo C H W b c h w :
  tensor_wf images -> shape images = [B; C; H; W] ->
  length mask_elems = numel [B'; H; W] ->
  (B = Bo \/ B = 1) -> (B' = Bo \/ B' = 1) ->
  broadcast_shapes [B; C; H; W] [B'; C; H; W] = Some [Bo; C; H; W] ->
  b < Bo -> c < C -> h < H -> w < W ->
  exists out x m,
    tensor_mul images
      (mkTensor [B'; C; H; W]
         (bcast_data [B'; 1; H; W] [B'; C; H; W] (map (binarize f32_half) mask_elems)))
    = Ok out /\
    shape out = [Bo; C; H; W] /\
    tget images [if B =? 1 then 0 else b; c; h; w] = Some x /\
    mask_elems !! ravel [B'; H; W] [if B' =? 1 then 0 else b; h; w] = Some m /\
    tget out [b; c; h; w] = Some (f32_mul x (binarize f32_half m)).
Proof.
  intros Hwf Hi Hm HB HB' Hbs Hb Hc Hh Hw.
  set (bi := if B =? 1 then 0 else b). set (bm := if B' =? 1 then 0 else b).
  assert (Hbi : bi < B).
  { unfold bi. destruct (Nat.eqb_spec B 1); lia. }
  assert (Hbm : bm < B').
  { unfold bm. destruct (Nat.eqb_spec B' 1); lia. }
  assert (Hv : valid_index [Bo; C; H; W] [b; c; h; w]) by by apply valid_index4.
  assert (Hvi : valid_index [B; C; H; W] [bi; c; h; w]) by by apply valid_index4.
  assert (Hvm : valid_index [B'; C; H; W] [bm; c; h; w]) by by apply valid_index4.
  assert (Hci : bcast_compat [B; C; H; W] [Bo; C; H; W]).
  { unfold bcast_compat. constructor; [done|]. repeat (constructor; [by left|]).
    constructor. }
  assert (Hcm : bcast_compat [B'; C; H; W] [Bo; C; H; W]).
  { unfold bcast_compat. constructor; [done|]. repeat (constructor; [by left|]).
    constructor. }
  assert (Hc1 : bcast_compat [B'; 1; H; W] [B'; C; H; W]).
  { unfold bcast_compat. constructor; [by left|]. constructor; [by right|].
    constructor; [by left|]. constructor; [by left|]. constructor. }
  assert (Hm4 : length (map (binarize f32_half) mask_elems) = numel [B'; 1; H; W]).
  { rewrite length_map, Hm. simpl. lia. }
  assert (Hlen_images : length (elems images) = numel [B; C; H; W]).
  { unfold tensor_wf in Hwf. by rewrite Hwf, Hi. }
  destruct (lookup_lt_is_Some_2 (elems images) (ravel [B; C; H; W] [bi; c; h; w]))
    as [x Hx].
  { rewrite Hlen_images. by apply ravel_lt. }
  destruct (lookup_lt_is_Some_2 mask_elems (ravel [B'; H; W] [bm; h; w])) as [m Hmm].
  { rewrite Hm. apply ravel_lt. repeat constructor; done. }
  unfold tensor_mul, dim. rewrite Hi. cbn [shape elems length Nat.max].
  change (pad_shape 4 [B; C; H; W]) with [B; C; H; W].
  change (pad_shape 4 [B'; C; H; W]) with [B'; C; H; W].
  rewrite Hbs.
  eexists _, x, m. split; [reflexivity|]. split; [reflexivity|].
  split; [unfold tget; by rewrite Hi|]. split; [done|].
  unfold tget. cbn [shape elems].
  rewrite lookup_zip_with.
  rewrite (bcast_data_lookup [B; C; H; W]) by done.
  rewrite (clip_index_batch B C H W b c h w) by done.
  fold bi. rewrite Hx. cbn [mbind option_bind].
  rewrite (bcast_data_lookup [B'; C; H; W]);
    [|done|by apply bcast_data_length|done].
  rewrite (clip_index_batch B' C H W b c h w) by done.
  fold bm.
  rewrite bcast_data_lookup by done.
  assert (Hclip : ravel [B'; 1; H; W] (clip_index [B'; 1; H; W] [bm; c; h; w])
                  = ravel [B'; H; W] [bm; h; w]).
  { unfold clip_index. cbn [zip_with]. rewrite <- mask_offset_unsqueeze.
    destruct (Nat.eqb_spec B' 1), (Nat.eqb_spec H 1), (Nat.eqb_spec W 1);
      cbn [Nat.eqb]; repeat f_equal; lia. }
  rewrite Hclip, list_lookup_fmap, Hmm. reflexivity.
Qed.

(** Mask composition on two images against a single mask: no error, the
    one mask is applied to both images. *)
Lemma batch_size_mismatch_accepted :
  size (ex_images 2) 0 = Ok 2 /\
  size (ex_masks 1) 0 = Ok 1 /\
  masked_images_of (ex_images 2) (ex_masks 1)
  = Ok (mkTensor [2; 1; 1; 1] [f32_of_Z 1; f32_of_Z 2]).
Proof. vm_compute. repeat split; reflexivity. Qed.

(** C6, as the code has it: nothing compares the two batch sizes; when they
    differ and neither is 1 the elementwise product raises torch's
    [RuntimeError], and when one of them is 1 that operand is broadcast
    along axis 0: the masked images have the other batch size, and their
    element at (b, c, h, w) is the image element times the binarized mask
    element at the same place, the operand of batch size 1 being read at its
    slice 0 for every b. *)
Theorem batch_size_mismatch_broadcasts (images masks : Tensor float32)
    (B B' C H W : nat)
    (Himages : shape images = [B; C; H; W])
    (Hmasks : shape masks = [B'; 1; H; W] \/ shape masks = [B'; H; W])
    (Hdiffer : B <> B') :
  (B <> 1 /\ B' <> 1 ->
     exists msg, masked_images_of images masks = Raise (RuntimeError msg)) /\
  (B = 1 \/ B' = 1 ->
     exists out,
       masked_images_of images masks = Ok out /\
       shape out = [if B =? 1 then B' else B; C; H; W] /\
       (tensor_wf images -> tensor_wf masks ->
        forall b c h w,
          b < (if B =? 1 then B' else B) -> c < C -> h < H -> w < W ->
          exists x m,
            tget images [if B =? 1 then 0 else b; c; h; w] = Some x /\
            elems masks !! ravel [B'; H; W] [if B' =? 1 then 0 else b; h; w] = Some m /\
            tget out [b; c; h; w]
            = Some (f32_mul x (if f32_ltb f32_half m then f32_one else f32_zero)))).
Proof.
  assert (Heq : masked_images_of images masks =
                tensor_mul images
                  (mkTensor [B'; C; H; W]
                     (bcast_data [B'; 1; H; W] [B'; C; H; W]
                        (map (binarize f32_half) (elems masks))))).
  { destruct Hmasks as [Hm | Hm].
    - by apply (masked_images_of_rank4 _ _ B B' C H W).
    - by apply (masked_images_of_rank3 _ _ B B' C H W). }
  rewrite Heq.
  assert (Hbs : broadcast_shapes [B; C; H; W] [B'; C; H; W]
                = if B =? 1 then Some [B'; C; H; W]
                  else if B' =? 1 then Some [B; C; H; W] else None).
  { rewrite broadcast_shapes_batch. by destruct (Nat.eqb_spec B B'). }
  split.
  - intros [HB HB']. unfold tensor_mul, dim. rewrite Himages.
    cbn [shape elems length Nat.max].
    change (pad_shape 4 [B; C; H; W]) with [B; C; H; W].
    change (pad_shape 4 [B'; C; H; W]) with [B'; C; H; W].
    rewrite Hbs.
    destruct (Nat.eqb_spec B 1); [done|]. destruct (Nat.eqb_spec B' 1); [done|].
    by eexists.
  - intros Hone.
    set (Bo := if B =? 1 then B' else B).
    assert (HBo : broadcast_shapes [B; C; H; W] [B'; C; H; W] = Some [Bo; C; H; W]).
    { rewrite Hbs. unfold Bo. destruct (Nat.eqb_spec B 1); [done|].
      destruct (Nat.eqb_spec B' 1); [done|]. lia. }
    assert (HB : B = Bo \/ B = 1).
    { unfold Bo. destruct (Nat.eqb_spec B 1); [by right|by left]. }
    assert (HB' : B' = Bo \/ B' = 1).
    { unfold Bo. destruct (Nat.eqb_spec B 1); [by left|]. right. lia. }
    assert (Hout : exists out,
               tensor_mul images
                 (mkTensor [B'; C; H; W]
                    (bcast_data [B'; 1; H; W] [B'; C; H; W]
                       (map (binarize f32_half) (elems masks)))) = Ok out /\
               shape out = [Bo; C; H; W]).
    { unfold tensor_mul, dim. rewrite Himages. cbn [shape elems length Nat.max].
      change (pad_shape 4 [B; C; H; W]) with [B; C; H; W].
      change (pad_shape 4 [B'; C; H; W]) with [B'; C; H; W].
      rewrite HBo. eexists. split; reflexivity. }
    destruct Hout as (out & Hout & Hshape).
    exists out. split; [done|]. split; [done|].
    intros Hwf_images Hwf_masks b c h w Hb Hc Hh Hw.
    assert (Hlen : length (elems masks) = numel [B'; H; W]).
    { unfold tensor_wf in Hwf_masks. rewrite Hwf_masks.
      destruct Hmasks as [-> | ->]; simpl; lia. }
    destruct (masked_pixel_broadcast images (elems masks) B B' Bo C H W b c h w)
      as (out' & x & m & Hout' & _ & Hx & Hm & Hget); try done.
    rewrite Hout in Hout'. injection Hout' as <-.
    exists x, m. done.
Qed.

Lemma batch_size_mismatch_broadcasts_witness :
  (exists msg, masked_images_of (ex_images 2) (ex_masks 3) = Raise (RuntimeError msg)) /\
  (exists out,
      masked_images_of (ex_images 1) (ex_masks 3) = Ok out /\
      shape out = [3; 1; 1; 1] /\
      tget out [2; 0; 0; 0] = Some (f32_of_Z 1)).
Proof.
  split.
  - apply (batch_size_mismatch_broadcasts (ex_images 2) (ex_masks 3) 2 3 1 1 1).
    + reflexivity.
    + left. reflexivity.
    + lia.
    + lia.
  - destruct (batch_size_mismatch_broadcasts (ex_images 1) (ex_masks 3) 1 3 1 1 1)
      as [_ Hbroadcast].
    + reflexivity.
    + left. reflexivity.
    + lia.
    + destruct Hbroadcast as (out & Hout & Hshape & Hvalues); [by left|].
      exists out. split; [exact Hout|]. split; [exact Hshape|].
      destruct (Hvalues eq_refl eq_refl 2 0 0 0) as (x & m & Hx & Hm & Hget);
        [simpl; lia..|].
      rewrite Hget. vm_compute in Hx, Hm.
      injection Hx as <-. injection Hm as <-. vm_compute. reflexivity.
Defined.

(** ** Diagnostic persistence *)

(** A closed run: the encoder would return features for the masked images,
    but saving the first sample image fails and [extract_features] raises. *)
Lemma sample_image_failure_is_raised :
  (exists masked,
      masked_images_of (ex_images 2) (ex_masks 2) = Ok masked /\
      is_ok (ex_encoder masked) = true) /\
  extract_features (ex_config false 1 2) ex_makedirs ex_save_image_fails ex_encoder
    (ex_images 2) (ex_masks 2)
  = Raise (OSError "No space left on device").
Proof.
  split.
  - eexists. split; vm_compute; reflexivity.
  - vm_compute. reflexivity.
Qed.

(** C7, as the code has it: nothing catches a failure of
    [save_sample_images]; it leaves [extract_features] as the same exception,
    so the batch returns features only when the sample images were saved. *)
Theorem sample_image_failure_propagates (config : Config)
    (os_makedirs : string -> result unit)
    (save_image : Tensor float32 -> string -> result unit)
    (base_model_extract_features : Tensor float32 -> result (list Vector))
    (images masks masked : Tensor float32)
    (Hmasked : masked_images_of images masks = Ok masked) :
  (forall e,
      save_sample_images config os_makedirs save_image images masked 5 = Raise e ->
      extract_features config os_makedirs save_image base_model_extract_features
        images masks = Raise e) /\
  (forall features,
      extract_features config os_makedirs save_image base_model_extract_features
        images masks = Ok features ->
      save_sample_images config os_makedirs save_image images masked 5 = Ok tt /\
      base_model_extract_features masked = Ok features).
Proof.
  unfold extract_features. rewrite Hmasked. cbn [mbind result_bind rbind].
  split.
  - intros e ->. reflexivity.
  - intros features.
    destruct (save_sample_images config os_makedirs save_image images masked 5)
      as [[]|e]; cbn [rbind]; [|discriminate].
    destruct (base_model_extract_features masked) as [fs|e]; cbn [rbind]; [|discriminate].
    intros [= ->]. done.
Qed.

Lemma sample_image_failure_propagates_witness :
  extract_features (ex_config false 1 2) ex_makedirs ex_save_image_fails ex_encoder
    (ex_images 2) (ex_masks 2)
  = Raise (OSError "No space left on device").
Proof.
  eapply (sample_image_failure_propagates (ex_config false 1 2) ex_makedirs
            ex_save_image_fails ex_encoder (ex_images 2) (ex_masks 2)).
  - vm_compute. reflexivity.
  - vm_compute. reflexivity.
Defined.


(** ** Sharding *)

Lemma stride_from_lookup {A : Type} (l : list A) (skip step j : nat) :
  1 <= step -> stride_from skip step l !! j = l !! (skip + j * step).
Proof.
  intros Hstep. revert skip j.
  induction l as [|x l IH]; intros skip j; simpl; [done|].
  destruct skip as [|k].
  - destruct j as [|j]; simpl; [done|].
    rewrite IH. replace (step + j * step) with (S (step - 1 + j * step)) by lia. done.
  - rewrite IH. done.
Qed.

Lemma length_from_lookups {A : Type} (l : list A) (n : nat) :
  (forall j, is_Some (l !! j) <-> j < n) -> length l = n.
Proof.
  intros H.
  destruct (Nat.lt_trichotomy (length l) n) as [Hlt|[Heq|Hgt]]; [|done|].
  - assert (Hs : is_Some (l !! length l)) by (apply H; lia).
    apply lookup_lt_is_Some in Hs. lia.
  - assert (Hs : is_Some (l !! n)) by (by apply lookup_lt_is_Some).
    apply H in Hs. lia.
Qed.

Lemma ceil_div_bounds (n w : nat) :
  1 <= w -> n <= ceil_div n w * w < n + w.
Proof.
  intros Hw. unfold ceil_div.
  pose proof (Nat.div_mod_eq (n + w - 1) w) as Hdm.
  pose proof (Nat.mod_upper_bound (n + w - 1) w) as Hub.
  nia.
Qed.

Lemma ceil_div_exact (n w : nat) :
  1 <= w -> n mod w = 0 -> ceil_div n w * w = n.
Proof.
  intros Hw Hmod.
  pose proof (ceil_div_bounds n w Hw) as Hb.
  pose proof (Nat.div_mod_eq n w) as Hdm. rewrite Hmod in Hdm.
  set (q := ceil_div n w) in *. set (d := n / w) in *.
  assert (q = d); [|subst q; lia].
  destruct (Nat.lt_trichotomy q d) as [Hlt|[Heq|Hgt]]; [|done|].
  - assert (S q * w <= d * w) by (apply Nat.mul_le_mono_r; lia). lia.
  - assert (S d * w <= q * w) by (apply Nat.mul_le_mono_r; lia). lia.
Qed.

Lemma ceil_div_inexact (n w : nat) :
  1 <= w -> n mod w <> 0 -> n < ceil_div n w * w.
Proof.
  intros Hw Hmod.
  pose proof (ceil_div_bounds n w Hw) as Hb.
  destruct (Nat.eq_dec (ceil_div n w * w) n) as [Heq|]; [|lia].
  exfalso. apply Hmod. rewrite <- Heq. apply Nat.Div0.mod_mul.
Qed.

Lemma sampler_padded_length (n w : nat) :
  1 <= w -> length (sampler_padded_indices n w) = sampler_total_size n w.
Proof.
  intros Hw. unfold sampler_padded_indices, sampler_total_size, sampler_num_samples.
  pose proof (ceil_div_bounds n w Hw) as Hb.
  rewrite length_seq.
  destruct (Nat.leb_spec (ceil_div n w * w - n) n) as [Hle|Hgt].
  - rewrite length_app, length_take, length_seq.
    generalize dependent (ceil_div n w * w). intros; lia.
  - rewrite length_app, length_take, length_seq.
    assert (Hn : 1 <= n).
    { destruct n as [|n']; [|lia]. exfalso.
      destruct (ceil_div 0 w) as [|c]; simpl in *; lia. }
    pose proof (ceil_div_bounds (ceil_div n w * w - n) n Hn) as Hb'.
    rewrite (length_concat_uniform _ n), length_replicate
      by (apply Forall_replicate, length_seq).
    lia.
Qed.

Lemma sampler_padded_prefix (n w i : nat) :
  i < n -> sampler_padded_indices n w !! i = Some i.
Proof.
  intros Hi. unfold sampler_padded_indices.
  destruct (_ <=? _); rewrite lookup_app_l by (by rewrite length_seq);
    by rewrite lookup_seq_lt.
Qed.

Lemma sampler_padded_first_pad (n w : nat) :
  1 <= w -> n mod w <> 0 -> sampler_padded_indices n w !! n = Some 0.
Proof.
  intros Hw Hmod. unfold sampler_padded_indices, sampler_total_size, sampler_num_samples.
  pose proof (ceil_div_inexact n w Hw Hmod) as Hb.
  assert (Hn : 1 <= n).
  { destruct n; [|lia]. by rewrite Nat.Div0.mod_0_l in Hmod. }
  rewrite length_seq.
  destruct (Nat.leb_spec (ceil_div n w * w - n) n) as [Hle|Hgt];
    rewrite lookup_app_r by (rewrite length_seq; lia);
    rewrite length_seq, Nat.sub_diag.
  - rewrite lookup_take_lt by lia. by rewrite lookup_seq_lt.
  - rewrite lookup_take_lt by lia.
    pose proof (ceil_div_bounds (ceil_div n w * w - n) n Hn) as Hb'.
    destruct (ceil_div (ceil_div n w * w - n) n) as [|k]; [lia|].
    simpl. rewrite lookup_app_l by (rewrite length_seq; lia).
    by rewrite lookup_seq_lt.
Qed.

Lemma DistributedSampler_lookup (n w r j : nat) :
  1 <= w ->
  DistributedSampler n w r !! j = sampler_padded_indices n w !! (r + j * w).
Proof.
  intros Hw. unfold DistributedSampler, py_slice_step.
  rewrite stride_from_lookup by done.
  rewrite take_ge; [done|]. by rewrite sampler_padded_length.
Qed.

Lemma sampler_padded_exact (n w : nat) :
  1 <= w -> n mod w = 0 -> sampler_padded_indices n w = seq 0 n.
Proof.
  intros Hw Hmod. unfold sampler_padded_indices, sampler_total_size, sampler_num_samples.
  rewrite ceil_div_exact, length_seq, Nat.sub_diag by done.
  simpl. by rewrite take_0, app_nil_r.
Qed.

Lemma DistributedSampler_length (n w r : nat) :
  1 <= w -> r < w -> length (DistributedSampler n w r) = ceil_div n w.
Proof.
  intros Hw Hr. apply length_from_lookups. intros j.
  rewrite DistributedSampler_lookup by done.
  rewrite lookup_lt_is_Some, sampler_padded_length by done.
  unfold sampler_total_size, sampler_num_samples. nia.
Qed.

Lemma DistributedSampler_covers (n w i : nat) :
  1 <= w -> i < n -> exists r, r < w /\ i ∈ DistributedSampler n w r.
Proof.
  intros Hw Hi. exists (i mod w). split; [apply Nat.mod_upper_bound; lia|].
  apply list_elem_of_lookup. exists (i / w).
  rewrite DistributedSampler_lookup by done.
  replace (i mod w + i / w * w) with i by (pose proof (Nat.div_mod_eq i w); lia).
  by apply sampler_padded_prefix.
Qed.

Lemma DistributedSampler_exact_lookup (n w r j x : nat) :
  1 <= w -> n mod w = 0 ->
  DistributedSampler n w r !! j = Some x <-> x = r + j * w /\ x < n.
Proof.
  intros Hw Hmod. rewrite DistributedSampler_lookup, sampler_padded_exact by done.
  rewrite lookup_seq. simpl. lia.
Qed.

Lemma DistributedSampler_exact_elem (n w r i : nat) :
  1 <= w -> r < w -> n mod w = 0 ->
  i ∈ DistributedSampler n w r <-> i < n /\ i mod w = r.
Proof.
  intros Hw Hr Hmod. rewrite list_elem_of_lookup. split.
  - intros [j Hj]. apply DistributedSampler_exact_lookup in Hj as [-> Hlt]; [|done..].
    split; [done|]. rewrite Nat.Div0.mod_add. by apply Nat.mod_small.
  - intros [Hi <-]. exists (i / w). apply DistributedSampler_exact_lookup; [done..|].
    split; [|done]. pose proof (Nat.div_mod_eq i w). lia.
Qed.

Lemma DistributedSampler_exact_NoDup (n w r : nat) :
  1 <= w -> n mod w = 0 -> NoDup (DistributedSampler n w r).
Proof.
  intros Hw Hmod. apply NoDup_alt. intros j1 j2 x H1 H2.
  apply DistributedSampler_exact_lookup in H1 as [-> _]; [|done..].
  apply DistributedSampler_exact_lookup in H2 as [H2 _]; [|done..].
  nia.
Qed.

(** A closed run of the sampler: 3 samples over 2 workers; sample 0 is
    drawn by both workers. *)
Lemma sharding_duplicates_sample :
  0 ∈ DistributedSampler 3 2 0 /\ 0 ∈ DistributedSampler 3 2 1 /\
  DistributedSampler 3 2 0 = [0; 2] /\ DistributedSampler 3 2 1 = [1; 0].
Proof. vm_compute. repeat split; by apply list_elem_of_In; simpl; auto. Qed.

(** C4, as the code has it: the indices a worker draws are a function of
    (distributed, world_size, dataset size, rank) alone; each of the [w]
    workers draws exactly ceil(n / w) indices and every sample is drawn by
    some worker; when [w] divides [n] the shards are a strict partition
    (worker [r] draws, once each, the samples whose index is [r] modulo
    [w]); when it does not, the index list is padded from its start and
    sample 0 is drawn a second time. *)
Theorem shard_assignment (n w : nat) (Hw : 1 <= w) :
  (forall (config1 config2 : Config) (dataset1 dataset2 : list Sample) (rank : nat),
      distributed config1 = distributed config2 ->
      world_size config1 = world_size config2 ->
      length dataset1 = length dataset2 ->
      shard_indices config1 dataset1 rank = shard_indices config2 dataset2 rank) /\
  (forall r, r < w -> length (DistributedSampler n w r) = ceil_div n w) /\
  (forall i, i < n -> exists r, r < w /\ i ∈ DistributedSampler n w r) /\
  (n mod w = 0 ->
   forall r, r < w ->
     NoDup (DistributedSampler n w r) /\
     forall i, i ∈ DistributedSampler n w r <-> i < n /\ i mod w = r) /\
  (n mod w <> 0 ->
   DistributedSampler n w 0 !! 0 = Some 0 /\
   exists r j, r < w /\ (r, j) <> (0, 0) /\ DistributedSampler n w r !! j = Some 0).
Proof.
  split; [|split; [|split; [|split]]].
  - intros c1 c2 d1 d2 rank Hd Hws Hlen. unfold shard_indices.
    by rewrite Hd, Hws, Hlen.
  - intros r Hr. by apply DistributedSampler_length.
  - intros i Hi. by apply DistributedSampler_covers.
  - intros Hmod r Hr. split.
    + by apply DistributedSampler_exact_NoDup.
    + intros i. by apply DistributedSampler_exact_elem.
  - intros Hmod.
    assert (Hn : 1 <= n).
    { destruct n; [|lia]. by rewrite Nat.Div0.mod_0_l in Hmod. }
    split.
    + rewrite DistributedSampler_lookup by done. simpl. apply sampler_padded_prefix. lia.
    + exists (n mod w), (n / w). split; [apply Nat.mod_upper_bound; lia|]. split.
      * intros [= H1 H2]. pose proof (Nat.div_mod_eq n w). nia.
      * rewrite DistributedSampler_lookup by done.
        replace (n mod w + n / w * w) with n by (pose proof (Nat.div_mod_eq n w); lia).
        by apply sampler_padded_first_pad.
Qed.

Lemma shard_assignment_witness :
  NoDup (DistributedSampler 4 2 1) /\
  length (DistributedSampler 4 2 1) = ceil_div 4 2.
Proof.
  destruct (shard_assignment 4 2) as (_ & Hlen & _ & Hexact & _); [lia|].
  destruct (Hexact eq_refl 1) as [Hnodup _]; [lia|].
  split; [exact Hnodup|]. apply Hlen. lia.
Defined.


(** ** Reconciliation *)

Section Sorting.

Context {A : Type} (key : A -> Z).

Lemma insert_by_Permutation x l : Permutation (insert_by key x l) (x :: l).
Proof.
  induction l as [|y l IH]; simpl; [done|].
  destruct (key y <? key x)%Z; [|done].
  rewrite IH. apply perm_swap.
Qed.

Lemma py_sorted_Permutation l : Permutation (py_sorted key l) l.
Proof.
  induction l as [|x l IH]; simpl; [done|].
  rewrite insert_by_Permutation. by constructor.
Qed.

Lemma insert_by_HdRel a x l :
  key_le key a x -> HdRel (key_le key) a l -> HdRel (key_le key) a (insert_by key x l).
Proof.
  intros Hax Hl. destruct l as [|y l]; simpl; [by constructor|].
  destruct (key y <? key x)%Z; constructor; [|done].
  by inversion Hl.
Qed.

Lemma insert_by_Sorted x l :
  Sorted (key_le key) l -> Sorted (key_le key) (insert_by key x l).
Proof.
  induction 1 as [|y l Hs IH Hhd]; simpl; [by repeat constructor|].
  destruct (Z.ltb_spec (key y) (key x)).
  - constructor; [done|]. apply insert_by_HdRel; [unfold key_le; lia|done].
  - constructor; [by constructor|]. constructor. done.
Qed.

Lemma py_sorted_Sorted l : Sorted (key_le key) (py_sorted key l).
Proof.
  induction l as [|x l IH]; simpl; [constructor|]. by apply insert_by_Sorted.
Qed.

End Sorting.

Lemma Sorted_map_key {A : Type} (key : A -> Z) (l : list A) :
  Sorted (key_le key) l -> Sorted Z.le (map key l).
Proof.
  induction 1 as [|x l Hs IH Hhd]; simpl; constructor; [done|].
  destruct Hhd; simpl; by constructor.
Qed.

Lemma Sorted_le_NoDup_lt (l : list Z) :
  Sorted Z.le l -> NoDup l -> StronglySorted Z.lt l.
Proof.
  intros Hs Hnd. apply Sorted_StronglySorted in Hs; [|intros x y z; lia].
  induction Hs as [|x l Hs IH Hall]; [constructor|].
  apply NoDup_cons in Hnd as [Hx Hnd]. constructor; [by apply IH|].
  rewrite List.Forall_forall in Hall. apply List.Forall_forall. intros y Hy.
  specialize (Hall y Hy). assert (x <> y); [|lia].
  intros ->. apply Hx. by apply list_elem_of_In.
Qed.

(** *** Indexing by a list of positions *)

Lemma map_result_cons {A B : Type} (f : A -> result B) (x : A) (rest : list A) :
  map_result f (x :: rest) =
    match f x with
    | Ok y => match map_result f rest with
              | Ok ys => Ok (y :: ys)
              | Raise e => Raise e
              end
    | Raise e => Raise e
    end.
Proof. simpl. destruct (f x); [|done]. simpl. by destruct (map_result f rest). Qed.

Lemma take_indices_spec {A : Type} (xs : list A) (indices : list nat) (ys : list A) :
  take_indices xs indices = Ok ys <-> Forall2 (fun i y => xs !! i = Some y) indices ys.
Proof.
  unfold take_indices. revert ys.
  induction indices as [|i indices IH]; intros ys.
  - simpl. split.
    + intros [= <-]. constructor.
    + intros H. by inversion H.
  - rewrite map_result_cons. unfold py_index at 1.
    destruct (xs !! i) as [x|] eqn:Hx.
    + destruct (map_result (py_index xs) indices) as [zs|e] eqn:Hzs.
      * split.
        -- intros [= <-]. constructor; [done|]. by apply IH.
        -- intros H. inversion H as [|? y ? ys' Hy Hrest]; subst.
           apply IH in Hrest. injection Hrest as <-. congruence.
      * split; [done|]. intros H. inversion H as [|? y ? ys' Hy Hrest]; subst.
        apply IH in Hrest. discriminate.
    + split; [done|]. intros H. inversion H; congruence.
Qed.

Lemma take_indices_total {A : Type} (xs : list A) (indices : list nat) :
  Forall (fun i => i < length xs) indices ->
  exists ys, take_indices xs indices = Ok ys.
Proof.
  induction 1 as [|i indices Hi _ [ys IH]].
  - by exists [].
  - destruct (lookup_lt_is_Some_2 xs i Hi) as [x Hx].
    exists (x :: ys). apply take_indices_spec. constructor; [done|].
    by apply take_indices_spec.
Qed.

Lemma take_indices_length {A : Type} (xs : list A) (indices : list nat) (ys : list A) :
  take_indices xs indices = Ok ys -> length ys = length indices.
Proof. intros H%take_indices_spec. symmetry. by eapply Forall2_length. Qed.

Lemma take_indices_pairs {A : Type} (xs : list A) (ps : list (nat * A)) :
  Forall (fun p => xs !! p.1 = Some p.2) ps ->
  take_indices xs (map fst ps) = Ok (map snd ps).
Proof.
  intros H. apply take_indices_spec.
  induction H as [|p ps Hp _ IH]; simpl; by constructor.
Qed.

Lemma enumerate_lookup {A : Type} (xs : list A) :
  Forall (fun p => xs !! p.1 = Some p.2) (enumerate xs).
Proof.
  unfold enumerate. apply Forall_lookup. intros k [i x] Hk.
  apply lookup_zip_with_Some in Hk as (i' & x' & [= <- <-] & Hi & Hx).
  apply lookup_seq in Hi as [-> _]. done.
Qed.

Lemma enumerate_fst {A : Type} (xs : list A) :
  map fst (enumerate xs) = seq 0 (length xs).
Proof. unfold enumerate. apply fst_zip. by rewrite length_seq. Qed.

Lemma enumerate_snd {A : Type} (xs : list A) : map snd (enumerate xs) = xs.
Proof. unfold enumerate. apply snd_zip. by rewrite length_seq. Qed.

Lemma sorted_indices_Permutation (ids : list Z) :
  Permutation (sorted_indices_of ids) (seq 0 (length ids)).
Proof.
  unfold sorted_indices_of. rewrite <- enumerate_fst.
  apply Permutation_map, py_sorted_Permutation.
Qed.

Lemma sorted_indices_bound (ids : list Z) :
  Forall (fun i => i < length ids) (sorted_indices_of ids).
Proof.
  rewrite sorted_indices_Permutation. apply Forall_seq. lia.
Qed.

Lemma sorted_ids_spec (ids : list Z) :
  take_indices ids (sorted_indices_of ids) = Ok (map snd (py_sorted snd (enumerate ids))).
Proof.
  unfold sorted_indices_of. apply take_indices_pairs.
  rewrite py_sorted_Permutation. apply enumerate_lookup.
Qed.

Lemma sorted_ids_Sorted (ids : list Z) :
  Sorted Z.le (map snd (py_sorted snd (enumerate ids))).
Proof. apply (Sorted_map_key snd), py_sorted_Sorted. Qed.

Lemma sorted_ids_Permutation (ids : list Z) :
  Permutation (map snd (py_sorted snd (enumerate ids))) ids.
Proof.
  rewrite <- (enumerate_snd ids) at 2. apply Permutation_map, py_sorted_Permutation.
Qed.

(** *** Global flatten *)

Lemma foldl_app_concat {A : Type} (acc : list A) (ms : list (list A)) :
  foldl (fun flat m => flat ++ m) acc ms = acc ++ concat ms.
Proof.
  revert acc. induction ms as [|m ms IH]; intros acc; simpl.
  - by rewrite app_nil_r.
  - by rewrite IH, app_assoc.
Qed.

Lemma flatten_features_rows (gathered : list (list (list Vector) * option Metadata)) :
  flatten_features (map fst gathered) = gathered_rows gathered.
Proof.
  unfold flatten_features, gathered_rows.
  assert (H : forall acc : list Vector,
             foldl (fun flat proc_features =>
                      foldl (fun flat feat_matrix => flat ++ feat_matrix) flat proc_features)
                   acc (map fst gathered)
             = acc ++ concat (map (fun w => concat (fst w)) gathered)).
  { induction gathered as [|w gathered IH]; intros acc; simpl.
    - by rewrite app_nil_r.
    - by rewrite IH, foldl_app_concat, app_assoc. }
  apply H.
Qed.

Lemma torch_cat_inv (a b c : IdColumn) :
  torch_cat a b = Ok c ->
  exists x y, a = IdTensor x /\ b = IdTensor y /\ c = IdTensor (x ++ y).
Proof. destruct a, b; simpl; intros [= <-]; eauto. Qed.

Lemma merge_proc_metadata_spec (flat proc res : option Metadata) :
  merge_proc_metadata flat proc = Ok res ->
  log_ids res = log_ids proc ++ log_ids flat /\
  forall f, log_col f res = log_col f flat ++ log_col f proc.
Proof.
  unfold merge_proc_metadata. destruct flat as [fm|].
  - destruct proc as [pm|]; [|done].
    destruct (torch_cat (md_id pm) (md_id fm)) as [ids|e] eqn:Hcat; simpl; [|done].
    intros [= <-]. apply torch_cat_inv in Hcat as (x & y & Hx & Hy & ->).
    simpl. rewrite Hx, Hy. split; [done|]. by intros [].
  - intros [= <-]. simpl. split; [by rewrite app_nil_r|done].
Qed.

Lemma flatten_metadata_from_spec (flat res : option Metadata)
    (gathered : list (option Metadata)) :
  flatten_metadata_from flat gathered = Ok res ->
  log_ids res = concat (map log_ids (reverse gathered)) ++ log_ids flat /\
  forall f, log_col f res = log_col f flat ++ concat (map (log_col f) gathered).
Proof.
  revert flat. induction gathered as [|proc gathered IH]; intros flat; simpl.
  - intros [= <-]. split; [done|]. intros f. by rewrite app_nil_r.
  - destruct (merge_proc_metadata flat proc) as [flat'|e] eqn:Hmerge; simpl; [|done].
    intros Hrest. apply IH in Hrest as [Hids Hcols].
    apply merge_proc_metadata_spec in Hmerge as [Hids' Hcols'].
    split.
    + rewrite Hids, Hids', reverse_cons, map_app, concat_app. simpl.
      by rewrite app_nil_r, app_assoc.
    + intros f. by rewrite Hcols, Hcols', app_assoc.
Qed.

Lemma Permutation_concat {A : Type} (ls ls' : list (list A)) :
  Permutation ls ls' -> Permutation (concat ls) (concat ls').
Proof.
  induction 1 as [|l ls ls' _ IH|l1 l2 ls|ls1 ls2 ls3 _ IH1 _ IH2]; simpl.
  - done.
  - by apply Permutation_app_head.
  - rewrite !app_assoc. apply Permutation_app_tail, Permutation_app_comm.
  - by etrans.
Qed.

Lemma flat_ids_Permutation (gathered : list (list (list Vector) * option Metadata))
    (res : option Metadata) :
  flatten_metadata (map snd gathered) = Ok res ->
  Permutation (log_ids res) (gathered_ids gathered).
Proof.
  intros [Hids _]%flatten_metadata_from_spec. rewrite Hids. simpl. rewrite app_nil_r.
  unfold gathered_ids. rewrite <- (map_map snd log_ids).
  apply Permutation_concat, Permutation_map. by rewrite reverse_Permutation.
Qed.

Lemma flat_col_rank_order (gathered : list (list (list Vector) * option Metadata))
    (res : option Metadata) (f : StrField) :
  flatten_metadata (map snd gathered) = Ok res ->
  log_col f res = gathered_col f gathered.
Proof.
  intros [_ Hcols]%flatten_metadata_from_spec. rewrite Hcols. simpl.
  unfold gathered_col. by rewrite map_map.
Qed.

(** *** Canonicalize *)

Lemma canonicalize_spec (flat_features feats : list Vector) (fm md : Metadata) :
  canonicalize flat_features (Some fm) = Ok (feats, md) <->
  exists ids,
    md_id md = IdList ids /\
    take_indices flat_features (sorted_indices_of (id_values (md_id fm))) = Ok feats /\
    take_indices (id_values (md_id fm)) (sorted_indices_of (id_values (md_id fm))) = Ok ids /\
    forall f, take_indices (md_col f fm) (sorted_indices_of (id_values (md_id fm)))
              = Ok (md_col f md).
Proof.
  unfold canonicalize. simpl.
  set (σ := sorted_indices_of (id_values (md_id fm))).
  split.
  - destruct (take_indices flat_features σ) as [c0|] eqn:H0; simpl; [|done].
    destruct (take_indices (id_values (md_id fm)) σ) as [c1|] eqn:H1; simpl; [|done].
    destruct (take_indices (md_object_name fm) σ) as [c2|] eqn:H2; simpl; [|done].
    destruct (take_indices (md_data_dir fm) σ) as [c3|] eqn:H3; simpl; [|done].
    destruct (take_indices (md_image_path fm) σ) as [c4|] eqn:H4; simpl; [|done].
    destruct (take_indices (md_mask_path fm) σ) as [c5|] eqn:H5; simpl; [|done].
    destruct (take_indices (md_dataset_type fm) σ) as [c6|] eqn:H6; simpl; [|done].
    intros [= <- <-]. exists c1. simpl. repeat split; try done. by intros [].
  - intros (ids & Hid & H0 & H1 & Hcols).
    pose proof (Hcols ObjectName) as H2. pose proof (Hcols DataDir) as H3.
    pose proof (Hcols ImagePath) as H4. pose proof (Hcols MaskPath) as H5.
    pose proof (Hcols DatasetType) as H6. cbn [md_col] in H2, H3, H4, H5, H6.
    rewrite H0. simpl. rewrite H1. simpl. rewrite H2. simpl. rewrite H3. simpl.
    rewrite H4. simpl. rewrite H5. simpl. rewrite H6. simpl.
    destruct md; simpl in *. by rewrite Hid.
Qed.

Lemma reconcile_inv (gathered : list (list (list Vector) * option Metadata))
    (feats : list Vector) (md : Metadata) :
  reconcile gathered = Ok (feats, md) ->
  exists fm,
    flatten_metadata (map snd gathered) = Ok (Some fm) /\
    canonicalize (gathered_rows gathered) (Some fm) = Ok (feats, md).
Proof.
  unfold reconcile. rewrite flatten_features_rows.
  destruct (flatten_metadata (map snd gathered)) as [[fm|]|e]; simpl; [|done..].
  intros H. by exists fm.
Qed.

(** What canonicalization guarantees on any gathered logs it returns on. *)
Lemma reconcile_sorted
    (gathered : list (list (list Vector) * option Metadata))
    (feats : list Vector) (md : Metadata)
    (Hreconcile : reconcile gathered = Ok (feats, md)) :
  md_id md = IdList (id_values (md_id md)) /\
  Sorted Z.le (id_values (md_id md)) /\
  Permutation (id_values (md_id md)) (gathered_ids gathered) /\
  (NoDup (gathered_ids gathered) -> StronglySorted Z.lt (id_values (md_id md))) /\
  (exists σ : list nat,
      Permutation σ (seq 0 (length (gathered_ids gathered))) /\
      Forall2 (fun i v => gathered_rows gathered !! i = Some v) σ feats /\
      forall f, Forall2 (fun i y => gathered_col f gathered !! i = Some y) σ (md_col f md)).
Proof.
  apply reconcile_inv in Hreconcile as (fm & Hflat & Hcanon).
  apply canonicalize_spec in Hcanon as (ids & Hid & Hfeats & Hids & Hcols).
  pose proof (flat_ids_Permutation _ _ Hflat) as Hperm. simpl in Hperm.
  rewrite sorted_ids_spec in Hids. injection Hids as <-.
  rewrite Hid. simpl.
  assert (Hp : Permutation (map snd (py_sorted snd (enumerate (id_values (md_id fm)))))
                 (gathered_ids gathered)).
  { by rewrite sorted_ids_Permutation. }
  split; [done|]. split; [apply sorted_ids_Sorted|]. split; [done|]. split.
  - intros Hnd. apply Sorted_le_NoDup_lt; [apply sorted_ids_Sorted|].
    by rewrite Hp.
  - exists (sorted_indices_of (id_values (md_id fm))). split.
    + rewrite sorted_indices_Permutation.
      by rewrite (Permutation_length Hperm).
    + split; [by apply take_indices_spec|].
      intros f. rewrite <- (flat_col_rank_order _ _ f Hflat). simpl.
      apply take_indices_spec, Hcols.
Qed.

(** In distributed mode the result set of a run is the reconciliation of
    the logs of all workers, gathered in rank order. *)
Lemma distributed_result_set_inv (config : Config) (dataset : list Sample)
    (os_makedirs : string -> result unit)
    (save_image : Tensor float32 -> string -> result unit)
    (base_model_extract_features : Tensor float32 -> result (list Vector))
    (image_open_L : string -> result GrayImage)
    (preprocess_image : GrayImage -> Z -> result GrayImage)
    (rank : nat) (feats : list Vector) (all_metadata : option Metadata) :
  distributed config = true ->
  global_result_set config dataset os_makedirs save_image base_model_extract_features
    image_open_L preprocess_image rank = Ok (feats, all_metadata) ->
  exists md gathered,
    all_metadata = Some md /\
    map_result (shard_pass config dataset os_makedirs save_image
                  base_model_extract_features image_open_L preprocess_image)
      (seq 0 (world_size config)) = Ok gathered /\
    reconcile gathered = Ok (feats, md).
Proof.
  intros Hdist. unfold global_result_set. rewrite Hdist.
  destruct (shard_pass _ _ _ _ _ _ _ rank) as [[own_features own_metadata]|e];
    simpl; [|done].
  destruct (map_result _ _) as [gathered|e]; simpl; [|done].
  destruct (reconcile gathered) as [[sorted_features sorted_metadata]|e] eqn:Hrec;
    simpl; [|done].
  intros [= <- <-]. by exists sorted_metadata, gathered.
Qed.

Lemma flatten_metadata_from_total (flat : option Metadata)
    (gathered : list (list (list Vector) * option Metadata)) :
  Forall log_wf gathered ->
  (flat = None \/ exists fm ids, flat = Some fm /\ md_id fm = IdTensor ids) ->
  exists res,
    flatten_metadata_from flat (map snd gathered) = Ok res /\
    (flat = None /\ gathered = [] /\ res = None \/
     exists fm ids, res = Some fm /\ md_id fm = IdTensor ids).
Proof.
  intros Hwf. revert flat.
  induction Hwf as [|w gathered (m & ids & Hm & Hid & _) _ IH]; intros flat Hflat; simpl.
  - exists flat. split; [done|]. destruct Hflat as [->|?]; [left|right]; done.
  - rewrite Hm.
    assert (Hstep : exists fm' ids',
               merge_proc_metadata flat (Some m) = Ok (Some fm') /\
               md_id fm' = IdTensor ids').
    { destruct Hflat as [->|(fm & ids0 & -> & Hid0)]; simpl.
      - by exists m, ids.
      - rewrite Hid, Hid0. simpl. by eexists _, _. }
    destruct Hstep as (fm' & ids' & -> & Hid'). simpl.
    destruct (IH (Some fm')) as (res & Hres & Hcase); [right; by exists fm', ids'|].
    exists res. split; [done|]. right.
    destruct Hcase as [(? & _)|?]; done.
Qed.

Lemma gathered_lengths (gathered : list (list (list Vector) * option Metadata)) :
  Forall log_wf gathered ->
  length (gathered_rows gathered) = length (gathered_ids gathered) /\
  forall f, length (gathered_col f gathered) = length (gathered_ids gathered).
Proof.
  unfold gathered_rows, gathered_ids, gathered_col.
  induction 1 as [|w gathered (m & ids & Hm & Hid & Hrows & Hcols) _ [IHr IHc]]; simpl.
  - done.
  - rewrite !length_app, IHr, Hm. simpl. rewrite Hid. simpl. split; [lia|].
    intros f. rewrite length_app, IHc, Hcols. done.
Qed.

(** On the logs of workers that each drained at least one batch,
    reconciliation always returns and keeps every gathered row. *)
Lemma reconcile_total
    (gathered : list (list (list Vector) * option Metadata))
    (Hworkers : 0 < length gathered)
    (Hwf : Forall log_wf gathered) :
  exists feats md,
    reconcile gathered = Ok (feats, md) /\
    Permutation (id_values (md_id md)) (gathered_ids gathered) /\
    length feats = length (gathered_ids gathered) /\
    forall f, length (md_col f md) = length (gathered_ids gathered).
Proof.
  destruct (flatten_metadata_from_total None gathered Hwf) as (res & Hflat & Hcase);
    [by left|].
  destruct Hcase as [(_ & -> & _)|(fm & ids & -> & Hid)]; [simpl in Hworkers; lia|].
  fold (flatten_metadata (map snd gathered)) in Hflat.
  pose proof (flat_ids_Permutation _ _ Hflat) as Hperm. simpl in Hperm.
  pose proof (gathered_lengths gathered Hwf) as [Hrows Hcols].
  pose proof (sorted_indices_bound (id_values (md_id fm))) as Hbound.
  rewrite (Permutation_length Hperm) in Hbound.
  destruct (take_indices_total (gathered_rows gathered)
              (sorted_indices_of (id_values (md_id fm)))) as [feats Hfeats];
    [by rewrite Hrows|].
  assert (Hcol : forall f, exists ys,
             take_indices (md_col f fm) (sorted_indices_of (id_values (md_id fm))) = Ok ys).
  { intros f. apply take_indices_total.
    change (md_col f fm) with (log_col f (Some fm)).
    by rewrite (flat_col_rank_order _ _ f Hflat), Hcols. }
  destruct (Hcol ObjectName) as [c2 H2]. destruct (Hcol DataDir) as [c3 H3].
  destruct (Hcol ImagePath) as [c4 H4]. destruct (Hcol MaskPath) as [c5 H5].
  destruct (Hcol DatasetType) as [c6 H6].
  set (md := {| md_id := IdList (map snd (py_sorted snd (enumerate (id_values (md_id fm)))));
                md_object_name := c2; md_data_dir := c3; md_image_path := c4;
                md_mask_path := c5; md_dataset_type := c6 |}).
  assert (Hlen : length (sorted_indices_of (id_values (md_id fm)))
                 = length (gathered_ids gathered)).
  { rewrite sorted_indices_Permutation, length_seq. by apply Permutation_length. }
  exists feats, md. split; [|split; [|split]].
  - unfold reconcile. rewrite flatten_features_rows, Hflat. simpl.
    apply canonicalize_spec. eexists. split; [reflexivity|]. split; [done|].
    split; [apply sorted_ids_spec|]. by intros [].
  - simpl. by rewrite sorted_ids_Permutation.
  - by rewrite (take_indices_length _ _ _ Hfeats).
  - intros []; simpl; erewrite take_indices_length by eassumption; done.
Qed.

(** *** The shard loop *)

Lemma bind_Ok_inv {A B : Type} (m : result A) (k : A -> result B) (b : B) :
  (m ≫= k) = Ok b -> exists a, m = Ok a /\ k a = Ok b.
Proof. destruct m as [a|e]; simpl; [|done]. intros H. by exists a. Qed.

Lemma map_result_Forall2 {A B : Type} (f : A -> result B) (xs : list A) (ys : list B) :
  map_result f xs = Ok ys <-> Forall2 (fun x y => f x = Ok y) xs ys.
Proof.
  revert ys. induction xs as [|x xs IH]; intros ys.
  - simpl. split; [intros [= <-]; constructor|intros H; by inversion H].
  - rewrite map_result_cons. split.
    + destruct (f x) as [y|] eqn:Hy; [|done].
      destruct (map_result f xs) as [zs|] eqn:Hzs; [|done].
      intros [= <-]. constructor; [done|]. by apply IH.
    + intros H. inversion H as [|? y ? zs Hy Hrest]; subst.
      apply IH in Hrest. by rewrite Hy, Hrest.
Qed.

Lemma batch_sampler_concat {A : Type} (bs : nat) (batch indices : list A) :
  concat (batch_sampler bs batch indices) = batch ++ indices.
Proof.
  revert batch. induction indices as [|i indices IH]; intros batch; simpl.
  - destruct batch; simpl; by rewrite ?app_nil_r.
  - destruct (_ =? _); simpl; rewrite IH; simpl; by rewrite <- app_assoc.
Qed.

Lemma stack_images_shape (imgs : list (Tensor float32)) (t : Tensor float32) :
  stack_images imgs = Ok t -> exists rest, shape t = length imgs :: rest.
Proof.
  unfold stack_images. destruct imgs as [|u imgs]; [done|].
  destruct (forallb _ _); [|done]. intros [= <-]. by eexists.
Qed.

Lemma collate_spec (batch : list Sample) (images : Tensor float32) (metadata : Metadata) :
  collate batch = Ok (images, metadata) ->
  (exists rest, shape images = length batch :: rest) /\
  md_id metadata = IdTensor (map s_id batch) /\
  forall f, length (md_col f metadata) = length batch.
Proof.
  unfold collate. intros (t & Hstack & [= <- <-])%bind_Ok_inv.
  apply stack_images_shape in Hstack as [rest Hrest]. rewrite length_map in Hrest.
  split; [by exists rest|]. split; [done|].
  intros []; simpl; by rewrite length_map.
Qed.

Lemma tensor_setitem_shape {A : Type} (t v t' : Tensor A) (i : nat) :
  tensor_setitem t i v = Ok t' -> shape t' = shape t.
Proof.
  unfold tensor_setitem. destruct (shape t) as [|n rest] eqn:Hs; [done|].
  destruct (i <? n); [|done]. destruct (bool_decide _); [|done].
  intros [= <-]. done.
Qed.

Section BatchRows.

Variable config : Config.
Variable os_makedirs : string -> result unit.
Variable save_image : Tensor float32 -> string -> result unit.
Variable base_model_extract_features : Tensor float32 -> result (list Vector).
Variable image_open_L : string -> result GrayImage.
Variable preprocess_image : GrayImage -> Z -> result GrayImage.

(** The encoder's contract: one feature vector per image of the batch. *)
Hypothesis encoder_rows : forall t features,
  base_model_extract_features t = Ok features -> size t 0 = Ok (length features).

Lemma load_masks_shape (masks masks' : Tensor float32) (i : nat) (mask_list : list string) :
  load_masks config image_open_L preprocess_image masks i mask_list = Ok masks' ->
  shape masks' = shape masks.
Proof.
  revert masks i. induction mask_list as [|path rest IH]; intros masks i; simpl.
  - by intros [= <-].
  - intros (m1 & Hm1 & Hrest)%bind_Ok_inv. apply IH in Hrest. rewrite Hrest.
    unfold load_mask_into in Hm1.
    apply bind_Ok_inv in Hm1 as (g & _ & Hm1).
    apply bind_Ok_inv in Hm1 as (target & _ & Hm1).
    apply bind_Ok_inv in Hm1 as (g' & _ & Hm1).
    by apply tensor_setitem_shape in Hm1.
Qed.

Lemma broadcast_shapes_head (a b : nat) (s1 s2 out : list nat) :
  broadcast_shapes (a :: s1) (b :: s2) = Some out ->
  exists rest, out = (if a =? b then a else if a =? 1 then b else a) :: rest.
Proof.
  simpl. destruct (broadcast_shapes s1 s2) as [rest|]; simpl; [|done].
  destruct (a =? b); [intros [= <-]; by eexists|].
  destruct (a =? 1); [intros [= <-]; by eexists|].
  destruct (b =? 1); [intros [= <-]; by eexists|done].
Qed.

Lemma masked_images_batch (images masks masked : Tensor float32)
    (B c h w : nat) (rest : list nat) :
  shape images = B :: c :: rest -> 2 <= length rest ->
  shape masks = [B; 1; h; w] ->
  masked_images_of images masks = Ok masked ->
  exists rest', shape masked = B :: rest'.
Proof.
  intros Hi Hrest Hm. unfold masked_images_of, _prepare_binary_mask, dim, tmap, size,
    py_index. simpl. rewrite Hm, Hi. simpl.
  unfold expand_channels. simpl. rewrite orb_true_r. simpl.
  unfold tensor_mul, dim. rewrite Hi. cbn [shape elems].
  destruct (broadcast_shapes _ _) as [out|] eqn:Hout; [|done].
  intros [= <-]. cbn [shape].
  assert (Hmax : Nat.max (length (B :: c :: rest)) (length [B; c; h; w])
                 = length (B :: c :: rest)) by (simpl; lia).
  rewrite Hmax in Hout. unfold pad_shape in Hout at 1.
  rewrite Nat.sub_diag in Hout. cbn [replicate app] in Hout.
  unfold pad_shape in Hout. cbn [length] in Hout.
  destruct rest as [|r1 [|r2 rest]]; [simpl in Hrest; lia..|].
  destruct rest as [|r3 rest].
  - cbn [length Nat.sub replicate app] in Hout.
    apply broadcast_shapes_head in Hout as [rest' ->].
    rewrite Nat.eqb_refl. by eexists.
  - replace (S (S (S (S (S (length rest)))))- 4) with (S (length rest)) in Hout by lia.
    cbn [replicate app] in Hout.
    apply broadcast_shapes_head in Hout as [rest' ->].
    exists rest'. destruct (Nat.eqb_spec B 1) as [->|]; done.
Qed.

Lemma process_batch_rows (images : Tensor float32) (metadata metadata' : Metadata)
    (features : list Vector) :
  process_batch config os_makedirs save_image base_model_extract_features
    image_open_L preprocess_image (images, metadata) = Ok (features, metadata') ->
  metadata' = metadata /\ size images 0 = Ok (length features).
Proof.
  unfold process_batch.
  intros (B & HB & H)%bind_Ok_inv.
  apply bind_Ok_inv in H as (h & Hh & H).
  apply bind_Ok_inv in H as (w & Hw & H).
  apply bind_Ok_inv in H as (masks & Hmasks & H).
  apply bind_Ok_inv in H as (fs & Hfs & [= <- <-]).
  split; [done|].
  apply load_masks_shape in Hmasks. cbn [zeros shape] in Hmasks.
  unfold extract_features in Hfs.
  apply bind_Ok_inv in Hfs as (masked & Hmasked & Hfs).
  apply bind_Ok_inv in Hfs as ([] & _ & Hfs).
  apply bind_Ok_inv in Hfs as (fs' & Henc & [= <-]).
  apply encoder_rows in Henc.
  unfold size, py_index in HB, Hh, Hw.
  destruct (shape images) as [|B' [|c [|r1 [|r2 rest]]]] eqn:Hshape; try done.
  simpl in HB, Hh, Hw. injection HB as <-. injection Hh as <-. injection Hw as <-.
  destruct (masked_images_batch images masks masked B' c r1 r2 (r1 :: r2 :: rest))
    as [rest' Hrest']; [done|simpl; lia|done|done|].
  unfold size, py_index in Henc |- *. rewrite Hrest' in Henc. rewrite Hshape. done.
Qed.

End BatchRows.

Lemma ids_at_samples (dataset samples : list Sample) (indices : list nat) :
  map_result (py_index dataset) indices = Ok samples ->
  ids_at dataset indices = map s_id samples.
Proof.
  intros H%map_result_Forall2. unfold ids_at.
  induction H as [|i s indices samples Hi _ IH]; simpl; [done|].
  unfold py_index in Hi. destruct (dataset !! i) as [s'|]; [|done].
  injection Hi as ->. simpl. f_equal. exact IH.
Qed.

Lemma ids_at_app (dataset : list Sample) (l1 l2 : list nat) :
  ids_at dataset (l1 ++ l2) = ids_at dataset l1 ++ ids_at dataset l2.
Proof. apply omap_app. Qed.

Section ShardLoop.

Variable config : Config.
Variable dataset : list Sample.
Variable os_makedirs : string -> result unit.
Variable save_image : Tensor float32 -> string -> result unit.
Variable base_model_extract_features : Tensor float32 -> result (list Vector).
Variable image_open_L : string -> result GrayImage.
Variable preprocess_image : GrayImage -> Z -> result GrayImage.

Hypothesis encoder_rows : forall t features,
  base_model_extract_features t = Ok features -> size t 0 = Ok (length features).

Lemma shard_step_spec (batch_indices : list nat)
    (all_features all_features' : list (list Vector))
    (all_metadata all_metadata' : option Metadata) (ids : list Z) :
  acc_wf (all_features, all_metadata) ids ->
  shard_step config dataset os_makedirs save_image base_model_extract_features
    image_open_L preprocess_image batch_indices all_features all_metadata
  = Ok (all_features', all_metadata') ->
  acc_wf (all_features', all_metadata') (ids ++ ids_at dataset batch_indices) /\
  exists m v, all_metadata' = Some m /\ md_id m = IdTensor v.
Proof.
  intros (Hids & Hrows & Hcols & Hshape). simpl in Hids, Hrows, Hcols, Hshape.
  unfold shard_step.
  intros (samples & Hsamples & H)%bind_Ok_inv.
  apply bind_Ok_inv in H as ([images metadata] & Hcollate & H).
  apply bind_Ok_inv in H as ([features metadata'] & Hbatch & H).
  apply bind_Ok_inv in H as (omd & Hacc & [= <- <-]).
  apply ids_at_samples in Hsamples. rewrite Hsamples.
  apply collate_spec in Hcollate as ([rest Himages] & Hmid & Hmcols).
  apply (process_batch_rows _ _ _ _ _ _ encoder_rows) in Hbatch as [-> Hsize].
  assert (Hlen : length features = length samples).
  { unfold size, py_index in Hsize. rewrite Himages in Hsize. simpl in Hsize. congruence. }
  unfold accumulate_metadata in Hacc.
  destruct Hshape as [->|(am & v & -> & Hv)].
  - injection Hacc as <-. simpl in Hids. subst ids. split.
    + repeat split; simpl.
      * by rewrite Hmid.
      * rewrite concat_app, length_app, Hrows. simpl. rewrite app_nil_r, length_map. lia.
      * intros f. by rewrite Hmcols, length_map.
      * right. by eexists _, _.
    + by eexists _, _.
  - rewrite Hv, Hmid in Hacc. simpl in Hacc. injection Hacc as <-.
    simpl in Hids. rewrite Hv in Hids. simpl in Hids. subst ids. split.
    + repeat split; simpl.
      * rewrite concat_app, !length_app, Hrows. simpl.
        rewrite app_nil_r, length_map. lia.
      * intros f. specialize (Hcols f). specialize (Hmcols f). simpl in Hcols.
        rewrite length_app, length_map.
        destruct f; simpl in *; rewrite length_app; lia.
      * right. by eexists _, _.
    + by eexists _, _.
Qed.

Lemma shard_loop_spec (batches : list (list nat))
    (all_features all_features' : list (list Vector))
    (all_metadata all_metadata' : option Metadata) (ids : list Z) :
  acc_wf (all_features, all_metadata) ids ->
  shard_loop config dataset os_makedirs save_image base_model_extract_features
    image_open_L preprocess_image batches all_features all_metadata
  = Ok (all_features', all_metadata') ->
  acc_wf (all_features', all_metadata') (ids ++ ids_at dataset (concat batches)) /\
  (batches <> [] -> exists m v, all_metadata' = Some m /\ md_id m = IdTensor v).
Proof.
  revert all_features all_metadata ids.
  induction batches as [|b batches IH]; intros fs omd ids Hwf; simpl.
  - intros [= <- <-]. unfold ids_at. simpl. rewrite app_nil_r. done.
  - intros ([fs1 omd1] & Hstep & Hloop)%bind_Ok_inv.
    destruct (shard_step_spec _ _ _ _ _ _ Hwf Hstep) as [Hwf1 Hsome1].
    destruct (IH _ _ _ Hwf1 Hloop) as [Hwf2 Hsome2].
    rewrite ids_at_app, app_assoc. split; [done|]. intros _.
    destruct batches as [|b' batches]; [|by apply Hsome2].
    simpl in Hloop. by injection Hloop as <- <-.
Qed.

Lemma shard_pass_spec (rank : nat) (log : list (list Vector) * option Metadata) :
  shard_pass config dataset os_makedirs save_image base_model_extract_features
    image_open_L preprocess_image rank = Ok log ->
  log_ids (snd log) = ids_at dataset (shard_indices config dataset rank) /\
  (shard_indices config dataset rank <> [] -> log_wf log).
Proof.
  unfold shard_pass. destruct (_ <=? _)%Z; [done|].
  destruct log as [fs omd]. intros Hloop.
  assert (Hwf0 : acc_wf (@nil (list Vector), @None Metadata) []).
  { repeat split; simpl; auto. }
  destruct (shard_loop_spec _ _ _ _ _ _ Hwf0 Hloop) as [(Hids & Hrows & Hcols & _) Hsome].
  rewrite batch_sampler_concat in Hids, Hrows, Hcols. simpl in Hids, Hrows, Hcols.
  split; [done|]. intros Hne.
  destruct Hsome as (m & v & -> & Hv).
  { intros Hnil. apply Hne.
    pose proof (batch_sampler_concat (Z.to_nat (batch_size (data config))) []
                  (shard_indices config dataset rank)) as Hconcat.
    rewrite Hnil in Hconcat. simpl in Hconcat. done. }
  exists m, v. simpl in *. rewrite Hv in Hids. simpl in Hids.
  repeat split; try done; rewrite Hids; done.
Qed.

End ShardLoop.

(** *** Every drawn sample reaches the reconciled table *)

Lemma stride_from_subset {A : Type} (skip step : nat) (l : list A) :
  1 <= step -> stride_from skip step l ⊆ l.
Proof.
  intros Hstep x [j Hj]%list_elem_of_lookup.
  rewrite stride_from_lookup in Hj by done. by eapply list_elem_of_lookup_2.
Qed.

Lemma sampler_padded_bound (n w : nat) :
  Forall (fun i => i < n) (sampler_padded_indices n w).
Proof.
  assert (Hseq : Forall (fun i => i < n) (seq 0 n)) by (apply Forall_seq; lia).
  unfold sampler_padded_indices. destruct (_ <=? _); apply Forall_app; split; try done.
  - by apply Forall_take.
  - apply Forall_take, Forall_concat, Forall_replicate. done.
Qed.

Lemma DistributedSampler_bound (n w r : nat) :
  1 <= w -> Forall (fun i => i < n) (DistributedSampler n w r).
Proof.
  intros Hw. unfold DistributedSampler, py_slice_step.
  eapply Forall_impl with (P := fun i => i ∈ sampler_padded_indices n w).
  - apply Forall_forall. intros x Hx. apply stride_from_subset in Hx; [|done].
    by eapply subseteq_take.
  - intros x Hx. pose proof (sampler_padded_bound n w) as Hb.
    rewrite Forall_forall in Hb. by apply Hb.
Qed.

Lemma ids_at_length (dataset : list Sample) (indices : list nat) :
  Forall (fun i => i < length dataset) indices ->
  length (ids_at dataset indices) = length indices.
Proof.
  unfold ids_at. induction 1 as [|i indices Hi _ IH]; simpl; [done|].
  destruct (lookup_lt_is_Some_2 dataset i Hi) as [s ->]. simpl. f_equal. exact IH.
Qed.

Section GatheredRun.

Variable config : Config.
Variable dataset : list Sample.
Variable os_makedirs : string -> result unit.
Variable save_image : Tensor float32 -> string -> result unit.
Variable base_model_extract_features : Tensor float32 -> result (list Vector).
Variable image_open_L : string -> result GrayImage.
Variable preprocess_image : GrayImage -> Z -> result GrayImage.

Hypothesis encoder_rows : forall t features,
  base_model_extract_features t = Ok features -> size t 0 = Ok (length features).
Hypothesis Hdistributed : distributed config = true.
Hypothesis Hdataset : 0 < length dataset.

Lemma distributed_shard_nonempty (rank : nat) :
  rank < world_size config -> shard_indices config dataset rank <> [].
Proof.
  intros Hrank Hnil. unfold shard_indices in Hnil. rewrite Hdistributed in Hnil.
  pose proof (DistributedSampler_length (length dataset) (world_size config) rank) as Hlen.
  rewrite Hnil in Hlen. simpl in Hlen.
  pose proof (ceil_div_bounds (length dataset) (world_size config)) as Hb.
  assert (1 <= world_size config) by lia.
  specialize (Hlen ltac:(done) Hrank). specialize (Hb ltac:(done)). lia.
Qed.

Lemma gathered_logs_spec (ranks : list nat)
    (gathered : list (list (list Vector) * option Metadata)) :
  Forall (fun r => r < world_size config) ranks ->
  map_result (shard_pass config dataset os_makedirs save_image
                base_model_extract_features image_open_L preprocess_image) ranks
    = Ok gathered ->
  Forall log_wf gathered /\
  gathered_ids gathered
    = concat (map (fun r => ids_at dataset
                              (DistributedSampler (length dataset) (world_size config) r))
                ranks).
Proof.
  intros Hranks H%map_result_Forall2. unfold gathered_ids.
  induction H as [|r w ranks gathered Hw _ IH]; simpl; [done|].
  apply Forall_cons in Hranks as [Hr Hranks].
  destruct (IH Hranks) as [IHwf IHids].
  destruct (shard_pass_spec _ _ _ _ _ _ _ encoder_rows _ _ Hw) as [Hids Hwf].
  split.
  - constructor; [|done]. by apply Hwf, distributed_shard_nonempty.
  - rewrite IHids, Hids. unfold shard_indices. by rewrite Hdistributed.
Qed.

End GatheredRun.

Lemma length_concat_map_const {A B : Type} (f : A -> list B) (xs : list A) (n : nat) :
  Forall (fun x => length (f x) = n) xs ->
  length (concat (map f xs)) = length xs * n.
Proof.
  intros H. rewrite (length_concat_uniform _ n); [by rewrite length_map|].
  by apply Forall_fmap.
Qed.

(** *** Shards that partition the dataset *)







(** *** The empty dataset *)

Lemma empty_shard_pass (config : Config)
    (os_makedirs : string -> result unit)
    (save_image : Tensor float32 -> string -> result unit)
    (base_model_extract_features : Tensor float32 -> result (list Vector))
    (image_open_L : string -> result GrayImage)
    (preprocess_image : GrayImage -> Z -> result GrayImage) (rank : nat) :
  shard_pass config [] os_makedirs save_image base_model_extract_features
    image_open_L preprocess_image rank
  = if (batch_size (data config) <=? 0)%Z
    then Raise (ValueError "batch_size should be a positive integer value")
    else Ok ([], None).
Proof.
  unfold shard_pass. destruct (_ <=? _)%Z; [done|].
  assert (Hpad : sampler_padded_indices 0 (world_size config) = []).
  { unfold sampler_padded_indices. simpl. destruct (_ <=? _); simpl.
    - by rewrite take_nil.
    - generalize (ceil_div (sampler_total_size 0 (world_size config) - 0) 0). intros k.
      replace (concat (replicate k (@nil nat))) with (@nil nat);
        [by rewrite take_nil|].
      induction k as [|k IH]; simpl; done. }
  assert (Hidx : shard_indices config [] rank = []).
  { unfold shard_indices, DistributedSampler, SequentialSampler, py_slice_step.
    simpl. rewrite Hpad, take_nil. by destruct (distributed config). }
  by rewrite Hidx.
Qed.

Lemma map_result_const {A B : Type} (b : B) (xs : list A) :
  map_result (fun _ => Ok b) xs = Ok (map (fun _ => b) xs).
Proof. induction xs as [|x xs IH]; simpl; [done|]. by rewrite IH. Qed.

Lemma flatten_metadata_all_empty {A : Type} (xs : list A) :
  flatten_metadata
    (map snd (map (fun _ => (@nil (list Vector), @None Metadata)) xs)) = Ok None.
Proof. unfold flatten_metadata. induction xs as [|x xs IH]; simpl; done. Qed.

Lemma empty_global_result_set (config : Config)
    (os_makedirs : string -> result unit)
    (save_image : Tensor float32 -> string -> result unit)
    (base_model_extract_features : Tensor float32 -> result (list Vector))
    (image_open_L : string -> result GrayImage)
    (preprocess_image : GrayImage -> Z -> result GrayImage) (rank : nat) :
  exists e,
    global_result_set config [] os_makedirs save_image base_model_extract_features
      image_open_L preprocess_image rank = Raise e /\
    ((0 <? batch_size (data config))%Z = true ->
     e = if distributed config then KeyError "id"
         else ValueError "need at least one array to concatenate").
Proof.
  unfold global_result_set. rewrite empty_shard_pass.
  destruct (Z.leb_spec (batch_size (data config)) 0) as [Hbs|Hbs]; simpl.
  - eexists. split; [done|]. intros H%Z.ltb_lt. lia.
  - destruct (distributed config); simpl.
    + assert (Hg : map_result
                (shard_pass config [] os_makedirs save_image base_model_extract_features
                   image_open_L preprocess_image) (seq 0 (world_size config))
              = Ok (map (fun _ => ([], None)) (seq 0 (world_size config)))).
      { rewrite <- map_result_const.
        induction (seq 0 (world_size config)) as [|r rs IH]; simpl; [done|].
        rewrite empty_shard_pass.
        destruct (Z.leb_spec (batch_size (data config)) 0); [lia|]. simpl.
        by rewrite IH. }
      rewrite Hg. simpl. unfold reconcile.
      rewrite flatten_metadata_all_empty. simpl.
      eexists. split; done.
    + eexists. split; done.
Qed.

(** *** A worker's log, batch by batch *)

Lemma fields_at_samples (f : StrField) (dataset samples : list Sample)
    (indices : list nat) :
  map_result (py_index dataset) indices = Ok samples ->
  fields_at f dataset indices = map (sample_field f) samples.
Proof.
  intros H%map_result_Forall2. unfold fields_at.
  induction H as [|i s indices samples Hi _ IH]; simpl; [done|].
  unfold py_index in Hi. destruct (dataset !! i) as [s'|]; [|done].
  injection Hi as ->. simpl. f_equal. exact IH.
Qed.

Lemma fields_at_app (f : StrField) (dataset : list Sample) (l1 l2 : list nat) :
  fields_at f dataset (l1 ++ l2) = fields_at f dataset l1 ++ fields_at f dataset l2.
Proof. apply omap_app. Qed.

Lemma collate_columns (batch : list Sample) (images : Tensor float32)
    (metadata : Metadata) :
  collate batch = Ok (images, metadata) ->
  md_id metadata = IdTensor (map s_id batch) /\
  forall f, md_col f metadata = map (sample_field f) batch.
Proof.
  unfold collate. intros (t & _ & [= <- <-])%bind_Ok_inv.
  split; [done|]. by intros [].
Qed.

Section WorkerSteps.

Variable config : Config.
Variable dataset : list Sample.
Variable os_makedirs : string -> result unit.
Variable save_image : Tensor float32 -> string -> result unit.
Variable base_model_extract_features : Tensor float32 -> result (list Vector).
Variable image_open_L : string -> result GrayImage.
Variable preprocess_image : GrayImage -> Z -> result GrayImage.

Lemma process_batch_metadata (batch : Tensor float32 * Metadata)
    (features : list Vector) (metadata : Metadata) :
  process_batch config os_makedirs save_image base_model_extract_features
    image_open_L preprocess_image batch = Ok (features, metadata) ->
  metadata = snd batch.
Proof.
  destruct batch as [images md]. unfold process_batch.
  intros (? & _ & H)%bind_Ok_inv.
  apply bind_Ok_inv in H as (? & _ & H).
  apply bind_Ok_inv in H as (? & _ & H).
  apply bind_Ok_inv in H as (? & _ & H).
  apply bind_Ok_inv in H as (? & _ & H).
  by injection H as _ <-.
Qed.

Lemma shard_step_log (batch_indices : list nat)
    (fs fs' : list (list Vector)) (omd omd' : option Metadata) :
  shard_step config dataset os_makedirs save_image base_model_extract_features
    image_open_L preprocess_image batch_indices fs omd = Ok (fs', omd') ->
  log_ids omd' = log_ids omd ++ ids_at dataset batch_indices /\
  (forall f, log_col f omd' = log_col f omd ++ fields_at f dataset batch_indices) /\
  length fs' = S (length fs) /\
  exists m v, omd' = Some m /\ md_id m = IdTensor v.
Proof.
  unfold shard_step.
  intros (samples & Hsamples & H)%bind_Ok_inv.
  apply bind_Ok_inv in H as ([images metadata] & Hcollate & H).
  apply bind_Ok_inv in H as ([features metadata'] & Hbatch & H).
  apply bind_Ok_inv in H as (res & Hacc & [= <- <-]).
  apply process_batch_metadata in Hbatch. simpl in Hbatch. subst metadata'.
  apply collate_columns in Hcollate as [Hid Hcols].
  rewrite (ids_at_samples _ _ _ Hsamples).
  assert (Hfields : forall f, fields_at f dataset batch_indices = md_col f metadata).
  { intros f. by rewrite (fields_at_samples f _ _ _ Hsamples), Hcols. }
  split; [|split; [|split; [rewrite length_app; simpl; lia|]]].
  - destruct omd as [am|]; simpl in Hacc.
    + apply bind_Ok_inv in Hacc as (ids & Hcat & [= <-]). simpl.
      apply torch_cat_inv in Hcat as (x & y & Hx & Hy & ->).
      rewrite Hx. rewrite Hid in Hy. injection Hy as <-. done.
    + injection Hacc as <-. simpl. by rewrite Hid.
  - intros f. rewrite Hfields. destruct omd as [am|]; simpl in Hacc.
    + apply bind_Ok_inv in Hacc as (ids & Hcat & [= <-]). by destruct f.
    + by injection Hacc as <-.
  - destruct omd as [am|]; simpl in Hacc.
    + apply bind_Ok_inv in Hacc as (ids & Hcat & [= <-]).
      apply torch_cat_inv in Hcat as (x & y & Hx & Hy & ->). by eexists _, _.
    + injection Hacc as <-. by eexists _, _.
Qed.

Lemma shard_loop_log (batches : list (list nat))
    (fs fs' : list (list Vector)) (omd omd' : option Metadata) :
  shard_loop config dataset os_makedirs save_image base_model_extract_features
    image_open_L preprocess_image batches fs omd = Ok (fs', omd') ->
  log_ids omd' = log_ids omd ++ ids_at dataset (concat batches) /\
  (forall f, log_col f omd' = log_col f omd ++ fields_at f dataset (concat batches)) /\
  length fs' = length fs + length batches /\
  (batches <> [] -> exists m v, omd' = Some m /\ md_id m = IdTensor v).
Proof.
  revert fs omd. induction batches as [|b batches IH]; intros fs omd; simpl.
  - intros [= <- <-]. rewrite app_nil_r. split; [done|].
    split; [intros f; by rewrite app_nil_r|]. split; [lia|done].
  - intros ([fs1 omd1] & Hstep & Hloop)%bind_Ok_inv.
    apply shard_step_log in Hstep as (Hids1 & Hcols1 & Hlen1 & Hsome1).
    destruct (IH _ _ Hloop) as (Hids & Hcols & Hlen & Hsome).
    rewrite ids_at_app, Hids, Hids1, <- app_assoc. split; [done|]. split.
    + intros f. by rewrite fields_at_app, Hcols, Hcols1, <- app_assoc.
    + split; [lia|]. intros _.
      destruct batches as [|b' batches]; [|by apply Hsome].
      simpl in Hloop. by injection Hloop as <- <-.
Qed.

End WorkerSteps.

(** *** The metadata of a result set does not depend on the encoder *)

Section ResultSetMetadata.

Variable config : Config.
Variable dataset : list Sample.
Variable os_makedirs : string -> result unit.
Variable save_image : Tensor float32 -> string -> result unit.
Variable base_model_extract_features : Tensor float32 -> result (list Vector).
Variable image_open_L : string -> result GrayImage.
Variable preprocess_image : GrayImage -> Z -> result GrayImage.




End ResultSetMetadata.

(** *** Reconciled runs *)





(** *** The width of the gathered rows *)

Section RowWidths.

Variable config : Config.
Variable dataset : list Sample.
Variable os_makedirs : string -> result unit.
Variable save_image : Tensor float32 -> string -> result unit.
Variable base_model_extract_features : Tensor float32 -> result (list Vector).
Variable image_open_L : string -> result GrayImage.
Variable preprocess_image : GrayImage -> Z -> result GrayImage.
Variable D : nat.

Hypothesis encoder_width : forall t features,
  base_model_extract_features t = Ok features ->
  Forall (fun v => length v = D) features.

Lemma process_batch_width (batch : Tensor float32 * Metadata)
    (features : list Vector) (metadata : Metadata) :
  process_batch config os_makedirs save_image base_model_extract_features
    image_open_L preprocess_image batch = Ok (features, metadata) ->
  Forall (fun v => length v = D) features.
Proof.
  destruct batch as [images md]. unfold process_batch.
  intros (? & _ & H)%bind_Ok_inv.
  apply bind_Ok_inv in H as (? & _ & H).
  apply bind_Ok_inv in H as (? & _ & H).
  apply bind_Ok_inv in H as (? & _ & H).
  apply bind_Ok_inv in H as (fs & Hfs & [= <- _]).
  unfold extract_features in Hfs.
  apply bind_Ok_inv in Hfs as (masked & _ & Hfs).
  apply bind_Ok_inv in Hfs as ([] & _ & Hfs).
  apply bind_Ok_inv in Hfs as (fs' & Henc & [= <-]).
  by eapply encoder_width.
Qed.

Lemma shard_loop_width (batches : list (list nat))
    (fs fs' : list (list Vector)) (omd omd' : option Metadata) :
  Forall (fun v => length v = D) (concat fs) ->
  shard_loop config dataset os_makedirs save_image base_model_extract_features
    image_open_L preprocess_image batches fs omd = Ok (fs', omd') ->
  Forall (fun v => length v = D) (concat fs').
Proof.
  revert fs omd. induction batches as [|b batches IH]; intros fs omd Hfs; simpl.
  - by intros [= <- _].
  - intros ([fs1 omd1] & Hstep & Hloop)%bind_Ok_inv.
    apply (IH fs1 omd1); [|done].
    unfold shard_step in Hstep.
    apply bind_Ok_inv in Hstep as (samples & _ & Hstep).
    apply bind_Ok_inv in Hstep as (batch & _ & Hstep).
    apply bind_Ok_inv in Hstep as ([features metadata] & Hbatch & Hstep).
    apply bind_Ok_inv in Hstep as (res & _ & [= <- _]).
    rewrite concat_app. apply Forall_app. split; [done|].
    simpl. rewrite app_nil_r. by eapply process_batch_width.
Qed.

Lemma gathered_rows_width (ranks : list nat)
    (gathered : list (list (list Vector) * option Metadata)) :
  map_result (shard_pass config dataset os_makedirs save_image
                base_model_extract_features image_open_L preprocess_image) ranks
    = Ok gathered ->
  Forall (fun v => length v = D) (gathered_rows gathered).
Proof.
  intros H%map_result_Forall2. unfold gathered_rows.
  induction H as [|r [fs omd] ranks gathered Hpass _ IH]; simpl; [constructor|].
  apply Forall_app. split; [|done].
  unfold shard_pass in Hpass. destruct (_ <=? _)%Z; [done|].
  eapply (shard_loop_width _ [] fs None omd); [constructor|exact Hpass].
Qed.

End RowWidths.

Lemma reconcile_deterministic_rows
    (gathered : list (list (list Vector) * option Metadata))
    (feats : list Vector) (md : Metadata) (D : nat) :
  reconcile gathered = Ok (feats, md) ->
  Forall (fun v => length v = D) (gathered_rows gathered) ->
  Forall (fun v => length v = D) feats.
Proof.
  intros Hrec Hwidth.
  destruct (reconcile_sorted _ _ _ Hrec) as (_ & _ & _ & _ & σ & _ & Hrows & _).
  rewrite Forall_forall in Hwidth. clear Hrec.
  induction Hrows as [|i v σ feats Hv _ IH]; [constructor|].
  constructor; [|done]. apply Hwidth. by eapply list_elem_of_lookup_2.
Qed.

(** Gathered logs in which id 10 stands twice, and logs that miss the id
    20 of a dataset of ids 10, 20, 30: reconciliation returns on both,
    keeping the repeated id. *)
Lemma duplicate_ids_are_kept :
  (exists feats md,
      reconcile [ex_worker_log [10; 30]%Z; ex_worker_log [20; 10]%Z] = Ok (feats, md) /\
      md_id md = IdList [10; 10; 20; 30]%Z /\
      length feats = 4) /\
  (exists feats md,
      reconcile [ex_worker_log [10]%Z; ex_worker_log [30]%Z] = Ok (feats, md) /\
      md_id md = IdList [10; 30]%Z /\
      length feats = 2).
Proof. split; eexists _, _; repeat split; vm_compute; reflexivity. Qed.

(** C3, as the code has it: canonicalization checks nothing.  On the logs
    of at least one worker, each a populated log with as many feature rows
    and column entries as ids, all rows of one width, reconciliation always
    returns, whether ids repeat or are missing: the reconciled id column is
    a permutation of the gathered ids, and the feature matrix, of the same
    width, and every other column have as many rows.  In a distributed run
    over a non-empty dataset, with an encoder that returns one vector of
    that width per image, the gathered logs are of this kind: their ids are
    the ids of the samples each worker drew, in rank and draw order,
    world_size * ceil(n / world_size) of them, and their reconciliation is
    the result set of every rank. *)
Theorem reconcile_keeps_every_row
    (gathered : list (list (list Vector) * option Metadata)) (D : nat)
    (Hworkers : 0 < length gathered)
    (Hlogs : Forall log_wf gathered)
    (Hwidth : Forall (fun v => length v = D) (gathered_rows gathered)) :
  (exists feats md,
      reconcile gathered = Ok (feats, md) /\
      Permutation (id_values (md_id md)) (gathered_ids gathered) /\
      length feats = length (gathered_ids gathered) /\
      (forall f, length (md_col f md) = length (gathered_ids gathered)) /\
      Forall (fun v => length v = D) feats) /\
  (forall (config : Config) (dataset : list Sample)
          (os_makedirs : string -> result unit)
          (save_image : Tensor float32 -> string -> result unit)
          (base_model_extract_features : Tensor float32 -> result (list Vector))
          (image_open_L : string -> result GrayImage)
          (preprocess_image : GrayImage -> Z -> result GrayImage)
          (rank : nat) (run_gathered : list (list (list Vector) * option Metadata)),
      (forall t features,
          base_model_extract_features t = Ok features ->
          size t 0 = Ok (length features) /\
          Forall (fun v => length v = D) features) ->
      distributed config = true ->
      0 < length dataset ->
      rank < world_size config ->
      map_result (shard_pass config dataset os_makedirs save_image
                    base_model_extract_features image_open_L preprocess_image)
        (seq 0 (world_size config)) = Ok run_gathered ->
      0 < length run_gathered /\
      Forall log_wf run_gathered /\
      Forall (fun v => length v = D) (gathered_rows run_gathered) /\
      gathered_ids run_gathered
        = concat (map (fun r => ids_at dataset
                                  (DistributedSampler (length dataset)
                                     (world_size config) r))
                    (seq 0 (world_size config))) /\
      length (gathered_ids run_gathered)
        = world_size config * ceil_div (length dataset) (world_size config) /\
      exists feats md,
        reconcile run_gathered = Ok (feats, md) /\
        global_result_set config dataset os_makedirs save_image
          base_model_extract_features image_open_L preprocess_image rank
        = Ok (feats, Some md)).
Proof.
  split.
  - destruct (reconcile_total gathered Hworkers Hlogs)
      as (feats & md & Hrec & Hperm & Hrows & Hcols).
    exists feats, md. split; [done|]. split; [done|]. split; [done|]. split; [done|].
    by eapply reconcile_deterministic_rows.
  - intros config dataset os_makedirs save_image base_model_extract_features
      image_open_L preprocess_image rank run_gathered Hencoder Hdistributed Hdataset
      Hrank Hgather.
    assert (Hw : 1 <= world_size config) by lia.
    assert (Hrows : forall t features,
               base_model_extract_features t = Ok features ->
               size t 0 = Ok (length features)).
    { intros t features H. by destruct (Hencoder t features H). }
    destruct (gathered_logs_spec config dataset os_makedirs save_image
                base_model_extract_features image_open_L preprocess_image
                Hrows Hdistributed Hdataset (seq 0 (world_size config)) run_gathered)
      as [Hwf Hids]; [apply Forall_seq; lia|done|].
    assert (Hlen : length run_gathered = world_size config).
    { apply map_result_Forall2, Forall2_length in Hgather.
      by rewrite length_seq in Hgather. }
    split; [lia|]. split; [done|]. split.
    { apply (gathered_rows_width config dataset os_makedirs save_image
               base_model_extract_features image_open_L preprocess_image D)
        with (ranks := seq 0 (world_size config)); [|exact Hgather].
      intros t features H. by destruct (Hencoder t features H). }
    split; [done|]. split.
    { rewrite Hids.
      rewrite (length_concat_map_const _ _
                 (ceil_div (length dataset) (world_size config))), length_seq; [done|].
      apply Forall_seq. intros r Hr.
      rewrite ids_at_length by (by apply DistributedSampler_bound).
      apply DistributedSampler_length; [done|lia]. }
    destruct (reconcile_total run_gathered) as (feats & md & Hrec & _); [lia|done|].
    exists feats, md. split; [done|].
    unfold global_result_set.
    assert (Hown : exists own,
               shard_pass config dataset os_makedirs save_image
                 base_model_extract_features image_open_L preprocess_image rank
               = Ok own).
    { apply map_result_Forall2 in Hgather.
      destruct (lookup_lt_is_Some_2 run_gathered rank) as [own Hown]; [lia|].
      exists own.
      eapply (Forall2_lookup_lr _ _ _ rank rank own Hgather); [|done].
      by apply lookup_seq_lt. }
    destruct Hown as [[own_features own_metadata] ->]. simpl.
    rewrite Hdistributed, Hgather. simpl. rewrite Hrec. done.
Qed.

Lemma reconcile_keeps_every_row_witness :
  exists feats md,
    reconcile [ex_worker_log [10; 30]%Z; ex_worker_log [20; 10]%Z] = Ok (feats, md) /\
    Permutation (id_values (md_id md)) [10; 30; 20; 10]%Z /\
    length feats = 4.
Proof.
  destruct (reconcile_keeps_every_row
              [ex_worker_log [10; 30]%Z; ex_worker_log [20; 10]%Z] 1)
    as [(feats & md & Hrec & Hperm & Hrows & _) _].
  - simpl. lia.
  - repeat constructor; eexists _, _; (split; [reflexivity|]);
      (split; [reflexivity|]); (split; [reflexivity|]); by intros [].
  - repeat constructor.
  - exists feats, md. split; [exact Hrec|]. split; [exact Hperm|]. exact Hrows.
Defined.

(** C2 on the code: after the global flatten the features and the five
    string columns are the workers' in worker-rank order, but the id tensor
    is the workers' in reverse worker order.  At the logs {worker0: [3,1],
    worker1: [4,2]} the features and string columns are those of samples
    3, 1, 4, 2 and the ids are 4, 2, 3, 1: position 0 pairs the feature of
    sample 3 with id 4. *)
Theorem global_flatten_misaligns_ids
    (gathered : list (list (list Vector) * option Metadata)) :
  (flatten_features (map fst gathered) = gathered_rows gathered /\
   match flatten_metadata (map snd gathered) with
   | Ok flat_metadata =>
       log_ids flat_metadata
         = concat (map (fun w => log_ids (snd w)) (reverse gathered)) /\
       forall f, log_col f flat_metadata = gathered_col f gathered
   | Raise _ => True
   end) /\
  flatten_features (map fst [ex_worker_log [3; 1]%Z; ex_worker_log [4; 2]%Z])
    = map ex_vector [3; 1; 4; 2]%Z /\
  exists fm,
    flatten_metadata (map snd [ex_worker_log [3; 1]%Z; ex_worker_log [4; 2]%Z])
      = Ok (Some fm) /\
    md_id fm = IdTensor [4; 2; 3; 1]%Z /\
    md_object_name fm = ["obj3"; "obj1"; "obj4"; "obj2"] /\
    md_image_path fm = ["img3"; "img1"; "img4"; "img2"] /\
    md_mask_path fm = ["mask3"; "mask1"; "mask4"; "mask2"].
Proof.
  split; [|split; [|eexists]; repeat split; vm_compute; reflexivity].
  split; [apply flatten_features_rows|].
  destruct (flatten_metadata (map snd gathered)) as [res|e] eqn:Hflat; [|done].
  split; [|intros f; by apply flat_col_rank_order].
  apply flatten_metadata_from_spec in Hflat as [Hids _].
  rewrite Hids. simpl. rewrite app_nil_r.
  change (map snd gathered) with (snd <$> gathered).
  rewrite <- fmap_reverse. change (snd <$> reverse gathered) with (map snd (reverse gathered)).
  by rewrite map_map.
Qed.


(** C9: over an empty dataset every run raises and writes no artifact, in
    whatever configuration ([np.vstack] of no batch in single-process mode,
    the missing ['id'] key of the empty dict in distributed mode); a dataset
    of one sample with one worker gives a result set of exactly one row in
    both modes. *)
Theorem empty_dataset_raises (config : Config)
    (os_makedirs : string -> result unit)
    (save_image : Tensor float32 -> string -> result unit)
    (base_model_extract_features : Tensor float32 -> result (list Vector))
    (image_open_L : string -> result GrayImage)
    (preprocess_image : GrayImage -> Z -> result GrayImage)
    (rank : nat) (model_type : string) :
  (exists e,
      run_extraction config [] os_makedirs save_image base_model_extract_features
        image_open_L preprocess_image rank model_type = (no_artifacts, Raise e)) /\
  ex_run false 1 2 [] 0
    = (no_artifacts, Raise (ValueError "need at least one array to concatenate")) /\
  ex_run true 2 2 [] 0 = (no_artifacts, Raise (KeyError "id")) /\
  (exists md, ex_global_result_set false 1 2 [7]%Z 0 = Ok ([ex_vector 7], Some md) /\
              id_values (md_id md) = [7]%Z) /\
  (exists md, ex_global_result_set true 1 2 [7]%Z 0 = Ok ([ex_vector 7], Some md) /\
              id_values (md_id md) = [7]%Z).
Proof.
  split; [|repeat split; try eexists; repeat split; vm_compute; reflexivity].
  unfold run_extraction.
  destruct (empty_global_result_set config os_makedirs save_image
              base_model_extract_features image_open_L preprocess_image rank)
    as (e & -> & _).
  destruct (distributed config && negb (rank <? world_size config)); simpl;
    [by eexists|].
  destruct (dict_get (models config) model_type) as [mc|e']; simpl; [|by eexists].
  destruct (create_model model_type mc) as [?|e']; simpl; by eexists.
Qed.

(** ** Further properties: the batch path *)

(** *** Sample images: the loop stays within the two batches *)

Lemma for_each_all_ok {A : Type} (body : A -> result unit) (xs : list A) :
  Forall (fun x => body x = Ok tt) xs -> for_each body xs = Ok tt.
Proof. induction 1 as [|x xs Hx _ IH]; simpl; [done|]. by rewrite Hx. Qed.

Lemma for_each_first_failure {A : Type} (body : A -> result unit)
    (done_ rest : list A) (x : A) (e : PyError) :
  Forall (fun y => body y = Ok tt) done_ -> body x = Raise e ->
  for_each body (done_ ++ x :: rest) = Raise e.
Proof.
  intros Hok Hx. induction Hok as [|y ys Hy _ IH]; simpl.
  - by rewrite Hx.
  - by rewrite Hy.
Qed.

Lemma tensor_index_in_range {A : Type} (t : Tensor A) (n i : nat) (rest : list nat) :
  shape t = n :: rest -> i < n -> exists u, tensor_index t i = Ok u.
Proof.
  intros Hs Hi. unfold tensor_index. rewrite Hs.
  destruct (Nat.ltb_spec i n); [by eexists|lia].
Qed.

Lemma tensor_index_out_of_range {A : Type} (t : Tensor A) (n i : nat) (rest : list nat) :
  shape t = n :: rest -> n <= i -> tensor_index t i = Raise IndexError.
Proof.
  intros Hs Hi. unfold tensor_index. rewrite Hs.
  destruct (Nat.ltb_spec i n); [lia|done].
Qed.

(** X1: [save_sample_images] reads the first min(num_samples, B) slices of both
    batches, B being the size of the original images only: with a file
    system that accepts every write it returns normally when the masked
    batch holds at least that many images, and raises IndexError at the
    first missing masked image otherwise. *)
Theorem save_sample_images_bounds (config : Config)
    (os_makedirs : string -> result unit)
    (save_image : Tensor float32 -> string -> result unit)
    (original_images masked_images : Tensor float32)
    (num_samples B B' : nat) (rest rest' : list nat)
    (Hmakedirs : forall path, os_makedirs path = Ok tt)
    (Hsave : forall t path, save_image t path = Ok tt)
    (Horiginal : shape original_images = B :: rest)
    (Hmasked : shape masked_images = B' :: rest') :
  (Nat.min num_samples B <= B' ->
   save_sample_images config os_makedirs save_image original_images masked_images
     num_samples = Ok tt) /\
  (B' < Nat.min num_samples B ->
   save_sample_images config os_makedirs save_image original_images masked_images
     num_samples = Raise IndexError).
Proof.
  assert (Hbody_ok : forall i dir1 dir2, i < B -> i < B' ->
            (o ← tensor_index original_images i;
             save_image o (path_join dir1 ("original_" +:+ pretty i +:+ ".png"));;
             m ← tensor_index masked_images i;
             save_image m (path_join dir2 ("masked_" +:+ pretty i +:+ ".png"))) = Ok tt).
  { intros i dir1 dir2 Hi Hi'.
    destruct (tensor_index_in_range _ _ i _ Horiginal Hi) as [o ->].
    destruct (tensor_index_in_range _ _ i _ Hmasked Hi') as [m ->].
    simpl. rewrite Hsave. simpl. by rewrite Hsave. }
  unfold save_sample_images, size, py_index. rewrite Horiginal. simpl.
  rewrite !Hmakedirs. simpl. split.
  - intros Hle. apply for_each_all_ok, Forall_seq. intros i Hi.
    apply Hbody_ok; lia.
  - intros Hlt.
    replace (Nat.min num_samples B)
      with (B' + S (Nat.min num_samples B - S B')) by lia.
    rewrite seq_app. simpl.
    apply for_each_first_failure.
    + apply Forall_seq. intros i Hi. apply Hbody_ok; lia.
    + destruct (tensor_index_in_range _ _ B' _ Horiginal ltac:(lia)) as [o ->].
      simpl. rewrite Hsave. simpl.
      by rewrite (tensor_index_out_of_range _ _ B' _ Hmasked).
Qed.

Lemma save_sample_images_bounds_witness :
  save_sample_images (ex_config false 1 2) ex_makedirs ex_save_image
    (ex_images 7) (ex_masks 7) 5 = Ok tt.
Proof.
  apply (save_sample_images_bounds (ex_config false 1 2) ex_makedirs ex_save_image
           (ex_images 7) (ex_masks 7) 5 7 7 [1; 1; 1] [1; 1; 1]);
    [reflexivity|reflexivity|reflexivity|reflexivity|simpl; lia].
Defined.

(** *** The mask buffer of a batch *)

Lemma bcast_compat_refl (sh : list nat) : bcast_compat sh sh.
Proof. unfold bcast_compat. induction sh; constructor; auto. Qed.

Lemma tensor_setitem_exact {A : Type} (t v : Tensor A) (n i : nat) (rest : list nat) :
  shape t = n :: rest -> i < n -> shape v = rest -> tensor_wf v ->
  tensor_setitem t i v
  = Ok (mkTensor (shape t)
          (take (i * numel rest) (elems t) ++ elems v
             ++ drop (i * numel rest + numel rest) (elems t))).
Proof.
  intros Ht Hi Hv Hwf. unfold tensor_setitem. rewrite Ht.
  destruct (Nat.ltb_spec i n); [|lia].
  rewrite Hv, bool_decide_eq_true_2 by apply bcast_compat_refl.
  rewrite bcast_data_id; [done|]. unfold tensor_wf in Hwf. by rewrite Hwf, Hv.
Qed.

Section Slices.
Context {A : Type}.
Implicit Types (d v : list A).

Lemma slice_of_written d v (i k : nat) :
  i * k + k <= length d -> length v = k ->
  take k (drop (i * k) (take (i * k) d ++ v ++ drop (i * k + k) d)) = v.
Proof.
  intros Hd Hv.
  rewrite drop_app_length'; [|rewrite length_take; lia].
  rewrite take_app_length'; done.
Qed.

Lemma slice_of_other d v (i j k : nat) :
  i * k + k <= length d -> length v = k -> j <> i ->
  take k (drop (j * k) (take (i * k) d ++ v ++ drop (i * k + k) d))
  = take k (drop (j * k) d).
Proof.
  intros Hd Hv Hji. apply list_eq. intros p.
  destruct (Nat.lt_ge_cases p k) as [Hp|Hp].
  - rewrite !lookup_take_lt, !lookup_drop by done.
    destruct (Nat.lt_ge_cases j i) as [Hlt|Hge].
    + assert (j * k + p < i * k) by nia.
      rewrite lookup_app_l by (rewrite length_take; lia).
      by rewrite lookup_take_lt.
    + assert (i * k + k <= j * k + p) by nia.
      rewrite lookup_app_r by (rewrite length_take; lia).
      rewrite length_take, lookup_app_r by lia.
      rewrite lookup_drop. f_equal. lia.
  - rewrite !lookup_take_ge; done.
Qed.
End Slices.

Lemma tensor_setitem_spec {A : Type} (t v : Tensor A) (n i : nat) (rest : list nat) :
  shape t = n :: rest -> tensor_wf t -> i < n -> shape v = rest -> tensor_wf v ->
  exists t',
    tensor_setitem t i v = Ok t' /\
    shape t' = shape t /\ tensor_wf t' /\
    tensor_index t' i = Ok v /\
    forall j, j <> i -> tensor_index t' j = tensor_index t j.
Proof.
  intros Ht Hwf Hi Hv Hwfv.
  pose proof (tensor_setitem_exact t v n i rest Ht Hi Hv Hwfv) as Hset.
  unfold tensor_wf in Hwf, Hwfv. rewrite Ht in Hwf. rewrite Hv in Hwfv.
  simpl in Hwf. fold (numel rest) in Hwf.
  assert (Hfit : i * numel rest + numel rest <= length (elems t)) by nia.
  eexists. split; [exact Hset|].
  split; [done|]. split; [|split].
  - unfold tensor_wf. cbn [shape elems]. rewrite Ht. simpl. fold (numel rest).
    rewrite !length_app, length_take, length_drop. nia.
  - unfold tensor_index. cbn [shape elems]. rewrite Ht.
    destruct (Nat.ltb_spec i n); [|lia].
    rewrite slice_of_written by done. destruct v as [sv dv]. simpl in *. by subst.
  - intros j Hj. unfold tensor_index. cbn [shape elems]. rewrite Ht.
    destruct (j <? n); [|done].
    by rewrite slice_of_other.
Qed.

Lemma zeros_wf (sh : list nat) : tensor_wf (zeros sh).
Proof. unfold tensor_wf, zeros. simpl. by rewrite length_replicate. Qed.

Lemma zeros_index (n i : nat) (rest : list nat) :
  i < n -> tensor_index (zeros (n :: rest)) i = Ok (zeros rest).
Proof.
  intros Hi. unfold tensor_index, zeros. simpl. fold (numel rest).
  destruct (Nat.ltb_spec i n); [|lia]. do 2 f_equal.
  rewrite drop_replicate, take_replicate. f_equal. nia.
Qed.

Section MaskBuffer.
Variable config : Config.
Variable image_open_L : string -> result GrayImage.
Variable preprocess_image : GrayImage -> Z -> result GrayImage.

Lemma load_masks_app (masks : Tensor float32) (i : nat) (l1 l2 : list string) :
  load_masks config image_open_L preprocess_image masks i (l1 ++ l2)
  = (m ← load_masks config image_open_L preprocess_image masks i l1;
     load_masks config image_open_L preprocess_image m (i + length l1) l2).
Proof.
  revert masks i. induction l1 as [|p l1 IH]; intros masks i; simpl.
  - by rewrite Nat.add_0_r.
  - destruct (load_mask_into _ _ _ _ _ _) as [m|e]; simpl; [|done].
    rewrite IH. by replace (S i + length l1) with (i + S (length l1)) by lia.
Qed.

Lemma load_masks_spec (B H W : nat) (paths : list string) (gs : list GrayImage)
    (masks : Tensor float32) (i0 : nat) :
  shape masks = [B; 1; H; W] -> tensor_wf masks ->
  Forall2 (fun path g => decoded_mask config image_open_L preprocess_image path g /\
                       gray_fits H W g) paths gs ->
  i0 + length paths <= B ->
  exists masks',
    load_masks config image_open_L preprocess_image masks i0 paths = Ok masks' /\
    shape masks' = [B; 1; H; W] /\ tensor_wf masks' /\
    (forall j g, gs !! j = Some g -> tensor_index masks' (i0 + j) = Ok (ToTensor g)) /\
    (forall k, k < i0 \/ i0 + length paths <= k ->
               tensor_index masks' k = tensor_index masks k).
Proof.
  intros Hshape Hwf Hdec. revert masks i0 Hshape Hwf.
  induction Hdec as [|path g paths gs [Hd Hfit] _ IH]; intros masks i0 Hshape Hwf Hlen.
  - exists masks. simpl. repeat split; done.
  - simpl in Hlen. destruct Hd as (raw & target & rest & Hopen & Htarget & Hpre).
    destruct Hfit as (Hh & Hw & Hpix).
    assert (HsT : shape (ToTensor g) = [1; H; W]) by (unfold ToTensor; simpl; congruence).
    assert (HwfT : tensor_wf (ToTensor g)).
    { unfold tensor_wf, ToTensor. simpl. rewrite length_map, Hpix, Hh, Hw. lia. }
    destruct (tensor_setitem_spec masks (ToTensor g) B i0 [1; H; W])
      as (m1 & Hset & Hs1 & Hwf1 & Hsame & Hother); try done; [lia|].
    destruct (IH m1 (S i0)) as (m2 & Hload & Hs2 & Hwf2 & Hget & Hkeep);
      [congruence|done|lia|].
    exists m2. split.
    { simpl. unfold load_mask_into. rewrite Hopen. simpl. rewrite Htarget. simpl.
      rewrite Hpre. simpl. rewrite Hset. simpl. exact Hload. }
    split; [done|]. split; [done|]. split.
    + intros [|j] g' Hj; simpl in Hj.
      * injection Hj as <-. rewrite Nat.add_0_r.
        rewrite Hkeep by lia. done.
      * replace (i0 + S j) with (S i0 + j) by lia. by apply Hget.
    + intros k Hk. simpl in Hk. rewrite Hkeep by lia. apply Hother. lia.
Qed.

End MaskBuffer.

(** X2: the mask buffer of [process_batch].  When every listed mask path
    decodes to an image of the batch's height and width and there are at
    most B paths, the loop returns a well-formed buffer of shape
    (B, 1, H, W) whose j-th slice is [ToTensor] of the j-th decoded mask;
    the slices beyond the listed paths are still the zeros the buffer was
    created with. *)
Theorem mask_buffer_contents (config : Config)
    (image_open_L : string -> result GrayImage)
    (preprocess_image : GrayImage -> Z -> result GrayImage)
    (B H W : nat) (paths : list string) (gs : list GrayImage)
    (Hdecoded : Forall2 (fun path g =>
                   decoded_mask config image_open_L preprocess_image path g /\
                   gray_fits H W g) paths gs)
    (Hfits : length paths <= B) :
  exists masks,
    load_masks config image_open_L preprocess_image (zeros [B; 1; H; W]) 0 paths
      = Ok masks /\
    shape masks = [B; 1; H; W] /\ tensor_wf masks /\
    (forall j g, gs !! j = Some g -> tensor_index masks j = Ok (ToTensor g)) /\
    (forall k, length paths <= k < B -> tensor_index masks k = Ok (zeros [1; H; W])).
Proof.
  destruct (load_masks_spec config image_open_L preprocess_image B H W paths gs
              (zeros [B; 1; H; W]) 0)
    as (masks & Hload & Hshape & Hwf & Hget & Hkeep);
    [done|apply zeros_wf|done|simpl; lia|].
  exists masks. split; [done|]. split; [done|]. split; [done|]. split.
  - intros j g Hj. by apply (Hget j g).
  - intros k Hk. rewrite Hkeep by lia. apply zeros_index. lia.
Qed.

Lemma mask_buffer_contents_witness :
  exists masks,
    load_masks (ex_config false 1 2) ex_image_open ex_preprocess
      (zeros [2; 1; 1; 1]) 0 ["mask1"] = Ok masks /\
    tensor_index masks 0 = Ok (mkTensor [1; 1; 1] [f32_one]) /\
    tensor_index masks 1 = Ok (zeros [1; 1; 1]).
Proof.
  destruct (mask_buffer_contents (ex_config false 1 2) ex_image_open ex_preprocess
              2 1 1 ["mask1"]
              [{| gi_height := 1; gi_width := 1; gi_pixels := [255%Z] |}])
    as (masks & Hload & _ & _ & Hget & Hzero).
  - constructor; [|constructor]. split.
    + eexists _, 1%Z, 1%Z. repeat split; reflexivity.
    + repeat split; reflexivity.
  - simpl. lia.
  - exists masks. split; [exact Hload|]. split.
    + rewrite (Hget 0 _ eq_refl). vm_compute. reflexivity.
    + apply Hzero. simpl. lia.
Defined.

(** X3: inside [process_batch] the two batch sizes cannot differ.  For images
    of shape (B, C, H, W), whenever the masks are loaded the buffer has
    shape (B, 1, H, W), the mask composition succeeds with the shape of the
    images, and what is left of [process_batch] is the sample-image dump
    followed by the encoder, the metadata being handed back unchanged. *)
Theorem process_batch_cannot_mismatch (config : Config)
    (os_makedirs : string -> result unit)
    (save_image : Tensor float32 -> string -> result unit)
    (base_model_extract_features : Tensor float32 -> result (list Vector))
    (image_open_L : string -> result GrayImage)
    (preprocess_image : GrayImage -> Z -> result GrayImage)
    (images masks : Tensor float32) (metadata : Metadata) (B C H W : nat)
    (Himages : shape images = [B; C; H; W])
    (Hloaded : load_masks config image_open_L preprocess_image
                 (zeros [B; 1; H; W]) 0 (md_mask_path metadata) = Ok masks) :
  exists masked_images,
    masked_images_of images masks = Ok masked_images /\
    shape masked_images = shape images /\
    process_batch config os_makedirs save_image base_model_extract_features
      image_open_L preprocess_image (images, metadata)
    = (save_sample_images config os_makedirs save_image images masked_images 5;;
       features ← base_model_extract_features masked_images;
       Ok (features, metadata)).
Proof.
  pose proof (load_masks_shape _ _ _ _ _ _ _ Hloaded) as Hshape. cbn [zeros shape] in Hshape.
  assert (Hmasked : exists masked_images,
             masked_images_of images masks = Ok masked_images /\
             shape masked_images = [B; C; H; W]).
  { rewrite (masked_images_of_rank4 images masks B B C H W H W Himages Hshape).
    unfold tensor_mul, dim. rewrite Himages. cbn [shape elems length Nat.max].
    change (pad_shape 4 [B; C; H; W]) with [B; C; H; W].
    rewrite broadcast_shapes_refl. eexists. split; reflexivity. }
  destruct Hmasked as (masked & Hmasked & Hs).
  exists masked. split; [done|]. split; [congruence|].
  unfold process_batch, size, py_index. rewrite Himages. simpl.
  rewrite Hloaded. simpl. unfold extract_features. rewrite Hmasked. simpl.
  destruct (save_sample_images _ _ _ _ _ _) as [[]|e]; simpl; [|done].
  by destruct (base_model_extract_features masked).
Qed.

Lemma process_batch_cannot_mismatch_witness :
  exists masked_images,
    masked_images_of (ex_images 2) (ex_masks 2) = Ok masked_images /\
    shape masked_images = shape (ex_images 2).
Proof.
  destruct (process_batch_cannot_mismatch (ex_config false 1 2) ex_makedirs
              ex_save_image ex_encoder ex_image_open ex_preprocess
              (ex_images 2) (ex_masks 2)
              {| md_id := IdTensor [1; 2]%Z; md_object_name := ["a"; "b"];
                 md_data_dir := ["d"; "d"]; md_image_path := ["i1"; "i2"];
                 md_mask_path := ["m1"; "m2"]; md_dataset_type := ["t"; "t"] |}
              2 1 1 1 eq_refl)
    as (masked & Hmasked & Hshape & _).
  - vm_compute. reflexivity.
  - exists masked. split; assumption.
Defined.

(** X4: a mask that cannot be opened is fatal for the batch.  When the masks
    before it load, [process_batch] raises the very exception of
    [Image.open] for the first failing path (it is logged and re-raised):
    no mask is skipped and the encoder is not reached. *)
Theorem mask_load_failure_is_fatal (config : Config)
    (os_makedirs : string -> result unit)
    (save_image : Tensor float32 -> string -> result unit)
    (base_model_extract_features : Tensor float32 -> result (list Vector))
    (image_open_L : string -> result GrayImage)
    (preprocess_image : GrayImage -> Z -> result GrayImage)
    (images buffer : Tensor float32) (metadata : Metadata) (B C H W : nat)
    (loaded rest : list string) (failing : string) (e : PyError)
    (Himages : shape images = [B; C; H; W])
    (Hpaths : md_mask_path metadata = loaded ++ failing :: rest)
    (Hloaded : load_masks config image_open_L preprocess_image
                 (zeros [B; 1; H; W]) 0 loaded = Ok buffer)
    (Hfailing : image_open_L failing = Raise e) :
  process_batch config os_makedirs save_image base_model_extract_features
    image_open_L preprocess_image (images, metadata) = Raise e.
Proof.
  unfold process_batch, size, py_index. rewrite Himages. simpl.
  rewrite Hpaths, load_masks_app, Hloaded. simpl.
  unfold load_mask_into. rewrite Hfailing. reflexivity.
Qed.

Lemma mask_load_failure_is_fatal_witness :
  process_batch (ex_config false 1 2) ex_makedirs ex_save_image ex_encoder
    ex_image_open_missing ex_preprocess
    (ex_images 2,
     {| md_id := IdTensor [1; 2]%Z; md_object_name := ["a"; "b"];
        md_data_dir := ["d"; "d"]; md_image_path := ["i1"; "i2"];
        md_mask_path := ["mask1"; "mask2"]; md_dataset_type := ["t"; "t"] |})
  = Raise (OSError "No such file or directory").
Proof.
  eapply (mask_load_failure_is_fatal _ _ _ _ _ _ _ _ _ 2 1 1 1 ["mask1"] [] "mask2").
  - reflexivity.
  - reflexivity.
  - vm_compute. reflexivity.
  - reflexivity.
Defined.

(** *** Which mask pixels are foreground *)

Lemma binarize_idempotent (x : float32) :
  binarize f32_half (binarize f32_half x) = binarize f32_half x.
Proof. unfold binarize. by destruct (f32_ltb f32_half x). Qed.

Lemma pixel_foreground_table :
  forallb (fun p : Z =>
             Bool.eqb (f32_ltb f32_half (SFdiv 24 128 (f32_of_Z p) (f32_of_Z 255)))
                      (128 <=? p)%Z)
          (map Z.of_nat (seq 0 256)) = true.
Proof. vm_compute. reflexivity. Qed.

Lemma pixel_foreground (p : Z) :
  (0 <= p <= 255)%Z ->
  binarize f32_half (SFdiv 24 128 (f32_of_Z p) (f32_of_Z 255))
  = if (128 <=? p)%Z then f32_one else f32_zero.
Proof.
  intros Hp. pose proof pixel_foreground_table as Htable.
  rewrite forallb_forall in Htable.
  assert (Hin : In p (map Z.of_nat (seq 0 256))).
  { apply in_map_iff. exists (Z.to_nat p). split; [lia|]. apply in_seq. lia. }
  unfold binarize. by rewrite (Bool.eqb_prop _ _ (Htable p Hin)).
Qed.

(** X5: [ToTensor] followed by [_prepare_binary_mask] at the default threshold
    keeps a pixel of an 8-bit mask exactly when its value is at least 128
    (p / 255 > 0.5 in binary32), and binarizing twice is binarizing once. *)
Theorem mask_pixel_threshold (mask : GrayImage)
    (Hpixels : Forall (fun p => (0 <= p <= 255)%Z) (gi_pixels mask)) :
  _prepare_binary_mask (ToTensor mask) f32_half
  = mkTensor [1; gi_height mask; gi_width mask]
      (map (fun p => if (128 <=? p)%Z then f32_one else f32_zero) (gi_pixels mask)) /\
  forall m : Tensor float32,
    _prepare_binary_mask (_prepare_binary_mask m f32_half) f32_half
    = _prepare_binary_mask m f32_half.
Proof.
  split.
  - unfold _prepare_binary_mask, tmap, ToTensor. cbn [shape elems]. f_equal.
    rewrite map_map. apply map_ext_Forall.
    eapply Forall_impl; [exact Hpixels|]. intros p Hp. by apply pixel_foreground.
  - intros m. unfold _prepare_binary_mask, tmap. cbn [shape elems]. f_equal.
    rewrite map_map. apply map_ext. intros x. apply binarize_idempotent.
Qed.

Lemma mask_pixel_threshold_witness :
  _prepare_binary_mask
    (ToTensor {| gi_height := 1; gi_width := 4; gi_pixels := [0; 127; 128; 255]%Z |})
    f32_half
  = mkTensor [1; 1; 4] [f32_zero; f32_zero; f32_one; f32_one].
Proof.
  apply (mask_pixel_threshold
           {| gi_height := 1; gi_width := 4; gi_pixels := [0; 127; 128; 255]%Z |}).
  repeat constructor; simpl; lia.
Defined.

(** ** Further properties: shards and worker logs *)

(** *** Batches of a shard *)

Lemma ceil_div_unique (n w q : nat) :
  1 <= w -> n <= q * w -> q * w < n + w -> ceil_div n w = q.
Proof.
  intros Hw H1 H2. pose proof (ceil_div_bounds n w Hw) as Hb.
  set (c := ceil_div n w) in *.
  destruct (Nat.lt_trichotomy c q) as [Hlt|[Heq|Hgt]]; [|done|].
  - assert (S c * w <= q * w) by (apply Nat.mul_le_mono_r; lia). lia.
  - assert (S q * w <= c * w) by (apply Nat.mul_le_mono_r; lia). lia.
Qed.

Lemma batch_sampler_spec {A : Type} (bs : nat) (batch indices : list A) :
  1 <= bs -> length batch < bs ->
  Forall (fun b => 0 < length b <= bs) (batch_sampler bs batch indices) /\
  (forall k b, batch_sampler bs batch indices !! k = Some b ->
               S k < length (batch_sampler bs batch indices) -> length b = bs) /\
  length (batch_sampler bs batch indices)
    = ceil_div (length batch + length indices) bs.
Proof.
  intros Hbs. revert batch. induction indices as [|i indices IH]; intros batch Hlen.
  - simpl. destruct batch as [|a batch].
    + split; [constructor|]. split; [done|]. simpl.
      symmetry. apply ceil_div_unique; lia.
    + split; [constructor; [simpl in *; lia|constructor]|]. split.
      * intros [|k] b Hk Hlast; simpl in *; lia.
      * simpl length at 1. symmetry. apply ceil_div_unique; simpl in *; lia.
  - simpl. destruct (Nat.eqb_spec (length (batch ++ [i])) bs) as [Hfull|Hnot].
    + destruct (IH []) as (Hall & Hinner & Hcount); [simpl; lia|].
      split; [constructor; [lia|done]|]. split.
      * intros [|k] b Hk Hlast; simpl in *.
        -- by injection Hk as <-.
        -- apply (Hinner k b Hk). lia.
      * simpl length at 1. rewrite Hcount. simpl.
        rewrite length_app in Hfull. simpl in Hfull.
        pose proof (ceil_div_bounds (length indices) bs Hbs) as Hb.
        symmetry. apply ceil_div_unique; lia.
    + rewrite length_app in Hnot. simpl in Hnot.
      destruct (IH (batch ++ [i])) as (Hall & Hinner & Hcount);
        [rewrite length_app; simpl; lia|].
      split; [done|]. split; [done|].
      rewrite Hcount, length_app. simpl. f_equal. lia.
Qed.

(** X6: the DataLoader's batches for a positive batch size: read in order they
    are the sampler's indices, none is empty or longer than the batch size,
    every batch but the last is full, and there are
    ceil(len(indices) / batch_size) of them. *)
Theorem dataloader_batches (bs : nat) (indices : list nat) (Hbs : 1 <= bs) :
  concat (batch_sampler bs [] indices) = indices /\
  Forall (fun b => 0 < length b <= bs) (batch_sampler bs [] indices) /\
  (forall k b, batch_sampler bs [] indices !! k = Some b ->
               S k < length (batch_sampler bs [] indices) -> length b = bs) /\
  length (batch_sampler bs [] indices) = ceil_div (length indices) bs.
Proof.
  split; [apply (batch_sampler_concat bs [] indices)|].
  apply (batch_sampler_spec bs [] indices Hbs). simpl. lia.
Qed.

Lemma dataloader_batches_witness :
  concat (batch_sampler 2 [] [0; 2; 4; 6; 8]) = [0; 2; 4; 6; 8] /\
  length (batch_sampler 2 [] [0; 2; 4; 6; 8]) = 3.
Proof.
  destruct (dataloader_batches 2 [0; 2; 4; 6; 8]) as (Hc & _ & _ & Hn); [lia|].
  split; [exact Hc|]. rewrite Hn. reflexivity.
Defined.

(** *** The sampler in closed form *)

Lemma lookup_cycle (n c k : nat) :
  1 <= n -> k < c * n -> concat (replicate c (seq 0 n)) !! k = Some (k mod n).
Proof.
  intros Hn Hk.
  pose proof (Nat.div_mod_eq k n) as Hdm.
  pose proof (Nat.mod_upper_bound k n ltac:(lia)) as Hub.
  replace k with (k / n * n + k mod n) at 1 by lia.
  rewrite (lookup_concat_uniform _ n) by (apply Forall_replicate, length_seq || done).
  assert (Hq : k / n < c).
  { destruct (Nat.lt_ge_cases (k / n) c) as [|Hge]; [done|].
    assert (c * n <= k / n * n) by (apply Nat.mul_le_mono_r; lia). lia. }
  rewrite lookup_replicate_2 by done. simpl. by rewrite lookup_seq_lt.
Qed.

Lemma sampler_padded_lookup (n w k : nat) :
  1 <= n -> 1 <= w -> k < sampler_total_size n w ->
  sampler_padded_indices n w !! k = Some (k mod n).
Proof.
  intros Hn Hw Hk.
  destruct (Nat.lt_ge_cases k n) as [Hlt|Hge].
  { rewrite sampler_padded_prefix by done. by rewrite Nat.mod_small. }
  unfold sampler_total_size, sampler_num_samples in Hk.
  unfold sampler_padded_indices, sampler_total_size, sampler_num_samples.
  rewrite length_seq.
  assert (Hmod : k mod n = (k - n) mod n).
  { replace k with ((k - n) + 1 * n) at 1 by lia. apply Nat.Div0.mod_add. }
  destruct (Nat.leb_spec (ceil_div n w * w - n) n) as [Hle|Hgt];
    rewrite lookup_app_r by (rewrite length_seq; lia);
    rewrite length_seq, lookup_take_lt by lia.
  - rewrite lookup_seq_lt by lia. rewrite Hmod, Nat.mod_small by lia. done.
  - pose proof (ceil_div_bounds (ceil_div n w * w - n) n Hn) as Hb.
    rewrite lookup_cycle by lia. by rewrite Hmod.
Qed.

(** X7: the shard of a worker in closed form.  In distributed mode over a
    non-empty dataset of n samples, worker [rank] draws the indices
    (rank + j * world_size) mod n for j = 0 .. ceil(n / world_size) - 1, in
    that order: the padding wraps around to the head of the dataset. *)
Theorem sampler_draws_modulo (config : Config) (dataset : list Sample) (rank : nat)
    (Hdistributed : distributed config = true)
    (Hdataset : 1 <= length dataset)
    (Hrank : rank < world_size config) :
  shard_indices config dataset rank
  = map (fun j => (rank + j * world_size config) mod length dataset)
      (seq 0 (ceil_div (length dataset) (world_size config))).
Proof.
  unfold shard_indices. rewrite Hdistributed.
  set (n := length dataset) in *. set (w := world_size config) in *.
  assert (Hw : 1 <= w) by lia.
  apply list_eq. intros j.
  change (map ?f ?l) with (f <$> l). rewrite list_lookup_fmap.
  rewrite DistributedSampler_lookup by done.
  pose proof (ceil_div_bounds n w Hw) as Hb.
  destruct (Nat.lt_ge_cases j (ceil_div n w)) as [Hj|Hj].
  - rewrite lookup_seq_lt by done. simpl.
    apply sampler_padded_lookup; [done..|].
    unfold sampler_total_size, sampler_num_samples.
    assert (S j * w <= ceil_div n w * w) by (apply Nat.mul_le_mono_r; lia). lia.
  - rewrite lookup_seq_ge by done. simpl.
    apply lookup_ge_None. rewrite sampler_padded_length by done.
    unfold sampler_total_size, sampler_num_samples.
    assert (ceil_div n w * w <= j * w) by (apply Nat.mul_le_mono_r; lia). lia.
Qed.

Lemma sampler_draws_modulo_witness :
  shard_indices (ex_config true 2 2) (map ex_sample [10; 20; 30]%Z) 1 = [1; 0].
Proof.
  rewrite (sampler_draws_modulo (ex_config true 2 2) (map ex_sample [10; 20; 30]%Z) 1);
    [reflexivity|reflexivity|simpl; lia|simpl; lia].
Defined.

(** *** A worker's log follows its draw order *)

Section WorkerLog.

Variable config : Config.
Variable dataset : list Sample.
Variable os_makedirs : string -> result unit.
Variable save_image : Tensor float32 -> string -> result unit.
Variable base_model_extract_features : Tensor float32 -> result (list Vector).
Variable image_open_L : string -> result GrayImage.
Variable preprocess_image : GrayImage -> Z -> result GrayImage.

(** X8: what a worker has accumulated when its loop ends.  The id column and
    each of the five string columns hold the values of the samples at the
    worker's indices, in draw order; the feature list holds one matrix per
    batch, ceil(len(indices) / batch_size) of them; and the id column is
    still a tensor whenever the shard is not empty. *)
Theorem worker_log_in_draw_order (rank : nat)
    (log : list (list Vector) * option Metadata)
    (Hpass : shard_pass config dataset os_makedirs save_image
               base_model_extract_features image_open_L preprocess_image rank
             = Ok log) :
  log_ids (snd log) = ids_at dataset (shard_indices config dataset rank) /\
  (forall f, log_col f (snd log)
             = fields_at f dataset (shard_indices config dataset rank)) /\
  length (fst log) = ceil_div (length (shard_indices config dataset rank))
                       (Z.to_nat (batch_size (data config))) /\
  (shard_indices config dataset rank <> [] ->
   exists m v, snd log = Some m /\ md_id m = IdTensor v).
Proof.
  unfold shard_pass in Hpass.
  destruct (Z.leb_spec (batch_size (data config)) 0) as [|Hbs]; [done|].
  destruct log as [fs omd].
  apply shard_loop_log in Hpass as (Hids & Hcols & Hlen & Hsome).
  rewrite batch_sampler_concat in Hids, Hcols. simpl in *.
  split; [done|]. split; [done|]. split.
  - rewrite Hlen. apply (batch_sampler_spec _ [] _); simpl; lia.
  - intros Hne. apply Hsome. intros Hnil.
    pose proof (batch_sampler_concat (Z.to_nat (batch_size (data config))) []
                  (shard_indices config dataset rank)) as Hconcat.
    rewrite Hnil in Hconcat. simpl in Hconcat. done.
Qed.

End WorkerLog.

Lemma worker_log_in_draw_order_witness :
  exists log,
    shard_pass (ex_config true 2 1) (map ex_sample [3; 4; 1; 2]%Z)
      ex_makedirs ex_save_image ex_encoder ex_image_open ex_preprocess 1 = Ok log /\
    log_ids (snd log) = [4; 2]%Z /\
    log_col MaskPath (snd log) = ["mask4"; "mask2"] /\
    length (fst log) = 2.
Proof.
  assert (Hpass : exists log,
             shard_pass (ex_config true 2 1) (map ex_sample [3; 4; 1; 2]%Z)
               ex_makedirs ex_save_image ex_encoder ex_image_open ex_preprocess 1
             = Ok log) by (eexists; vm_compute; reflexivity).
  destruct Hpass as [log Hpass].
  destruct (worker_log_in_draw_order _ _ _ _ _ _ _ _ _ Hpass)
    as (Hids & Hcols & Hlen & _).
  exists log. split; [exact Hpass|].
  rewrite Hids, (Hcols MaskPath), Hlen. repeat split; vm_compute; reflexivity.
Defined.

(** ** Further properties: the encoder classes *)

Lemma stack_images_spec (tensors : list (Tensor float32)) (s : list nat) :
  tensors <> [] ->
  Forall (fun t => shape t = s) tensors -> Forall tensor_wf tensors ->
  exists stacked,
    stack_images tensors = Ok stacked /\
    shape stacked = length tensors :: s /\ tensor_wf stacked /\
    forall i t, tensors !! i = Some t -> tensor_index stacked i = Ok t.
Proof.
  intros Hne Hshape Hwf.
  assert (Hlens : Forall (fun l => length l = numel s) (map elems tensors)).
  { apply Forall_fmap. rewrite Forall_forall in Hshape, Hwf. apply Forall_forall.
    intros t Ht. simpl. rewrite <- (Hshape t Ht). by apply Hwf. }
  destruct tensors as [|t0 tensors]; [done|].
  assert (Hs0 : shape t0 = s) by (by inversion Hshape).
  eexists. split.
  { unfold stack_images. rewrite (proj2 (forallb_forall _ _)); [reflexivity|].
    intros u Hu%list_elem_of_In. apply bool_decide_eq_true.
    rewrite Forall_forall in Hshape. rewrite (Hshape u Hu). done. }
  cbn [shape elems]. rewrite Hs0. split; [done|]. split.
  - unfold tensor_wf. cbn [shape elems numel foldr]. fold (numel s).
    rewrite (length_concat_uniform _ _ Hlens), length_map. done.
  - intros i t Hi. unfold tensor_index. cbn [shape elems].
    pose proof (lookup_lt_Some _ _ _ Hi) as Hlt.
    destruct (Nat.ltb_spec i (length (t0 :: tensors))); [|lia].
    f_equal.
    assert (Hslice : take (numel s) (drop (i * numel s) (concat (map elems (t0 :: tensors))))
                     = elems t).
    { apply list_eq. intros j.
      destruct (Nat.lt_ge_cases j (numel s)) as [Hj|Hj].
      - rewrite lookup_take_lt, lookup_drop by done.
        rewrite (lookup_concat_uniform _ (numel s)) by done.
        change (map elems (t0 :: tensors)) with (elems <$> (t0 :: tensors)).
        rewrite list_lookup_fmap, Hi. done.
      - rewrite lookup_take_ge by done. symmetry. apply lookup_ge_None.
        rewrite Forall_forall in Hlens.
        rewrite (Hlens (elems t)); [done|].
        apply list_elem_of_fmap. exists t. split; [done|].
        by eapply list_elem_of_lookup_2. }
    rewrite Hslice. destruct t as [st dt]. simpl.
    rewrite Forall_forall in Hshape.
    rewrite <- (Hshape (mkTensor st dt)); [done|]. by eapply list_elem_of_lookup_2.
Qed.

Lemma torch_stack_tensors {PIL : Type} (tensors : list (Tensor float32)) :
  torch_stack PIL (ImageList (map TensorInput tensors)) = stack_images tensors.
Proof.
  unfold torch_stack.
  assert (H : map_result
                (fun x : ImageInput PIL =>
                   match x with
                   | TensorInput t => Ok t
                   | PILInput _ =>
                       Raise (TypeError "expected Tensor as element of argument 'tensors'")
                   end) (map TensorInput tensors) = Ok tensors).
  { induction tensors as [|t ts IH]; [done|]. 
    cbn [map]. rewrite map_result_cons, IH. done. }
  rewrite H. done.
Qed.

(** X9: [CLIPModel.extract_features] on a non-empty list of well-formed
    tensors of one shape: nothing is preprocessed, the encoder is called
    once on the stacked batch, whose shape is the number of images followed
    by their shape and whose i-th slice is the i-th image. *)
Theorem clip_tensor_batch {PIL : Type}
    (clip_preprocess : ImageInput PIL -> result (Tensor float32))
    (encode_image : Tensor float32 -> result (list Vector))
    (tensors : list (Tensor float32)) (s : list nat)
    (Hnonempty : tensors <> [])
    (Hshape : Forall (fun t => shape t = s) tensors)
    (Hwf : Forall tensor_wf tensors) :
  exists stacked_images,
    CLIPModel_extract_features PIL clip_preprocess encode_image
      (ImageList (map TensorInput tensors)) = encode_image stacked_images /\
    shape stacked_images = length tensors :: s /\
    tensor_wf stacked_images /\
    forall i t, tensors !! i = Some t -> tensor_index stacked_images i = Ok t.
Proof.
  destruct (stack_images_spec tensors s Hnonempty Hshape Hwf)
    as (stacked & Hstack & Hs & Hwfs & Hget).
  exists stacked. split; [|done].
  unfold CLIPModel_extract_features, first_image, py_len.
  cbn [mbind result_bind rbind].
  assert (Hfirst : exists t0, py_index (map (@TensorInput PIL) tensors) 0
                               = Ok (TensorInput t0)).
  { destruct tensors as [|t0 tensors]; [done|]. by exists t0. }
  destruct Hfirst as [t0 ->]. cbn [mbind result_bind rbind].
  change (torch_stack PIL (ImageList (map TensorInput tensors)) ≫= encode_image
          = encode_image stacked).
  rewrite torch_stack_tensors, Hstack. done.
Qed.

Lemma clip_tensor_batch_witness :
  exists stacked_images,
    CLIPModel_extract_features unit (fun _ => Raise IndexError) ex_encoder
      (ImageList (map TensorInput [s_image (ex_sample 3); s_image (ex_sample 1)]))
    = ex_encoder stacked_images /\
    shape stacked_images = [2; 1; 1; 1] /\
    tensor_index stacked_images 1 = Ok (s_image (ex_sample 1)).
Proof.
  destruct (clip_tensor_batch (PIL := unit) (fun _ => Raise IndexError) ex_encoder
              [s_image (ex_sample 3); s_image (ex_sample 1)] [1; 1; 1])
    as (stacked & Hrun & Hshape & _ & Hget).
  - discriminate.
  - repeat constructor.
  - repeat constructor.
  - exists stacked. split; [exact Hrun|]. split; [exact Hshape|].
    apply (Hget 1). reflexivity.
Defined.

Lemma clip_batch_raises {PIL : Type}
    (clip_preprocess : ImageInput PIL -> result (Tensor float32))
    (encode_image : Tensor float32 -> result (list Vector)) (batch : Tensor float32) :
  CLIPModel_extract_features PIL clip_preprocess encode_image (ImageBatch batch)
  = (py_len (ImageBatch (PIL := PIL) batch);;
     tensor_index batch 0;;
     Raise (TypeError "stack(): argument 'tensors' must be tuple of Tensors, not Tensor")).
Proof.
  unfold CLIPModel_extract_features, first_image.
  destruct (py_len _); [|done]. cbn [mbind result_bind rbind].
  by destruct (tensor_index batch 0).
Qed.

(** X10: the arguments [CLIPModel.extract_features] rejects before the encoder
    is called: the empty list (IndexError at [images[0]]); a list that
    starts with a tensor and holds a PIL image further on (TypeError of
    [torch.stack], since only a leading PIL image triggers the
    preprocessing); and a batch tensor, which is how the pipeline calls it
    (TypeError of [torch.stack] on a non-empty batch, IndexError on an
    empty one, TypeError of [len] on a tensor of rank 0). *)
Theorem clip_rejected_batches {PIL : Type}
    (clip_preprocess : ImageInput PIL -> result (Tensor float32))
    (encode_image : Tensor float32 -> result (list Vector)) :
  CLIPModel_extract_features PIL clip_preprocess encode_image (ImageList [])
  = Raise IndexError /\
  (forall (t : Tensor float32) (before : list (Tensor float32)) (img : PIL)
          (after : list (ImageInput PIL)),
      CLIPModel_extract_features PIL clip_preprocess encode_image
        (ImageList (TensorInput t :: map TensorInput before ++ PILInput img :: after))
      = Raise (TypeError "expected Tensor as element of argument 'tensors'")) /\
  (forall batch : Tensor float32,
      CLIPModel_extract_features PIL clip_preprocess encode_image (ImageBatch batch)
      = match shape batch with
        | [] => Raise (TypeError "len() of a 0-d tensor")
        | 0 :: _ => Raise IndexError
        | S _ :: _ =>
            Raise (TypeError
                     "stack(): argument 'tensors' must be tuple of Tensors, not Tensor")
        end).
Proof.
  split; [done|]. split.
  - intros t before img after.
    unfold CLIPModel_extract_features, first_image, py_len.
    cbn [py_index lookup list_lookup mbind result_bind rbind].
    unfold torch_stack. rewrite map_result_cons. cbn [mbind result_bind rbind].
    assert (H : forall l : list (Tensor float32),
               map_result
                 (fun x : ImageInput PIL =>
                    match x with
                    | TensorInput t => Ok t
                    | PILInput _ =>
                        Raise (TypeError
                                 "expected Tensor as element of argument 'tensors'")
                    end) (map TensorInput l ++ PILInput img :: after)
               = Raise (TypeError "expected Tensor as element of argument 'tensors'")).
    { induction l as [|u l IH]; simpl; [done|]. by rewrite IH. }
    by rewrite H.
  - intros batch. rewrite clip_batch_raises.
    unfold tensor_index, py_len. destruct (shape batch) as [|n rest]; [done|].
    simpl. by destruct n.
Qed.

(** X11: [DinoV2Model.extract_features] never returns features.  On an instance
    built by [__init__], whatever the model name and the images, it raises
    AttributeError for [procesor] as soon as the length of the argument is
    logged: [__init__] binds [processor] and [model] only. *)
Theorem dinov2_never_extracts {HFModel HFProcessor PIL : Type}
    (AutoModel_from_pretrained : option string -> result HFModel)
    (AutoImageProcessor_from_pretrained : option string -> result HFProcessor)
    (processor_call : HFProcessor -> ImagesArg PIL -> result (Tensor float32))
    (model_call : HFModel -> Tensor float32 -> result (list (list Vector)))
    (model_name : option string)
    (self : gmap string (DinoAttr HFModel HFProcessor)) (images : ImagesArg PIL)
    (Hinit : DinoV2Model_init HFModel HFProcessor AutoModel_from_pretrained
               AutoImageProcessor_from_pretrained model_name = Ok self) :
  DinoV2Model_extract_features HFModel HFProcessor PIL processor_call model_call
    self images
  = match py_len images with
    | Ok _ => Failed (AttributeError "procesor")
    | Raise e => Failed (Raised e)
    end /\
  (exists processor, getattr HFModel HFProcessor self "processor"
                     = Returned (ProcessorAttr processor)) /\
  (exists model, getattr HFModel HFProcessor self "model" = Returned (ModelAttr model)).
Proof.
  unfold DinoV2Model_init in Hinit.
  apply bind_Ok_inv in Hinit as (model & _ & Hinit).
  apply bind_Ok_inv in Hinit as (processor & _ & [= <-]).
  unfold DinoV2Model_extract_features, getattr.
  rewrite lookup_insert_ne by done. rewrite lookup_insert_ne by done.
  rewrite lookup_empty. split; [done|]. split.
  - exists processor. by rewrite lookup_insert_eq.
  - exists model. rewrite lookup_insert_ne by done. by rewrite lookup_insert_eq.
Qed.

Lemma dinov2_never_extracts_witness :
  exists self,
    DinoV2Model_init unit unit ex_from_pretrained ex_from_pretrained
      (Some "facebook/dinov2-large") = Ok self /\
    DinoV2Model_extract_features unit unit unit
      (fun _ _ => Ok (ex_images 2)) (fun _ _ => Ok []) self (ImageBatch (ex_images 2))
    = Failed (AttributeError "procesor").
Proof.
  eexists. split; [reflexivity|].
  apply (dinov2_never_extracts (PIL := unit) ex_from_pretrained ex_from_pretrained
           (fun _ _ => Ok (ex_images 2)) (fun _ _ => Ok [])
           (Some "facebook/dinov2-large") _ (ImageBatch (ex_images 2))).
  reflexivity.
Defined.

(** ** Further properties: whole runs *)

Section Runs.

Variable config : Config.
Variable dataset : list Sample.
Variable os_makedirs : string -> result unit.
Variable save_image : Tensor float32 -> string -> result unit.
Variable base_model_extract_features : Tensor float32 -> result (list Vector).
Variable image_open_L : string -> result GrayImage.
Variable preprocess_image : GrayImage -> Z -> result GrayImage.

(** *** Every rank holds the same result set *)

Lemma result_set_any_rank (rank other : nat)
    (result_set : list Vector * option Metadata) :
  distributed config = true -> other < world_size config ->
  global_result_set config dataset os_makedirs save_image
    base_model_extract_features image_open_L preprocess_image rank = Ok result_set ->
  global_result_set config dataset os_makedirs save_image
    base_model_extract_features image_open_L preprocess_image other = Ok result_set.
Proof.
  intros Hdistributed Hother Hrank.
  destruct result_set as [feats all_metadata].
  destruct (distributed_result_set_inv _ _ _ _ _ _ _ _ _ _ Hdistributed Hrank)
    as (md & gathered & -> & Hgather & Hrec).
  unfold global_result_set.
  assert (Hown : exists own,
             shard_pass config dataset os_makedirs save_image
               base_model_extract_features image_open_L preprocess_image other
             = Ok own).
  { pose proof Hgather as HF. apply map_result_Forall2 in HF.
    assert (Hlen : length gathered = world_size config).
    { apply Forall2_length in HF. by rewrite length_seq in HF. }
    destruct (lookup_lt_is_Some_2 gathered other) as [own Hown]; [lia|].
    exists own.
    eapply (Forall2_lookup_lr _ _ _ other other own HF); [|done].
    by apply lookup_seq_lt. }
  destruct Hown as [[own_features own_metadata] ->]. simpl.
  rewrite Hdistributed, Hgather. simpl. by rewrite Hrec.
Qed.

(** X12: in distributed mode every rank of the group computes the same result
    set: the one any rank holds after the gather is the one every other
    rank holds; and when rank 0 completes, every other rank completes too
    and writes none of the three output artifacts (index, sidecar,
    summary). *)
Theorem all_ranks_same_result_set (rank other : nat)
    (result_set : list Vector * option Metadata)
    (Hdistributed : distributed config = true)
    (Hother : other < world_size config)
    (Hrank : global_result_set config dataset os_makedirs save_image
               base_model_extract_features image_open_L preprocess_image rank
             = Ok result_set) :
  global_result_set config dataset os_makedirs save_image
    base_model_extract_features image_open_L preprocess_image other
  = Ok result_set /\
  forall model_type written,
    run_extraction config dataset os_makedirs save_image
      base_model_extract_features image_open_L preprocess_image 0 model_type
    = (written, Ok tt) ->
    other <> 0 ->
    run_extraction config dataset os_makedirs save_image
      base_model_extract_features image_open_L preprocess_image other model_type
    = (no_artifacts, Ok tt).
Proof.
  split; [by eapply result_set_any_rank|].
  intros model_type written Hzero Hne. unfold run_extraction in *.
  rewrite Hdistributed in *. simpl in Hzero.
  destruct (Nat.ltb_spec other (world_size config)); [|lia].
  destruct (0 <? world_size config); simpl in Hzero; [|by injection Hzero].
  simpl.
  destruct (dict_get (models config) model_type) as [mc|]; simpl in *;
    [|by injection Hzero].
  destruct (create_model model_type mc); simpl in *; [|by injection Hzero].
  destruct (global_result_set _ _ _ _ _ _ _ 0) as [rs0|] eqn:Hset; simpl in Hzero;
    [|by injection Hzero].
  rewrite (result_set_any_rank 0 other rs0 Hdistributed Hother Hset). simpl.
  destruct rs0 as [feats omd].
  destruct (Nat.eqb_spec other 0); [done|]. done.
Qed.

(** *** Single-process mode *)

Lemma single_process_result_set (rank : nat) (feats : list Vector)
    (all_metadata : option Metadata) :
  distributed config = false ->
  global_result_set config dataset os_makedirs save_image
    base_model_extract_features image_open_L preprocess_image rank
  = Ok (feats, all_metadata) ->
  exists m w, all_metadata = Some m /\ md_id m = IdTensor w.
Proof.
  intros Hsingle. unfold global_result_set. rewrite Hsingle.
  destruct (shard_pass _ _ _ _ _ _ _ rank) as [[fs omd]|e] eqn:Hpass; simpl; [|done].
  unfold shard_pass in Hpass. destruct (_ <=? _)%Z; [done|].
  apply shard_loop_log in Hpass as (_ & _ & Hlen & Hsome).
  destruct (batch_sampler _ _ _) as [|b batches].
  { destruct fs; [done|]. simpl in Hlen. lia. }
  destruct Hsome as (m & w & -> & Hw); [done|].
  destruct (np_vstack fs); simpl; [|done]. intros [= <- <-]. by eexists _, _.
Qed.

(** X13: in single-process mode [run_extraction] never returns normally: it
    raises before or while the metadata is dumped (the id column is still a
    tensor at [json.dump]), so that no complete metadata.json and no
    processing summary is ever written. *)
Theorem single_process_never_completes (model_type : string)
    (Hsingle : distributed config = false) :
  exists e,
    snd (run_extraction config dataset os_makedirs save_image
           base_model_extract_features image_open_L preprocess_image 0 model_type)
    = Raise e /\
    summary_file
      (fst (run_extraction config dataset os_makedirs save_image
              base_model_extract_features image_open_L preprocess_image 0 model_type))
    = None /\
    forall doc,
      metadata_file
        (fst (run_extraction config dataset os_makedirs save_image
                base_model_extract_features image_open_L preprocess_image 0 model_type))
      <> Some (MetadataJson doc).
Proof.
  unfold run_extraction. rewrite Hsingle. simpl.
  destruct (dict_get (models config) model_type) as [mc|e]; simpl;
    [|by eexists].
  destruct (create_model model_type mc) as [built|e]; simpl; [|by eexists].
  destruct (global_result_set _ _ _ _ _ _ _ 0) as [[feats omd]|e] eqn:Hset; simpl;
    [|by eexists].
  destruct (single_process_result_set _ _ _ Hsingle Hset) as (m & w & -> & Hw).
  unfold persist. destruct (faiss_add _ _) as [index|e]; [|by eexists].
  simpl. rewrite Hw. by eexists.
Qed.

End Runs.

(** *** What a completed run leaves behind *)

Lemma faiss_add_inv (dimension : Z) (vectors index : list Vector) :
  faiss_add dimension vectors = Ok index ->
  index = vectors /\ Forall (fun v => Z.of_nat (length v) = dimension) vectors.
Proof.
  unfold faiss_add. destruct (forallb _ _) eqn:Hall; [|done].
  intros [= <-]. split; [done|].
  rewrite forallb_forall in Hall. apply Forall_forall. intros v Hv.
  apply Z.eqb_eq, Hall. by apply list_elem_of_In.
Qed.

(** X14: what a completed run of rank 0 implies.  The run is distributed, the
    model type is CLIP or DINOV2 and has an entry, all three artifacts are
    written, the index holds the rows of the result set, each of the
    configured dimension and one per id of the sidecar; the summary reports
    that number of rows as the features processed, but as the number of
    images processed it reports 6, the number of keys of the metadata
    dict. *)
Theorem completed_run_artifacts (config : Config) (dataset : list Sample)
    (os_makedirs : string -> result unit)
    (save_image : Tensor float32 -> string -> result unit)
    (base_model_extract_features : Tensor float32 -> result (list Vector))
    (image_open_L : string -> result GrayImage)
    (preprocess_image : GrayImage -> Z -> result GrayImage)
    (model_type : string) (written : Artifacts)
    (Hrun : run_extraction config dataset os_makedirs save_image
              base_model_extract_features image_open_L preprocess_image 0 model_type
            = (written, Ok tt)) :
  distributed config = true /\
  is_Some (models config !! model_type) /\
  (model_type = "CLIP" \/ model_type = "DINOV2") /\
  exists index md summary,
    written = {| index_file := Some index;
                 metadata_file := Some (MetadataJson (Some md));
                 summary_file := Some summary |} /\
    global_result_set config dataset os_makedirs save_image
      base_model_extract_features image_open_L preprocess_image 0 = Ok (index, Some md) /\
    Forall (fun v => Z.of_nat (length v) = dimension (faiss config)) index /\
    length index = length (id_values (md_id md)) /\
    sum_total_features summary = length index /\
    sum_images_processed summary = 6 /\
    sum_gpus summary = Some (world_size config) /\
    sum_model_type summary = model_type /\
    sum_config summary = config.
Proof.
  unfold run_extraction in Hrun.
  destruct (distributed config && negb (0 <? world_size config)) eqn:Hrank;
    simpl in Hrun; [by injection Hrun|].
  unfold dict_get in Hrun.
  destruct (models config !! model_type) as [mc|] eqn:Hmc; simpl in Hrun;
    [|by injection Hrun].
  destruct (create_model model_type mc) as [built|e] eqn:Hbuilt; simpl in Hrun;
    [|by injection Hrun].
  destruct (global_result_set _ _ _ _ _ _ _ 0) as [[feats omd]|e] eqn:Hset;
    simpl in Hrun; [|by injection Hrun].
  assert (Hdist : distributed config = true).
  { destruct (distributed config) eqn:Hdist; [done|]. exfalso.
    destruct (single_process_result_set _ _ _ _ _ _ _ _ _ _ Hdist Hset)
      as (m & w & -> & Hw).
    unfold persist in Hrun. destruct (faiss_add _ _); [|by injection Hrun].
    simpl in Hrun. rewrite Hw in Hrun. by injection Hrun. }
  split; [done|]. split; [by eexists|]. split.
  { unfold create_model in Hbuilt.
    destruct (String.eqb_spec model_type "CLIP"); [by left|].
    destruct (String.eqb_spec model_type "DINOV2"); [by right|done]. }
  destruct (distributed_result_set_inv _ _ _ _ _ _ _ _ _ _ Hdist Hset)
    as (md & gathered & -> & Hgather & Hrec).
  destruct (reconcile_sorted _ _ _ Hrec) as (Hlist & _ & Hperm & _ & σ & Hσ & Hrows & _).
  unfold persist in Hrun.
  destruct (faiss_add _ _) as [index|e] eqn:Hadd; [|by injection Hrun].
  apply faiss_add_inv in Hadd as [-> Hdim].
  simpl in Hrun. rewrite Hlist in Hrun. injection Hrun as <-.
  eexists feats, md, _. split; [done|]. split; [done|]. split; [done|].
  split.
  { apply Forall2_length in Hrows. rewrite <- Hrows.
    rewrite (Permutation_length Hσ), length_seq. symmetry.
    by apply Permutation_length. }
  simpl. rewrite Hdist. done.
Qed.

Lemma all_ranks_same_result_set_witness :
  exists result_set,
    ex_global_result_set true 2 1 [3; 4; 1; 2]%Z 0 = Ok result_set /\
    ex_global_result_set true 2 1 [3; 4; 1; 2]%Z 1 = Ok result_set.
Proof.
  eexists. split; [vm_compute; reflexivity|].
  apply (all_ranks_same_result_set (ex_config true 2 1) (map ex_sample [3; 4; 1; 2]%Z)
           ex_makedirs ex_save_image ex_encoder ex_image_open ex_preprocess 0 1);
    [reflexivity|simpl; lia|vm_compute; reflexivity].
Defined.

Lemma single_process_never_completes_witness :
  exists e, snd (ex_run false 1 2 [3; 4; 1; 2]%Z 0) = Raise e /\
            summary_file (fst (ex_run false 1 2 [3; 4; 1; 2]%Z 0)) = None.
Proof.
  destruct (single_process_never_completes (ex_config false 1 2)
              (map ex_sample [3; 4; 1; 2]%Z)
              ex_makedirs ex_save_image ex_encoder ex_image_open ex_preprocess
              "CLIP" eq_refl) as (e & He & Hsummary & _).
  exists e. split; [exact He|exact Hsummary].
Defined.

Lemma completed_run_artifacts_witness :
  exists written summary,
    ex_run true 2 1 [3; 4; 1; 2]%Z 0 = (written, Ok tt) /\
    summary_file written = Some summary /\
    sum_total_features summary = 4 /\
    sum_images_processed summary = 6.
Proof.
  assert (Hrun : exists written,
             run_extraction (ex_config true 2 1) (map ex_sample [3; 4; 1; 2]%Z)
               ex_makedirs ex_save_image ex_encoder ex_image_open ex_preprocess 0 "CLIP"
             = (written, Ok tt) /\
             option_map length (index_file written) = Some 4).
  { eexists. split; vm_compute; reflexivity. }
  destruct Hrun as (written & Hrun & Hlen).
  destruct (completed_run_artifacts _ _ _ _ _ _ _ _ _ Hrun)
    as (_ & _ & _ & index & md & summary & -> & _ & _ & _ & Htotal & Himages & _).
  eexists _, summary. split; [exact Hrun|]. split; [reflexivity|].
  simpl in Hlen. injection Hlen as Hlen. rewrite Htotal, Hlen. by split.
Defined.

(** *** The sort is stable *)

Lemma insert_by_stable (x : nat * Z) (l : list (nat * Z)) :
  StronglySorted row_order l -> Forall (fun y => fst x < fst y) l ->
  StronglySorted row_order (insert_by snd x l).
Proof.
  induction 1 as [|y rest Hrest IH Hy]; intros Hx; simpl.
  - repeat constructor.
  - apply Forall_cons in Hx as [Hxy Hx].
    destruct (Z.ltb_spec (snd y) (snd x)) as [Hlt|Hge].
    + constructor; [by apply IH|].
      rewrite (insert_by_Permutation snd x rest). constructor; [by left|done].
    + constructor; [by constructor|].
      constructor.
      * unfold row_order. destruct (Z.eq_dec (snd x) (snd y)); [right|left]; lia.
      * rewrite Forall_forall in Hy, Hx. apply Forall_forall. intros z Hz.
        specialize (Hy z Hz). specialize (Hx z Hz). unfold row_order in *.
        destruct (Z.eq_dec (snd x) (snd z)); [right|left]; lia.
Qed.

Lemma py_sorted_stable (l : list (nat * Z)) :
  StronglySorted (fun p q => fst p < fst q) l ->
  StronglySorted row_order (py_sorted snd l).
Proof.
  induction 1 as [|x l Hl IH Hx]; simpl; [constructor|].
  apply insert_by_stable; [done|].
  fold (py_sorted snd l). by rewrite (py_sorted_Permutation snd l).
Qed.

Lemma enumerate_positions {A : Type} (xs : list A) :
  StronglySorted (fun p q : nat * A => fst p < fst q) (enumerate xs).
Proof.
  unfold enumerate. generalize 0 as start.
  induction xs as [|x xs IH]; intros start; simpl; [constructor|].
  constructor; [apply IH|].
  apply Forall_forall. intros [i y] Hin. simpl.
  apply elem_of_zip_l in Hin. apply elem_of_seq in Hin. lia.
Qed.

Lemma enumerate_elem {A : Type} (xs : list A) (i : nat) (x : A) :
  (i, x) ∈ enumerate xs -> xs !! i = Some x.
Proof.
  unfold enumerate. intros [k Hk]%list_elem_of_lookup.
  apply lookup_zip_with_Some in Hk as (j & y & [= -> ->] & Hj & Hy).
  apply lookup_seq in Hj as [-> _]. done.
Qed.

(** X15: the list of lines 481-483 is the stable sorting permutation: it
    holds every row position of the gathered table exactly once; of two
    rows, the one of smaller id comes first, and rows of equal id keep their
    order in the gathered table. *)
Theorem sorted_indices_stable (ids : list Z) :
  Permutation (sorted_indices_of ids) (seq 0 (length ids)) /\
  StronglySorted
    (fun i j => exists a b, ids !! i = Some a /\ ids !! j = Some b /\
                            ((a < b)%Z \/ (a = b /\ i < j)))
    (sorted_indices_of ids).
Proof.
  split; [apply sorted_indices_Permutation|].
  unfold sorted_indices_of.
  pose proof (py_sorted_stable _ (enumerate_positions ids)) as Hsorted.
  assert (Hin : Forall (fun p => ids !! fst p = Some (snd p))
                  (py_sorted snd (enumerate ids))).
  { rewrite (py_sorted_Permutation snd (enumerate ids)).
    apply Forall_forall. intros [i x] Hx. by apply enumerate_elem. }
  induction Hsorted as [|p l Hl IH Hp]; simpl; [constructor|].
  apply Forall_cons in Hin as [Hp_in Hin].
  constructor; [by apply IH|].
  rewrite Forall_forall in Hp, Hin. apply Forall_forall.
  intros j [q [-> Hq]]%list_elem_of_fmap.
  exists (snd p), (snd q). split; [done|]. split; [by apply Hin|by apply Hp].
Qed.

(** *** The model entries [main] needs *)

Section MainEntries.

Variable config : Config.
Variable dataset : list Sample.
Variable os_makedirs : string -> result unit.
Variable save_image : Tensor float32 -> string -> result unit.
Variable base_model_extract_features : Tensor float32 -> result (list Vector).
Variable image_open_L : string -> result GrayImage.
Variable preprocess_image : GrayImage -> Z -> result GrayImage.

Lemma run_extraction_missing_entry (rank : nat) (model_type : string) :
  models config !! model_type = None ->
  (distributed config = true -> rank < world_size config) ->
  run_extraction config dataset os_makedirs save_image
    base_model_extract_features image_open_L preprocess_image rank model_type
  = (no_artifacts, Raise (KeyError model_type)).
Proof.
  intros Hmissing Hrank. unfold run_extraction, dict_get. rewrite Hmissing.
  destruct (distributed config); simpl; [|done].
  destruct (Nat.ltb_spec rank (world_size config)); [done|].
  specialize (Hrank eq_refl). lia.
Qed.

(** X16: [main] with no entry for the model it selects.  This can only be
    DINOV2 (the CLIP entry exists and carries the name None as a string);
    [main] then still launches every process, and each of them raises
    KeyError for DINOV2 before any data is read, writing none of the three
    output artifacts (index, sidecar, summary). *)
Theorem main_missing_model_entry (model_type : string)
    (Hselected : select_model_type config = Ok model_type)
    (Hmissing : models config !! model_type = None) :
  model_type = "DINOV2" /\
  (exists clip, models config !! "CLIP" = Some clip /\ name clip = Some "None") /\
  main config dataset os_makedirs save_image
    base_model_extract_features image_open_L preprocess_image
  = Ok (replicate (if distributed config then world_size config else 1)
          (no_artifacts, Raise (KeyError "DINOV2"))).
Proof.
  unfold main. rewrite Hselected. simpl.
  unfold select_model_type, dict_get in Hselected.
  destruct (models config !! "CLIP") as [clip|] eqn:Hclip; [|done].
  simpl in Hselected. injection Hselected as <-.
  destruct (py_ne_str (name clip) "None") eqn:Hne; [congruence|].
  split; [done|]. split; [exists clip; split; [done|by apply py_ne_str_false]|].
  destruct (distributed config) eqn:Hdist.
  - f_equal. apply list_eq. intros i.
    rewrite list_lookup_fmap.
    destruct (decide (i < world_size config)) as [Hi|Hi].
    + rewrite lookup_seq_lt by done. simpl.
      rewrite lookup_replicate_2 by done. f_equal.
      apply run_extraction_missing_entry; done.
    + rewrite lookup_seq_ge by lia. simpl. symmetry.
      apply lookup_replicate_None. lia.
  - simpl. f_equal. f_equal.
    apply run_extraction_missing_entry; [done|]. by rewrite Hdist.
Qed.

(** X17: the factory accepts whatever [main] selects: for the selected model
    type [create_model] builds the CLIP class or the DinoV2 class with the
    name of the entry, and its ValueError branch is not reached. *)
Theorem selected_model_is_built (model_type : string) (model_config : ModelConfig)
    (Hselected : select_model_type config = Ok model_type)
    (Hentry : models config !! model_type = Some model_config) :
  create_model model_type model_config
  = Ok (if String.eqb model_type "CLIP" then CLIPModel else DinoV2Model,
        name model_config).
Proof.
  unfold select_model_type, dict_get in Hselected.
  destruct (models config !! "CLIP") as [clip|]; [|done].
  simpl in Hselected. injection Hselected as <-.
  by destruct (py_ne_str (name clip) "None").
Qed.

(** *** An encoder that raises *)

Lemma process_batch_encoder_raises (batch : Tensor float32 * Metadata) :
  (forall t, is_ok (base_model_extract_features t) = false) ->
  is_ok (process_batch config os_makedirs save_image base_model_extract_features
           image_open_L preprocess_image batch) = false.
Proof.
  intros Hencoder. destruct batch as [images metadata]. unfold process_batch.
  destruct (size images 0); simpl; [|done].
  destruct (size images 2); simpl; [|done].
  destruct (size images 3); simpl; [|done].
  destruct (load_masks _ _ _ _ _ _); simpl; [|done].
  unfold extract_features.
  destruct (masked_images_of _ _) as [masked|]; simpl; [|done].
  destruct (save_sample_images _ _ _ _ _ _); simpl; [|done].
  specialize (Hencoder masked).
  destruct (base_model_extract_features masked); simpl; done.
Qed.

Lemma shard_pass_encoder_raises (rank : nat) (log : list (list Vector) * option Metadata) :
  (forall t, is_ok (base_model_extract_features t) = false) ->
  shard_pass config dataset os_makedirs save_image base_model_extract_features
    image_open_L preprocess_image rank = Ok log ->
  log = ([], None).
Proof.
  intros Hencoder. unfold shard_pass. destruct (_ <=? _)%Z; [done|].
  destruct (batch_sampler _ _ _) as [|b batches]; simpl; [by intros [= <-]|].
  unfold shard_step.
  destruct (map_result _ b) as [samples|]; simpl; [|done].
  destruct (collate samples) as [batch|]; simpl; [|done].
  pose proof (process_batch_encoder_raises batch Hencoder) as Hbatch.
  destruct (process_batch _ _ _ _ _ _ batch); simpl; done.
Qed.

(** X18: with an encoder that raises on every batch, as the CLIP class does on
    the batch tensor the pipeline hands it, no run completes: every rank
    raises, in both modes and for every dataset, and writes no artifact. *)
Theorem encoder_failure_is_fatal (rank : nat) (model_type : string)
    (Hencoder : forall t, is_ok (base_model_extract_features t) = false) :
  exists e,
    run_extraction config dataset os_makedirs save_image
      base_model_extract_features image_open_L preprocess_image rank model_type
    = (no_artifacts, Raise e).
Proof.
  unfold run_extraction.
  destruct (distributed config && negb (rank <? world_size config)); simpl;
    [by eexists|].
  destruct (dict_get (models config) model_type) as [mc|e']; simpl; [|by eexists].
  destruct (create_model model_type mc) as [?|e']; simpl; [|by eexists].
  unfold global_result_set.
  destruct (shard_pass _ _ _ _ _ _ _ rank) as [log|e'] eqn:Hown; simpl; [|by eexists].
  apply shard_pass_encoder_raises in Hown as ->; [|done].
  destruct (distributed config); simpl; [|by eexists].
  destruct (map_result _ (seq 0 (world_size config))) as [gathered|e'] eqn:Hgather;
    simpl; [|by eexists].
  assert (Hlogs : Forall (fun log => log = ([], None)) gathered).
  { apply map_result_Forall2 in Hgather.
    induction Hgather as [|r log rs logs Hlog _ IH]; constructor; [|done].
    by eapply shard_pass_encoder_raises. }
  assert (Hflat : flatten_metadata (map snd gathered) = Ok None).
  { unfold flatten_metadata. clear Hgather.
    induction Hlogs as [|log logs Hlog _ IH]; simpl; [done|].
    rewrite Hlog. simpl. exact IH. }
  unfold reconcile. rewrite Hflat. simpl. by eexists.
Qed.

End MainEntries.

Lemma main_missing_model_entry_witness :
  main (ex_config_no_dinov2 true 2) (map ex_sample [3; 4; 1; 2]%Z)
    ex_makedirs ex_save_image ex_encoder ex_image_open ex_preprocess
  = Ok [(no_artifacts, Raise (KeyError "DINOV2"));
        (no_artifacts, Raise (KeyError "DINOV2"))].
Proof.
  apply (main_missing_model_entry (ex_config_no_dinov2 true 2)
           (map ex_sample [3; 4; 1; 2]%Z)
           ex_makedirs ex_save_image ex_encoder ex_image_open ex_preprocess "DINOV2");
    reflexivity.
Defined.

Lemma selected_model_is_built_witness :
  create_model "CLIP" (ex_model_config (Some "ViT-B-32"))
  = Ok (CLIPModel, Some "ViT-B-32").
Proof.
  apply (selected_model_is_built (ex_config false 1 1) "CLIP"
           (ex_model_config (Some "ViT-B-32"))); reflexivity.
Defined.

Lemma encoder_failure_is_fatal_witness :
  exists e,
    run_extraction (ex_config true 2 1) (map ex_sample [3; 4; 1; 2]%Z)
      ex_makedirs ex_save_image ex_clip_encoder ex_image_open ex_preprocess 1 "CLIP"
    = (no_artifacts, Raise e).
Proof.
  apply (encoder_failure_is_fatal (ex_config true 2 1) (map ex_sample [3; 4; 1; 2]%Z)
           ex_makedirs ex_save_image ex_clip_encoder ex_image_open ex_preprocess
           1 "CLIP").
  intros t. unfold ex_clip_encoder. rewrite clip_batch_raises.
  destruct (py_len _); [|done]. by destruct (tensor_index t 0).
Defined.

(** ** Further properties: logging and captions *)

Lemma logger_name_inj (rank1 rank2 : option nat) :
  logger_name rank1 = logger_name rank2 -> rank1 = rank2.
Proof.
  destruct rank1 as [r1|], rank2 as [r2|]; simpl; try done.
  intros H. f_equal. apply (inj pretty). by simplify_eq.
Qed.

(** X19: [setup_logging] on a logger without handlers installs exactly a file
    handler on the returned log file and a console handler, and touches no
    other logger (the logger names of different ranks, and of the main
    process, differ); any later call for the same rank leaves the registry
    as it is and opens no file, whatever path it returns. *)
Theorem setup_logging_installs_once
    (mkdir open_log : string -> result unit)
    (output_dir timestamp : string) (rank : option nat)
    (registry registry1 : gmap string (list Handler)) (logger log_file : string)
    (Hfresh : default [] (registry !! logger_name rank) = [])
    (Hfirst : setup_logging mkdir open_log output_dir rank timestamp registry
              = Ok (registry1, (logger, log_file))) :
  logger = logger_name rank /\
  registry1 !! logger = Some [FileHandler log_file; StreamHandler] /\
  (forall other, other <> rank ->
                 registry1 !! logger_name other = registry !! logger_name other) /\
  forall output_dir' timestamp',
    mkdir (path_join output_dir' "logs") = Ok tt ->
    exists log_file',
      setup_logging mkdir (fun _ => Raise (OSError "not opened")) output_dir' rank
        timestamp' registry1
      = Ok (registry1, (logger, log_file')).
Proof.
  unfold setup_logging in Hfirst.
  apply bind_Ok_inv in Hfirst as ([] & _ & Hfirst).
  rewrite Hfresh in Hfirst.
  apply bind_Ok_inv in Hfirst as ([] & _ & [= <- <- <-]).
  split; [done|]. split; [by rewrite lookup_insert_eq|]. split.
  - intros other Hother. rewrite lookup_insert_ne; [done|].
    intros Heq. by apply logger_name_inj in Heq.
  - intros output_dir' timestamp' Hmkdir. eexists.
    unfold setup_logging. rewrite Hmkdir. cbn [mbind result_bind rbind].
    rewrite lookup_insert_eq. cbn [default].
    rewrite insert_insert_eq. reflexivity.
Qed.

Lemma setup_logging_installs_once_witness :
  exists registry1 log_file,
    setup_logging ex_makedirs ex_makedirs "out" (Some 0) "20240101_000000" ∅
    = Ok (registry1, ("Rank0", log_file)) /\
    registry1 !! "Rank0" = Some [FileHandler log_file; StreamHandler] /\
    registry1 !! "Main" = None.
Proof.
  assert (Hfirst : exists registry1 log_file,
             setup_logging ex_makedirs ex_makedirs "out" (Some 0) "20240101_000000" ∅
             = Ok (registry1, ("Rank0", log_file)))
    by (eexists _, _; reflexivity).
  destruct Hfirst as (registry1 & log_file & Hfirst).
  assert (Hfresh : default [] ((∅ : gmap string (list Handler)) !! logger_name (Some 0))
                   = []) by reflexivity.
  destruct (setup_logging_installs_once ex_makedirs ex_makedirs "out" "20240101_000000"
              (Some 0) ∅ registry1 "Rank0" log_file Hfresh Hfirst)
    as (_ & Hhandlers & Hothers & _).
  exists registry1, log_file. split; [exact Hfirst|]. split; [exact Hhandlers|].
  apply (Hothers None). discriminate.
Defined.

Lemma lower_char_idempotent (c : ascii) : lower_char (lower_char c) = lower_char c.
Proof.
  unfold lower_char.
  destruct ((65 <=? nat_of_ascii c) && (nat_of_ascii c <=? 90)) eqn:Hupper.
  - apply andb_true_iff in Hupper as [H1%Nat.leb_le H2%Nat.leb_le].
    rewrite nat_ascii_embedding by lia.
    destruct (Nat.leb_spec (nat_of_ascii c + 32) 90); [lia|].
    by rewrite andb_false_r.
  - by rewrite Hupper.
Qed.

Lemma lower_char_space (c : ascii) : py_isspace (lower_char c) = py_isspace c.
Proof.
  unfold lower_char.
  destruct ((65 <=? nat_of_ascii c) && (nat_of_ascii c <=? 90)) eqn:Hupper; [|done].
  apply andb_true_iff in Hupper as [H1%Nat.leb_le H2%Nat.leb_le].
  unfold py_isspace. rewrite nat_ascii_embedding by lia.
  repeat match goal with |- context [?a <=? ?b] => destruct (Nat.leb_spec a b) end;
    simpl; lia || done.
Qed.

Lemma py_lstrip_suffix (s : list ascii) : py_lstrip s `suffix_of` s.
Proof.
  induction s as [|c s IH]; simpl; [done|].
  destruct (py_isspace c); [by apply suffix_cons_r|done].
Qed.

Lemma py_lstrip_head (s : list ascii) (c : ascii) (rest : list ascii) :
  py_lstrip s = c :: rest -> py_isspace c = false.
Proof.
  induction s as [|d s IH]; simpl; [done|].
  destruct (py_isspace d) eqn:Hd; [done|]. by intros [= <- <-].
Qed.

Lemma py_lstrip_fixed (c : ascii) (rest : list ascii) :
  py_isspace c = false -> py_lstrip (c :: rest) = c :: rest.
Proof. intros H. simpl. by rewrite H. Qed.

Lemma py_lstrip_snoc (s : list ascii) (c : ascii) :
  py_isspace c = false -> py_lstrip (s ++ [c]) = py_lstrip s ++ [c].
Proof.
  intros Hc. induction s as [|d s IH]; simpl.
  - by rewrite Hc.
  - by destruct (py_isspace d).
Qed.

Lemma py_rstrip_snoc (s : list ascii) (c : ascii) :
  py_isspace c = false -> py_rstrip (s ++ [c]) = s ++ [c].
Proof.
  intros Hc. unfold py_rstrip. rewrite reverse_snoc, py_lstrip_fixed by done.
  by rewrite reverse_cons, reverse_involutive.
Qed.

Lemma py_strip_snoc (s : list ascii) (c : ascii) :
  py_isspace c = false -> py_strip (s ++ [c]) = py_lstrip s ++ [c].
Proof.
  intros Hc. unfold py_strip. by rewrite py_lstrip_snoc, py_rstrip_snoc.
Qed.

Lemma py_lstrip_idempotent (s : list ascii) : py_lstrip (py_lstrip s) = py_lstrip s.
Proof.
  destruct (py_lstrip s) as [|c rest] eqn:Hs; [done|].
  apply py_lstrip_fixed. by eapply py_lstrip_head.
Qed.

Lemma py_rstrip_prefix (s : list ascii) : py_rstrip s `prefix_of` s.
Proof.
  unfold py_rstrip. destruct (py_lstrip_suffix (reverse s)) as [k Hk].
  exists (reverse k). apply (inj reverse).
  by rewrite reverse_app, !reverse_involutive.
Qed.

Lemma py_lstrip_rstrip (s : list ascii) :
  py_lstrip (py_rstrip (py_lstrip s)) = py_rstrip (py_lstrip s).
Proof.
  destruct (py_lstrip s) as [|c rest] eqn:Hs; [done|].
  pose proof (py_lstrip_head _ _ _ Hs) as Hc.
  destruct (py_rstrip_prefix (c :: rest)) as [k Hk].
  destruct (py_rstrip (c :: rest)) as [|d rest'] eqn:Hr; [done|].
  simpl in Hk. injection Hk as <- _. by apply py_lstrip_fixed.
Qed.

Lemma py_rstrip_idempotent (s : list ascii) : py_rstrip (py_rstrip s) = py_rstrip s.
Proof.
  unfold py_rstrip. by rewrite reverse_involutive, py_lstrip_idempotent.
Qed.

Lemma py_strip_idempotent (s : list ascii) : py_strip (py_strip s) = py_strip s.
Proof.
  unfold py_strip. by rewrite py_lstrip_rstrip, py_rstrip_idempotent.
Qed.

Lemma py_lstrip_lower (s : list ascii) :
  py_lstrip (py_lower s) = py_lower (py_lstrip s).
Proof.
  induction s as [|c s IH]; simpl; [done|].
  rewrite lower_char_space. by destruct (py_isspace c).
Qed.

Lemma py_lower_reverse (s : list ascii) : reverse (py_lower s) = py_lower (reverse s).
Proof.
  unfold py_lower. change (map lower_char ?l) with (lower_char <$> l).
  by rewrite fmap_reverse.
Qed.

Lemma py_strip_lower (s : list ascii) : py_strip (py_lower s) = py_lower (py_strip s).
Proof.
  unfold py_strip, py_rstrip.
  by rewrite py_lstrip_lower, py_lower_reverse, py_lstrip_lower, py_lower_reverse.
Qed.

Lemma py_lower_idempotent (s : list ascii) : py_lower (py_lower s) = py_lower s.
Proof.
  unfold py_lower. rewrite map_map. apply map_ext. apply lower_char_idempotent.
Qed.

Lemma endswith_period_snoc (s : list ascii) (c : ascii) :
  endswith_period (s ++ [c]) = bool_decide (c = "."%char).
Proof. unfold endswith_period. by rewrite reverse_snoc. Qed.

Lemma endswith_period_inv (s : list ascii) :
  endswith_period s = true -> exists pre, s = pre ++ ["."%char].
Proof.
  unfold endswith_period. destruct (reverse s) as [|c r] eqn:Hr; [done|].
  intros ->%bool_decide_eq_true. exists (reverse r).
  apply (inj reverse). by rewrite reverse_snoc, reverse_involutive.
Qed.

(** X20: the caption normalization of [GroundingDino.predict] on ASCII captions:
    the result always ends with a period, normalizing twice is normalizing
    once, and a caption whose period is followed by blanks gets a second
    period. *)
Theorem caption_ends_with_period (cap : list ascii)
    (Hascii : Forall (fun c => nat_of_ascii c < 128) cap) :
  endswith_period (normalize_caption cap) = true /\
  normalize_caption (normalize_caption cap) = normalize_caption cap /\
  (endswith_period cap = false ->
   endswith_period (py_strip (py_lower cap)) = true ->
   exists stem, normalize_caption cap = stem ++ [".";"."]%char).
Proof.
  assert (Hperiod : py_isspace "." = false) by reflexivity.
  assert (Hrepr : exists stem, normalize_caption cap = py_lstrip stem ++ ["."%char] /\
                               py_lower stem = stem).
  { unfold normalize_caption.
    destruct (endswith_period cap) eqn:Hend; simpl.
    - apply endswith_period_inv in Hend as [pre ->].
      unfold py_lower. rewrite map_app. simpl. change (lower_char ".") with "."%char.
      rewrite py_strip_snoc by done. exists (map lower_char pre).
      split; [done|]. apply py_lower_idempotent.
    - exists (py_strip (py_lower cap)). split.
      + unfold py_strip at 2. by rewrite py_lstrip_rstrip.
      + by rewrite py_strip_lower, py_lower_idempotent. }
  destruct Hrepr as (stem & Hnorm & Hlower).
  split; [|split].
  - by rewrite Hnorm, endswith_period_snoc.
  - rewrite Hnorm. unfold normalize_caption.
    rewrite endswith_period_snoc. simpl.
    unfold py_lower. rewrite map_app. simpl. change (lower_char ".") with "."%char.
    rewrite py_strip_snoc by done.
    change (map lower_char ?l) with (py_lower l).
    by rewrite <- py_lstrip_lower, Hlower, py_lstrip_idempotent.
  - intros Hend Hinner. unfold normalize_caption. rewrite Hend. simpl.
    apply endswith_period_inv in Hinner as [pre ->]. exists pre.
    by rewrite <- app_assoc.
Qed.

Lemma caption_ends_with_period_witness :
  endswith_period (normalize_caption (String.list_ascii_of_string "A Cat. ")) = true /\
  exists stem,
    normalize_caption (String.list_ascii_of_string "A Cat. ") = stem ++ ["."; "."]%char.
Proof.
  destruct (caption_ends_with_period (String.list_ascii_of_string "A Cat. "))
    as (Hend & _ & Hdouble).
  - repeat constructor.
  - split; [exact Hend|]. apply Hdouble; reflexivity.
Defined.
